(** * ChatGo: the WebSocket hub, the per-connection handlers and the storage
      queries they call, embedded as state-passing functions.

    Go sources embedded here, by package:
    - [websocket], hub: [Hub], [NewHub], [Hub.Run], [Hub.SendToUser],
      [Hub.IsUserOnline] (in the tree: the [package websocket] part of
      [internal/api/middleware.go]);
    - [websocket], client and handler: [Client], [NewClient],
      [Client.Close], [handleChatMessage], [handleTypingMessage],
      [sendToConversationParticipants], [Handler]
      ([internal/websocket/client.go]);
    - [db]: [IsUserInConversation], [GetUserConversations] in the revision
      whose rows carry [OtherUserID], the one [client.go] is written
      against ([internal/db/conversations.go]), and [CreateMessage]
      ([internal/db/messages.go]);
    - [websocket], the loops of a connection: [Client.ReadPump],
      [Client.WritePump] ([internal/websocket/client.go]);
    - [db], the other queries: [GetOrCreateConversation]
      ([internal/db/conversations.go]) and [GetConversationMessages]
      ([internal/db/messages.go]);
    - [api] and [auth]: [AuthMiddleware], [AdminMiddleware],
      [GetUserFromContext] ([internal/api/middleware.go]),
      [CreateConversationHandler] (between two users),
      [GetConversationsHandler], [GetMessagesHandler]
      ([internal/api/conversation_handlers.go]), [ValidateToken]
      ([internal/auth/jwt.go]);
    - the tables are those of the migration [002_create_chat_tables.sql].

    Goroutines are modelled by atomic steps on one process state: every
    case of the [select] in [Hub.Run] is one step, every handler call of the
    reader loop is one step. The mutex of the hub, taken around each case,
    is what makes the cases atomic; it has no state of its own here. *)

From Stdlib Require Import Ascii.
From stdpp Require Import gmap strings list fin_maps sorting pretty.

Open Scope Z_scope.
Open Scope nat_scope.

(** ** Go values *)

Abbreviation Bytes := (list Byte.byte) (only parsing).
Abbreviation error := string (only parsing).
Abbreviation addr := nat (only parsing).

(** A goroutine either finishes a call or panics (which ends the process). *)
Inductive outcome (A : Type) : Type :=
  | Done (a : A)
  | Panic (reason : string).
Arguments Done {A} a.
Arguments Panic {A} reason.

(** ** Buffered channels *)

Record Chan (A : Type) : Type := MkChan {
  buf : list A;
  cap : nat;
  closed : bool
}.
Arguments MkChan {A} buf cap closed.
Arguments buf {A} c.
Arguments cap {A} c.
Arguments closed {A} c.

(** [make(chan T, n)] *)
Definition make_chan {A} (n : nat) : Chan A := MkChan [] n false.

(** The outcome of [select { case ch <- x: ... default: ... }]. *)
Inductive select_send (A : Type) : Type :=
  | Sent (ch : Chan A)
  | Default
  | SendOnClosed.
Arguments Sent {A} ch.
Arguments Default {A}.
Arguments SendOnClosed {A}.

Definition chan_try_send {A} (ch : Chan A) (x : A) : select_send A :=
  if closed ch then SendOnClosed
  else if bool_decide (length (buf ch) < cap ch)
       then Sent (MkChan (buf ch ++ [x]) (cap ch) false)
       else Default.

(** [close(ch)]; closing a closed channel panics. *)
Definition chan_close {A} (ch : Chan A) : option (Chan A) :=
  if closed ch then None else Some (MkChan (buf ch) (cap ch) true).

(** ** Wire and storage records *)

(** [models.Message] *)
Record Message := MkMessage {
  msg_ID : string;
  msg_ConversationID : string;
  msg_SenderID : string;
  msg_SenderUsername : string;
  msg_Content : string;
  msg_CreatedAt : Z
}.

(** [models.ConversationWithParticipants] *)
Record ConversationWithParticipants := MkConversationWithParticipants {
  ID : string;
  CreatedAt : Z;
  OtherUserID : string;
  OtherUsername : string
}.

(** [IncomingMessage] *)
Record IncomingMessage := MkIncomingMessage {
  in_Type : string;
  in_ConversationID : string;
  in_Content : string;
  in_IsTyping : bool
}.

(** [ChatMessage] *)
Record ChatMessage := MkChatMessage {
  chat_Type : string;
  chat_ID : string;
  chat_ConversationID : string;
  chat_SenderID : string;
  chat_SenderUsername : string;
  chat_Content : string;
  chat_CreatedAt : string
}.

(** [TypingMessage] *)
Record TypingMessage := MkTypingMessage {
  typing_Type : string;
  typing_ConversationID : string;
  typing_UserID : string;
  typing_Username : string;
  typing_IsTyping : bool
}.

(** [interface{}] as passed to [SendToUser]: the two frame structs the
    handlers build, or any other Go value. *)
Inductive any : Type :=
  | AnyChatMessage (m : ChatMessage)
  | AnyTypingMessage (m : TypingMessage)
  | AnyOther (descr : string).

(** [OutgoingMessage] *)
Record OutgoingMessage := MkOutgoingMessage {
  RecipientID : string;
  Data : Bytes
}.

(** [Client]; the transport handle [conn] and the back pointer [hub] carry
    no state of their own here. [closeOnce] is the done flag of the
    [sync.Once]. *)
Record Client := MkClient {
  send : Chan Bytes;
  UserID : string;
  Username : string;
  closeOnce : bool
}.

(** ** Tables of the [002_create_chat_tables.sql] schema *)

Record UserRow := MkUserRow {
  u_id : string;
  u_username : string
}.

Record ConversationRow := MkConversationRow {
  c_id : string;
  c_created_at : Z
}.

Record ParticipantRow := MkParticipantRow {
  cp_conversation_id : string;
  cp_user_id : string
}.

(** The database behind the global [db.DB]. [fault n] is the driver error
    of the [n]-th round trip, if it fails; [gen_random_uuid] and [NOW] are
    the column defaults the server evaluates on insert. *)
Record Database := MkDatabase {
  users : list UserRow;
  conversations : list ConversationRow;
  conversation_participants : list ParticipantRow;
  messages : list Message;
  tick : nat;
  fault : nat → option string;
  gen_random_uuid : nat → string;
  NOW : nat → Z
}.

(** The history of the calls that cross the boundary of the hub core: the
    storage calls are recorded when they return, with their result,
    [SendToUser] when it is entered. The history is kept for stating what
    was called and in which order; no code reads it. *)
Inductive Call : Type :=
  | CallIsUserInConversation (userID conversationID : string)
      (result : bool) (err : option error)
  | CallCreateMessage (conversationID senderID content : string)
      (result : option Message) (err : option error)
  | CallGetUserConversations (userID : string)
      (result : list ConversationWithParticipants) (err : option error)
  | CallSendToUser (userID : string) (message : any).

(** ** Process state *)

Record State := MkState {
  heap : gmap addr Client;
  clients : gmap string addr;
  broadcast : Chan OutgoingMessage;
  log : list string;
  db : Database;
  calls : list Call
}.

(** [NewHub]: an empty map and a broadcast channel of 256 slots. *)
Definition NewHub (d : Database) : State :=
  MkState ∅ ∅ (make_chan 256) [] d [].

(** ** The process monad *)

Definition M (A : Type) : Type := State → outcome (A * State).

#[global] Instance M_ret : MRet M := λ A a s, Done (a, s).
#[global] Instance M_bind : MBind M := λ A B f m s,
  match m s with
  | Done (a, s') => f a s'
  | Panic r => Panic r
  end.

Definition get : M State := λ s, Done (s, s).
Definition panic {A} (reason : string) : M A := λ _, Panic reason.

Definition set_heap (h : gmap addr Client) : M unit := λ s,
  Done (tt, MkState h (clients s) (broadcast s) (log s) (db s) (calls s)).
Definition set_clients (m : gmap string addr) : M unit := λ s,
  Done (tt, MkState (heap s) m (broadcast s) (log s) (db s) (calls s)).
Definition set_broadcast (b : Chan OutgoingMessage) : M unit := λ s,
  Done (tt, MkState (heap s) (clients s) b (log s) (db s) (calls s)).
Definition set_db (d : Database) : M unit := λ s,
  Done (tt, MkState (heap s) (clients s) (broadcast s) (log s) d (calls s)).

(** [log.Printf] *)
Definition log_Printf (line : string) : M unit := λ s,
  Done (tt, MkState (heap s) (clients s) (broadcast s) (log s ++ [line])
              (db s) (calls s)).

Definition record_call (c : Call) : M unit := λ s,
  Done (tt, MkState (heap s) (clients s) (broadcast s) (log s) (db s)
              (calls s ++ [c])).

(** Reading and writing through a [*Client]. *)
Definition deref (a : addr) : M Client := λ s,
  match heap s !! a with
  | Some c => Done (c, s)
  | None => Panic "invalid memory address or nil pointer dereference"
  end.

Definition store (a : addr) (c : Client) : M unit :=
  s ← get; set_heap (<[a := c]> (heap s)).

(** The state a call leaves behind, when it returns. *)
Definition exec {A} (m : M A) (s : State) : option State :=
  match m s with
  | Done (_, s') => Some s'
  | Panic _ => None
  end.

(** ** What the Go standard library contributes

    [encoding/json] and [time] are not part of the repository: their
    functions are taken as given. *)
Class GoRuntime := {
  json_Marshal : any → Bytes + error;
  Format_RFC3339 : Z → string
}.

Section Server.
Context {rt : GoRuntime}.

(** ** [client.go] *)

(** [NewClient]: a fresh [Client] with an open send channel of 256 slots. *)
Definition NewClient (userID username : string) : M addr :=
  s ← get;
  let a := fresh (dom (heap s)) in
  store a (MkClient (make_chan 256) userID username false);;
  mret a.

(** [Client.Close]: [closeOnce.Do] runs its body on the first call only. *)
Definition Client_Close (a : addr) : M unit :=
  c ← deref a;
  if closeOnce c then mret tt
  else
    log_Printf ("Closing send channel for client: " +:+ UserID c);;
    match chan_close (send c) with
    | Some ch => store a (MkClient ch (UserID c) (Username c) true)
    | None => panic "close of closed channel"
    end.

(** ** [hub.go] *)

(** [case client := <-h.register], up to and including the close of the
    connection it replaces. *)
Definition Run_register_supersede (a : addr) : M unit :=
  client ← deref a;
  log_Printf ("Register request for: " +:+ Username client +:+ " ("
              +:+ UserID client +:+ ")");;
  s ← get;
  match clients s !! UserID client with
  | Some oldClient =>
      log_Printf ("Replacing existing client for: " +:+ UserID client);;
      Client_Close oldClient
  | None => mret tt
  end.

(** [h.clients[client.UserID] = client] and the rest of the case. *)
Definition Run_register_publish (a : addr) : M unit :=
  client ← deref a;
  s ← get;
  set_clients (<[UserID client := a]> (clients s));;
  log_Printf ("Client connected: " +:+ Username client +:+ " ("
              +:+ UserID client +:+ ")").

Definition Run_register (a : addr) : M unit :=
  Run_register_supersede a;; Run_register_publish a.

(** [case client := <-h.unregister] *)
Definition Run_unregister (a : addr) : M unit :=
  client ← deref a;
  log_Printf ("Unregister request for: " +:+ Username client +:+ " ("
              +:+ UserID client +:+ ")");;
  s ← get;
  match clients s !! UserID client with
  | Some existingClient =>
      if bool_decide (existingClient = a) then
        log_Printf ("Removing active client: " +:+ UserID client);;
        set_clients (delete (UserID client) (clients s));;
        Client_Close a;;
        log_Printf ("Client disconnected: " +:+ Username client +:+ " ("
                    +:+ UserID client +:+ ")")
      else
        log_Printf ("Skipping unregister - client already replaced: "
                    +:+ UserID client)
  | None =>
      log_Printf ("Skipping unregister - client already replaced: "
                  +:+ UserID client)
  end.

(** The body of [case message := <-h.broadcast]. *)
Definition Run_broadcast (message : OutgoingMessage) : M unit :=
  s ← get;
  match clients s !! RecipientID message with
  | Some a =>
      client ← deref a;
      match chan_try_send (send client) (Data message) with
      | Sent ch =>
          store a (MkClient ch (UserID client) (Username client)
                     (closeOnce client))
      | Default =>
          log_Printf ("Failed to send message to " +:+ RecipientID message
                      +:+ ": buffer full")
      | SendOnClosed => panic "send on closed channel"
      end
  | None => mret tt
  end.

(** [Hub.Run] receiving from [h.broadcast]: takes the oldest pending
    message, if there is one. *)
Definition Run_receive_broadcast : M unit :=
  s ← get;
  match buf (broadcast s) with
  | message :: rest =>
      set_broadcast (MkChan rest (cap (broadcast s)) (closed (broadcast s)));;
      Run_broadcast message
  | [] => mret tt
  end.

(** What reaches [Hub.Run] on its three channels. *)
Inductive Command : Type :=
  | Register (client : addr)
  | Unregister (client : addr)
  | Broadcast.

Definition Run_step (cmd : Command) : M unit :=
  match cmd with
  | Register a => Run_register a
  | Unregister a => Run_unregister a
  | Broadcast => Run_receive_broadcast
  end.

Fixpoint Run (cmds : list Command) : M unit :=
  match cmds with
  | [] => mret tt
  | cmd :: rest => Run_step cmd;; Run rest
  end.

(** [h.broadcast <- m]: when the channel is full the sender waits for
    [Hub.Run] to receive, which is the only step that makes room. *)
Definition broadcast_send (m : OutgoingMessage) : M unit :=
  s ← get;
  (if bool_decide (length (buf (broadcast s)) < cap (broadcast s))
   then mret tt
   else Run_receive_broadcast);;
  s ← get;
  set_broadcast (MkChan (buf (broadcast s) ++ [m]) (cap (broadcast s))
                   (closed (broadcast s))).

(** [Hub.SendToUser] *)
Definition SendToUser (userID : string) (message : any) : M (option error) :=
  record_call (CallSendToUser userID message);;
  match json_Marshal message with
  | inr err => mret (Some err)
  | inl data =>
      broadcast_send (MkOutgoingMessage userID data);;
      mret None
  end.

(** [Handler] of [handler.go], from the answers of [auth.ValidateToken]
    and of the upgrade on: a rejected request allocates nothing, an
    accepted one creates its client and hands it to [Hub.Run]. *)
Definition Handler (claims : option (string * string))
    (upgrade : option error) : M (option addr) :=
  match claims, upgrade with
  | None, _ => mret None
  | Some _, Some err =>
      log_Printf ("WebSocket upgrade error: " +:+ err);; mret None
  | Some (userID, username), None =>
      client ← NewClient userID username;
      Run_register client;;
      mret (Some client)
  end.

(** [Hub.IsUserOnline] *)
Definition IsUserOnline (userID : string) : M bool :=
  s ← get; mret (bool_decide (is_Some (clients s !! userID))).

(** ** [db/conversations.go] and [db/messages.go] *)

(** One round trip to the server: consumes the next fault. *)
Definition db_roundtrip : M (option string) :=
  s ← get;
  let d := db s in
  set_db (MkDatabase (users d) (conversations d) (conversation_participants d)
            (messages d) (S (tick d)) (fault d) (gen_random_uuid d) (NOW d));;
  mret (fault d (tick d)).

(** [IsUserInConversation] *)
Definition IsUserInConversation_query (d : Database)
    (userID conversationID : string) : list ParticipantRow :=
  filter (λ cp, cp_user_id cp = userID
                ∧ cp_conversation_id cp = conversationID)
         (conversation_participants d).

Definition IsUserInConversation (userID conversationID : string)
    : M (bool * option error) :=
  failure ← db_roundtrip;
  s ← get;
  let r :=
    match failure with
    | Some e => (false, Some ("failed to check participation: " +:+ e))
    | None =>
        match IsUserInConversation_query (db s) userID conversationID with
        | [] => (false, None)
        | _ :: _ => (true, None)
        end
    end in
  record_call (CallIsUserInConversation userID conversationID r.1 r.2);;
  mret r.

(** [GetUserConversations]: the four-way join, one row per other
    participant, newest conversation first. *)
Definition newest_first (r1 r2 : ConversationWithParticipants) : Prop :=
  (CreatedAt r2 ≤ CreatedAt r1)%Z.

#[global] Instance newest_first_dec r1 r2 : Decision (newest_first r1 r2) :=
  Z_le_dec (CreatedAt r2) (CreatedAt r1).

Definition GetUserConversations_query (d : Database) (userID : string)
    : list ConversationWithParticipants :=
  merge_sort newest_first
    (c ← conversations d;
     cp1 ← filter (λ cp, c_id c = cp_conversation_id cp
                         ∧ cp_user_id cp = userID)
                  (conversation_participants d);
     cp2 ← filter (λ cp, c_id c = cp_conversation_id cp
                         ∧ cp_user_id cp ≠ userID)
                  (conversation_participants d);
     u ← filter (λ u, cp_user_id cp2 = u_id u) (users d);
     [MkConversationWithParticipants (c_id c) (c_created_at c)
        (u_id u) (u_username u)]).

Definition GetUserConversations (userID : string)
    : M (list ConversationWithParticipants * option error) :=
  failure ← db_roundtrip;
  s ← get;
  let r :=
    match failure with
    | Some e => ([], Some ("failed to query conversations: " +:+ e))
    | None => (GetUserConversations_query (db s) userID, None)
    end in
  record_call (CallGetUserConversations userID r.1 r.2);;
  mret r.

(** [CreateMessage]: the insert is refused when a foreign key or the
    primary key is violated. *)
Definition CreateMessage_insert (d : Database)
    (conversationID senderID content : string) : Message + string :=
  let m := MkMessage (gen_random_uuid d (tick d)) conversationID senderID ""
             content (NOW d (tick d)) in
  if bool_decide (conversationID ∈ c_id <$> conversations d) then
    if bool_decide (senderID ∈ u_id <$> users d) then
      if bool_decide (msg_ID m ∈ msg_ID <$> messages d) then
        inr "pq: duplicate key value violates unique constraint"
      else inl m
    else inr "pq: insert or update on table violates foreign key constraint"
  else inr "pq: insert or update on table violates foreign key constraint".

Definition CreateMessage (conversationID senderID content : string)
    : M (option Message * option error) :=
  s0 ← get;
  failure ← db_roundtrip;
  let d := db s0 in
  let r :=
    match failure with
    | Some e => inr e
    | None => CreateMessage_insert d conversationID senderID content
    end in
  match r with
  | inl m =>
      s ← get;
      set_db (MkDatabase (users (db s)) (conversations (db s))
                (conversation_participants (db s)) (messages (db s) ++ [m])
                (tick (db s)) (fault (db s)) (gen_random_uuid (db s))
                (NOW (db s)));;
      record_call (CallCreateMessage conversationID senderID content
                     (Some m) None);;
      mret (Some m, None)
  | inr e =>
      let err := "failed to create message: " +:+ e in
      record_call (CallCreateMessage conversationID senderID content
                     None (Some err));;
      mret (None, Some err)
  end.

(** ** [client.go]: the reader loop's handlers *)

(** The [for ... range conversations] loop of
    [sendToConversationParticipants], with its [break]. *)
Fixpoint send_to_other (convs : list ConversationWithParticipants)
    (conversationID : string) (message : any) : M unit :=
  match convs with
  | [] => mret tt
  | conv :: rest =>
      if bool_decide (ID conv = conversationID) then
        SendToUser (OtherUserID conv) message;; mret tt
      else send_to_other rest conversationID message
  end.

(** [Client.sendToConversationParticipants] *)
Definition sendToConversationParticipants (c : addr)
    (conversationID : string) (message : any) : M unit :=
  self ← deref c;
  r ← GetUserConversations (UserID self);
  match r.2 with
  | Some err =>
      log_Printf ("Failed to get conversations: " +:+ err)
  | None =>
      send_to_other r.1 conversationID message;;
      SendToUser (UserID self) message;;
      mret tt
  end.

(** [Client.handleChatMessage] *)
Definition handleChatMessage (c : addr) (msg : IncomingMessage) : M unit :=
  self ← deref c;
  r ← IsUserInConversation (UserID self) (in_ConversationID msg);
  if bool_decide (is_Some r.2 ∨ r.1 = false) then
    log_Printf ("User " +:+ UserID self +:+ " not in conversation "
                +:+ in_ConversationID msg)
  else
    saved ← CreateMessage (in_ConversationID msg) (UserID self)
                          (in_Content msg);
    match saved.2, saved.1 with
    | Some err, _ => log_Printf ("Failed to save message: " +:+ err)
    | None, None =>
        panic "invalid memory address or nil pointer dereference"
    | None, Some savedMsg =>
        let chatMsg :=
          MkChatMessage "message" (msg_ID savedMsg)
            (msg_ConversationID savedMsg) (msg_SenderID savedMsg)
            (Username self) (msg_Content savedMsg)
            (Format_RFC3339 (msg_CreatedAt savedMsg)) in
        sendToConversationParticipants c (in_ConversationID msg)
          (AnyChatMessage chatMsg)
    end.

(** [Client.handleTypingMessage] *)
Definition handleTypingMessage (c : addr) (msg : IncomingMessage) : M unit :=
  self ← deref c;
  r ← IsUserInConversation (UserID self) (in_ConversationID msg);
  if bool_decide (is_Some r.2 ∨ r.1 = false) then mret tt
  else
    let typingMsg :=
      MkTypingMessage "typing" (in_ConversationID msg) (UserID self)
        (Username self) (in_IsTyping msg) in
    sendToConversationParticipants c (in_ConversationID msg)
      (AnyTypingMessage typingMsg).

(** The [switch msg.Type] of [Client.ReadPump]. *)
Definition ReadPump_frame (c : addr) (msg : IncomingMessage) : M unit :=
  if bool_decide (in_Type msg = "message") then handleChatMessage c msg
  else if bool_decide (in_Type msg = "typing") then handleTypingMessage c msg
  else log_Printf ("Unknown message type: " +:+ in_Type msg).

(** [n] calls of [Client.Close] on the same client, from whichever
    goroutine: the [sync.Once] serialises them. *)
Fixpoint Close_times (n : nat) (a : addr) : M unit :=
  match n with
  | 0 => mret tt
  | S k => Client_Close a;; Close_times k a
  end.

End Server.

(** ** Reading the state *)

(** The send channel behind a client pointer has been closed. *)
Definition is_closed (a : addr) (s : State) : Prop :=
  ∃ c, heap s !! a = Some c ∧ closed (send c) = true.

(** A client pointer is live for a user: it points to a client of that
    user whose send channel is open. *)
Definition is_live (uid : string) (a : addr) (s : State) : Prop :=
  ∃ c, heap s !! a = Some c ∧ closed (send c) = false ∧ UserID c = uid.

(** Pending frames of a client. *)
Definition outbound (a : addr) (s : State) : list Bytes :=
  match heap s !! a with
  | Some c => buf (send c)
  | None => []
  end.

(** A client's channel is closed only through [Client.Close]: it is
    closed exactly when the [sync.Once] has fired. *)
Definition heap_wf (s : State) : Prop :=
  ∀ a c, heap s !! a = Some c → closed (send c) = closeOnce c.

(** The state after the body of [closeOnce.Do] ran for client [a]. *)
Definition closed_state (a : addr) (c : Client) (s : State) : State :=
  MkState
    (<[a := MkClient (MkChan (buf (send c)) (cap (send c)) true)
              (UserID c) (Username c) true]> (heap s))
    (clients s) (broadcast s)
    (log s ++ ["Closing send channel for client: " +:+ UserID c])
    (db s) (calls s).

(** Every pointer in the registry points to an allocated client. *)
Definition registry_wf (s : State) : Prop :=
  heap_wf s ∧ ∀ uid a, clients s !! uid = Some a → is_Some (heap s !! a).

(** One state extends another: every client is still there, under the same
    identity, and no closed channel has been reopened. *)
Definition extends (s s' : State) : Prop :=
  ∀ b cb, heap s !! b = Some cb →
    ∃ cb', heap s' !! b = Some cb' ∧ UserID cb' = UserID cb
           ∧ (closed (send cb) = true → closed (send cb') = true).

(** Two states that differ in the log only. *)
Definition same_but_log (s1 s2 : State) : Prop :=
  heap s1 = heap s2 ∧ clients s1 = clients s2 ∧ broadcast s1 = broadcast s2
  ∧ db s1 = db s2 ∧ calls s1 = calls s2.

(** Two runs that end alike, up to the log. *)
Definition outcome_same {A} (o1 o2 : outcome (A * State)) : Prop :=
  match o1, o2 with
  | Done (x1, s1), Done (x2, s2) => x1 = x2 ∧ same_but_log s1 s2
  | Panic _, Panic _ => True
  | _, _ => False
  end.

(** The state with one more line in the log. *)
Definition logged (line : string) (s : State) : State :=
  MkState (heap s) (clients s) (broadcast s) (log s ++ [line]) (db s)
          (calls s).

(** The state with another broadcast queue. *)
Definition with_pending (q : list OutgoingMessage) (s : State) : State :=
  MkState (heap s) (clients s)
          (MkChan q (cap (broadcast s)) (closed (broadcast s)))
          (log s) (db s) (calls s).

(** What [SendToUser] returns for a value, according to the encoder. *)
Definition marshal_error `{GoRuntime} (v : any) : option error :=
  match json_Marshal v with
  | inl _ => None
  | inr e => Some e
  end.

(** The database after one more round trip. *)
Definition db_ticked (d : Database) : Database :=
  MkDatabase (users d) (conversations d) (conversation_participants d)
    (messages d) (S (tick d)) (fault d) (gen_random_uuid d) (NOW d).

(** The database with one more row in [messages]. *)
Definition db_inserted (m : Message) (d : Database) : Database :=
  MkDatabase (users d) (conversations d) (conversation_participants d)
    (messages d ++ [m]) (tick d) (fault d) (gen_random_uuid d) (NOW d).

(** What [IsUserInConversation] answers on a database. *)
Definition participation (d : Database) (userID conversationID : string)
    : bool * option error :=
  match fault d (tick d) with
  | Some e => (false, Some ("failed to check participation: " +:+ e))
  | None =>
      match IsUserInConversation_query d userID conversationID with
      | [] => (false, None)
      | _ :: _ => (true, None)
      end
  end.

(** What [GetUserConversations] answers on a database. *)
Definition listing (d : Database) (userID : string)
    : list ConversationWithParticipants * option error :=
  match fault d (tick d) with
  | Some e => ([], Some ("failed to query conversations: " +:+ e))
  | None => (GetUserConversations_query d userID, None)
  end.

(** The recipient the loop of [sendToConversationParticipants] picks. *)
Fixpoint first_other (convs : list ConversationWithParticipants)
    (conversationID : string) : list string :=
  match convs with
  | [] => []
  | conv :: rest =>
      if bool_decide (ID conv = conversationID) then [OtherUserID conv]
      else first_other rest conversationID
  end.

(** The recipients of one call of [sendToConversationParticipants]. *)
Definition fan_out (d : Database) (userID conversationID : string)
    : list string :=
  match (listing d userID).2 with
  | Some _ => []
  | None => first_other (listing d userID).1 conversationID ++ [userID]
  end.

(** The frame [handleChatMessage] builds from the saved row. *)
Definition chat_frame `{GoRuntime} (self : Client) (m : Message) : any :=
  AnyChatMessage
    (MkChatMessage "message" (msg_ID m) (msg_ConversationID m)
       (msg_SenderID m) (Username self) (msg_Content m)
       (Format_RFC3339 (msg_CreatedAt m))).

(** The frame [handleTypingMessage] builds. *)
Definition typing_frame (self : Client) (msg : IncomingMessage) : any :=
  AnyTypingMessage
    (MkTypingMessage "typing" (in_ConversationID msg) (UserID self)
       (Username self) (in_IsTyping msg)).

(** The invariant of the hub: every registered client is allocated, has
    an open send channel, and is filed under its own user id. *)
Definition hub_ok (s : State) : Prop :=
  heap_wf s ∧ ∀ uid a, clients s !! uid = Some a → is_live uid a s.

(** The two invariants as checks that can be run on a given state. *)
Definition is_live_b (uid : string) (a : addr) (s : State) : bool :=
  match heap s !! a with
  | Some c => negb (closed (send c)) && bool_decide (UserID c = uid)
  | None => false
  end.

Definition heap_wf_b (s : State) : bool :=
  bool_decide (map_Forall (λ _ c, closed (send c) = closeOnce c) (heap s)).

Definition hub_ok_b (s : State) : bool :=
  heap_wf_b s
  && bool_decide (map_Forall (λ uid a, is_live_b uid a s = true) (clients s)).

#[global] Instance ParticipantRow_eq_dec : EqDecision ParticipantRow.
Proof. solve_decision. Defined.

(** Recipients of the [SendToUser] calls in a call history, in order. *)
Definition dispatched (cs : list Call) : list string :=
  omap (λ c, match c with CallSendToUser u _ => Some u | _ => None end) cs.

(** The [SendToUser] calls in a call history, with the value sent. *)
Definition dispatches (cs : list Call) : list (string * any) :=
  omap (λ c, match c with CallSendToUser u v => Some (u, v) | _ => None end)
       cs.

(** Successful [CreateMessage] calls in a call history. *)
Definition persisted (cs : list Call) : list Message :=
  omap (λ c, match c with
             | CallCreateMessage _ _ _ (Some m) None => Some m
             | _ => None end) cs.

(** Number of [CreateMessage] calls in a call history. *)
Definition persist_calls (cs : list Call) : nat :=
  length (omap (λ c, match c with
                     | CallCreateMessage _ _ _ _ _ => Some c
                     | _ => None end) cs).

(** Members of a conversation, as the participants table has them. *)
Definition participants_of (d : Database) (conversationID : string)
    : list string :=
  cp_user_id <$>
    filter (λ cp, cp_conversation_id cp = conversationID)
           (conversation_participants d).

(** The constraints of the schema: primary keys and foreign keys. *)
Record db_wf (d : Database) : Prop := {
  users_pk : NoDup (u_id <$> users d);
  conversations_pk : NoDup (c_id <$> conversations d);
  participants_pk : NoDup (conversation_participants d);
  participants_fk_conversation :
    ∀ cp, cp ∈ conversation_participants d →
          cp_conversation_id cp ∈ c_id <$> conversations d;
  participants_fk_user :
    ∀ cp, cp ∈ conversation_participants d →
          cp_user_id cp ∈ u_id <$> users d
}.

(** ** Scenarios used to run the model *)

Module Scenario.

(** A stand-in for [encoding/json] and [time]: frames are reduced to the
    bytes of their conversation id, other values are refused. *)
Definition runtime : GoRuntime := {|
  json_Marshal v :=
    match v with
    | AnyChatMessage m =>
        inl (String.list_byte_of_string (chat_ConversationID m))
    | AnyTypingMessage m =>
        inl (String.list_byte_of_string (typing_ConversationID m))
    | AnyOther d => inr ("json: unsupported type: " +:+ d)
    end;
  Format_RFC3339 t := "2024-01-01T00:00:00Z"
|}.

(** Three users; [d1] is a 1:1 conversation of alice and bob, [g1] has
    all three as participants. *)
Definition database : Database := {|
  users := [MkUserRow "alice" "Alice"; MkUserRow "bob" "Bob";
            MkUserRow "carol" "Carol"];
  conversations := [MkConversationRow "d1" 10; MkConversationRow "g1" 20];
  conversation_participants :=
    [MkParticipantRow "d1" "alice"; MkParticipantRow "d1" "bob";
     MkParticipantRow "g1" "alice"; MkParticipantRow "g1" "bob";
     MkParticipantRow "g1" "carol"];
  messages := [];
  tick := 0;
  fault := λ _, None;
  gen_random_uuid := λ n, "m" +:+ pretty n;
  NOW := λ n, Z.of_nat n
|}.

(** The same database with a server that fails every round trip. *)
Definition database_down : Database := {|
  users := users database;
  conversations := conversations database;
  conversation_participants := conversation_participants database;
  messages := [];
  tick := 0;
  fault := λ _, Some "connection refused";
  gen_random_uuid := gen_random_uuid database;
  NOW := NOW database
|}.

(** alice (client 0), bob (client 1) and carol (client 2) connected. *)
Definition connect (userID username : string) : M unit :=
  a ← NewClient userID username; Run_register a.

Definition online (d : Database) : option State :=
  exec (connect "alice" "Alice";; connect "bob" "Bob";;
        connect "carol" "Carol") (NewHub d).

Definition chat (conversationID content : string) : IncomingMessage :=
  MkIncomingMessage "message" conversationID content false.

Definition typing (conversationID : string) : IncomingMessage :=
  MkIncomingMessage "typing" conversationID "" true.

Definition session (userID username : string) : Client :=
  MkClient (make_chan 256) userID username false.

(** The state [online database] reaches. *)
Definition lobby : State :=
  MkState {[ 0 := session "alice" "Alice"; 1 := session "bob" "Bob";
             2 := session "carol" "Carol" ]}
          {[ "alice" := 0; "bob" := 1; "carol" := 2 ]}
          (make_chan 256)
          ["Register request for: Alice (alice)";
           "Client connected: Alice (alice)";
           "Register request for: Bob (bob)";
           "Client connected: Bob (bob)";
           "Register request for: Carol (carol)";
           "Client connected: Carol (carol)"]
          database [].

(** alice has connected twice; neither session is registered yet. *)
Definition two_sessions : State :=
  MkState {[ 0 := session "alice" "Alice"; 1 := session "alice" "Alice" ]}
          ∅ (make_chan 256) [] database [].

(** alice's first session (client 0) was replaced by her second. *)
Definition superseded : State :=
  MkState {[ 0 := MkClient (MkChan [] 256 true) "alice" "Alice" true;
             1 := session "alice" "Alice" ]}
          {[ "alice" := 1 ]} (make_chan 256) [] database [].

(** alice's send channel has [n] slots, [k] of them taken, and the hub
    has [pending] to hand out. *)
Definition slots (n k : nat) (pending : list OutgoingMessage) : State :=
  MkState {[ 0 := MkClient (MkChan (replicate k []) n false)
                    "alice" "Alice" false;
             1 := session "bob" "Bob" ]}
          {[ "alice" := 0; "bob" := 1 ]}
          (MkChan pending 256 false) [] database [].

(** The same with all of alice's slots taken. *)
Definition congested (n : nat) (pending : list OutgoingMessage) : State :=
  slots n n pending.

End Scenario.

(** ** [client.go]: the writer loop, the reader loop, and the transport *)

(** [x, ok := <-ch]: the oldest buffered value; on an empty channel the
    zero value with [ok = false] once the channel is closed, and nothing
    yet (the receiver waits) while it is open. *)
Definition chan_recv {A} (ch : Chan A) : option (option A * Chan A) :=
  match buf ch with
  | x :: rest => Some (Some x, MkChan rest (cap ch) (closed ch))
  | [] => if closed ch then Some (None, ch) else None
  end.

(** The receive on [c.send] in [WritePump]'s [select]. *)
Definition Client_recv (c : addr) : M (option (option Bytes)) :=
  self ← deref c;
  match chan_recv (send self) with
  | None => mret None
  | Some (x, ch) =>
      store c (MkClient ch (UserID self) (Username self) (closeOnce self));;
      mret (Some x)
  end.

(** What [conn.WriteMessage] is given. *)
Inductive Frame : Type :=
  | TextMessage (data : Bytes)
  | CloseMessage (data : Bytes)
  | PingMessage.

(** The transport handle [*websocket.Conn], seen from the writer: what has
    been written, whether [Close] was called, and [write_fault n], the
    error of the [n]-th write if it fails (a missed deadline included). *)
Record Conn := MkConn {
  written : list Frame;
  writes : nat;
  conn_closed : bool;
  write_fault : nat → option error
}.

(** [conn.WriteMessage] *)
Definition conn_WriteMessage (conn : Conn) (f : Frame) : Conn * option error :=
  if conn_closed conn then (conn, Some "use of closed network connection")
  else
    match write_fault conn (writes conn) with
    | Some e =>
        (MkConn (written conn) (S (writes conn)) false (write_fault conn),
         Some e)
    | None =>
        (MkConn (written conn ++ [f]) (S (writes conn)) false
           (write_fault conn),
         None)
    end.

(** [conn.Close] *)
Definition conn_Close (conn : Conn) : Conn :=
  MkConn (written conn) (writes conn) true (write_fault conn).

(** Which case of [WritePump]'s [select] is taken. *)
Inductive Ready : Type :=
  | SendReady
  | TickerReady.

(** One turn of the [for] loop of [WritePump]; the boolean tells whether
    the function returns. *)
Definition WritePump_case (c : addr) (r : Ready) (conn : Conn)
    : M (bool * Conn) :=
  match r with
  | SendReady =>
      got ← Client_recv c;
      match got with
      | None => mret (false, conn)
      | Some None =>
          mret (true, (conn_WriteMessage conn (CloseMessage [])).1)
      | Some (Some message) =>
          let w := conn_WriteMessage conn (TextMessage message) in
          mret (bool_decide (is_Some w.2), w.1)
      end
  | TickerReady =>
      let w := conn_WriteMessage conn PingMessage in
      mret (bool_decide (is_Some w.2), w.1)
  end.

(** [Client.WritePump] over the cases its [select] takes; when the loop
    is left, the deferred [c.conn.Close()] runs. The boolean tells whether
    the function has returned. *)
Fixpoint WritePump (c : addr) (rs : list Ready) (conn : Conn)
    : M (bool * Conn) :=
  match rs with
  | [] => mret (false, conn)
  | r :: rest =>
      '(returned, conn') ← WritePump_case c r conn;
      if returned : bool then mret (true, conn_Close conn')
      else WritePump c rest conn'
  end.

#[global] Instance Ready_eq_dec : EqDecision Ready.
Proof. solve_decision. Defined.

(** How often the send channel was the ready case. *)
Definition sends (rs : list Ready) : nat :=
  length (filter (λ r, r = SendReady) rs).

(** The payloads of the text frames among the frames written. *)
Definition texts (fs : list Frame) : list Bytes :=
  omap (λ f, match f with TextMessage data => Some data | _ => None end) fs.

(** What [conn.ReadMessage] returns to [ReadPump]: a payload, or an error
    together with the answer of [websocket.IsUnexpectedCloseError]. *)
Inductive ReadResult : Type :=
  | ReadData (data : Bytes)
  | ReadFailed (err : error) (unexpected : bool).

(** Whether [ReadMessage] fails among these results. *)
Definition read_failed (inputs : list ReadResult) : bool :=
  existsb (λ input, match input with
                    | ReadFailed _ _ => true
                    | ReadData _ => false
                    end) inputs.

Section Pumps.
Context {rt : GoRuntime}.

(** [json.Unmarshal] into an [IncomingMessage], taken as given. *)
Variable json_Unmarshal : Bytes → IncomingMessage + error.

(** The [for] loop of [Client.ReadPump] over the results of
    [ReadMessage]; [true] when the loop was left by [break]. *)
Fixpoint ReadPump_loop (c : addr) (inputs : list ReadResult) : M bool :=
  match inputs with
  | [] => mret false
  | ReadFailed err unexpected :: _ =>
      (if unexpected then log_Printf ("WebSocket error: " +:+ err)
       else mret tt);;
      mret true
  | ReadData data :: rest =>
      match json_Unmarshal data with
      | inr err =>
          log_Printf ("Invalid message format: " +:+ err);;
          ReadPump_loop c rest
      | inl msg => ReadPump_frame c msg;; ReadPump_loop c rest
      end
  end.

(** [Client.ReadPump]: the loop, then the deferred [c.hub.unregister <- c]
    (taken by [Hub.Run] at once) and [c.conn.Close()]. *)
Definition ReadPump (c : addr) (inputs : list ReadResult) (conn : Conn)
    : M (bool * Conn) :=
  broke ← ReadPump_loop c inputs;
  if broke : bool then Run_unregister c;; mret (true, conn_Close conn)
  else mret (false, conn).

(** ** The process as a whole *)

(** One atomic step of the process: a connection request handled, a
    session unregistered by its reader, a message taken by the hub, a frame
    handled by a reader, a frame taken by a writer. *)
Inductive step : State → State → Prop :=
  | step_accept s claims upgrade r s' :
      Handler claims upgrade s = Done (r, s') → step s s'
  | step_unregister s a s' :
      Run_unregister a s = Done (tt, s') → step s s'
  | step_deliver s s' :
      Run_receive_broadcast s = Done (tt, s') → step s s'
  | step_frame s a msg s' :
      ReadPump_frame a msg s = Done (tt, s') → step s s'
  | step_write s a x s' :
      Client_recv a s = Done (x, s') → step s s'.

(** The states the process reaches from a fresh hub. *)
Definition reachable (d : Database) (s : State) : Prop :=
  rtc step (NewHub d) s.

End Pumps.

(** No send buffer holds more than its capacity. *)
Definition bounded (s : State) : Prop :=
  ∀ a c, heap s !! a = Some c → length (buf (send c)) ≤ cap (send c).

(** What a step may do to the clients that exist: they stay, under the
    same identity and with the same capacity, and one whose channel is
    closed stays closed and is given nothing more. *)
Definition frozen (s s' : State) : Prop :=
  ∀ b cb, heap s !! b = Some cb →
    ∃ cb', heap s' !! b = Some cb'
           ∧ UserID cb' = UserID cb ∧ Username cb' = Username cb
           ∧ cap (send cb') = cap (send cb)
           ∧ (closed (send cb) = true →
                closed (send cb') = true
                ∧ buf (send cb') `suffix_of` buf (send cb)).

(** What any call may do to the heap: existing clients evolve as in
    [frozen], buffers stay within capacity, and a client that is new has a
    send channel of 256 slots. *)
Definition grows (s s' : State) : Prop :=
  frozen s s'
  ∧ (bounded s → bounded s')
  ∧ (∀ b cb', heap s' !! b = Some cb' → heap s !! b = None →
       cap (send cb') = 256).

(** A call lets the heap grow, whenever it returns. *)
Definition keeps {A} (m : M A) : Prop :=
  ∀ s x s', m s = Done (x, s') → grows s s'.

(** ** [db/messages.go] and [db/conversations.go]: the other queries *)

Definition oldest_first (m1 m2 : Message) : Prop :=
  (msg_CreatedAt m1 ≤ msg_CreatedAt m2)%Z.

#[global] Instance oldest_first_dec m1 m2 : Decision (oldest_first m1 m2) :=
  Z_le_dec (msg_CreatedAt m1) (msg_CreatedAt m2).

(** The rows [GetConversationMessages] scans: the messages of the
    conversation joined with their sender, oldest first, [limit] at most. *)
Definition GetConversationMessages_query (d : Database)
    (conversationID : string) (limit : nat) : list Message :=
  take limit
    (merge_sort oldest_first
       (m ← filter (λ m, msg_ConversationID m = conversationID) (messages d);
        u ← filter (λ u, msg_SenderID m = u_id u) (users d);
        [MkMessage (msg_ID m) (msg_ConversationID m) (msg_SenderID m)
           (u_username u) (msg_Content m) (msg_CreatedAt m)])).

(** [GetConversationMessages]; the server refuses a negative [LIMIT]. *)
Definition GetConversationMessages (conversationID : string) (limit : Z)
    : M (list Message * option error) :=
  failure ← db_roundtrip;
  s ← get;
  mret match failure with
       | Some e => ([], Some ("failed to query messages: " +:+ e))
       | None =>
           if bool_decide (limit < 0)%Z then
             ([], Some ("failed to query messages: "
                        +:+ "pq: LIMIT must not be negative"))
           else
             (GetConversationMessages_query (db s) conversationID
                (Z.to_nat limit), None)
       end.

(** [models.Conversation] *)
Record Conversation := MkConversation {
  conv_ID : string;
  conv_CreatedAt : Z
}.

(** The tables of [old] with the clock and the faults of [current]: what
    a rollback leaves. *)
Definition db_restored (old current : Database) : Database :=
  MkDatabase (users old) (conversations old) (conversation_participants old)
    (messages old) (tick current) (fault current) (gen_random_uuid current)
    (NOW current).

(** The lookup of [GetOrCreateConversation]: conversations in which both
    users take part. *)
Definition GetOrCreateConversation_query (d : Database)
    (userID1 userID2 : string) : list ConversationRow :=
  c ← conversations d;
  cp1 ← filter (λ cp, c_id c = cp_conversation_id cp
                      ∧ cp_user_id cp = userID1)
               (conversation_participants d);
  cp2 ← filter (λ cp, c_id c = cp_conversation_id cp
                      ∧ cp_user_id cp = userID2)
               (conversation_participants d);
  [c].

(** [INSERT INTO conversations DEFAULT VALUES RETURNING id, created_at] *)
Definition insert_conversation (d : Database)
    : (ConversationRow * Database) + string :=
  let c := MkConversationRow (gen_random_uuid d (tick d)) (NOW d (tick d)) in
  if bool_decide (c_id c ∈ c_id <$> conversations d) then
    inr "pq: duplicate key value violates unique constraint"
  else
    inl (c, MkDatabase (users d) (conversations d ++ [c])
              (conversation_participants d) (messages d) (tick d) (fault d)
              (gen_random_uuid d) (NOW d)).

(** [INSERT INTO conversation_participants ... VALUES ...]: every row must
    name an existing conversation and an existing user, and no key may
    occur twice. *)
Definition insert_participants (d : Database) (rows : list ParticipantRow)
    : Database + string :=
  if bool_decide (Forall (λ cp, cp_conversation_id cp
                                  ∈ c_id <$> conversations d
                                ∧ cp_user_id cp ∈ u_id <$> users d) rows)
  then
    if bool_decide (NoDup rows
                    ∧ Forall (λ cp, cp ∉ conversation_participants d) rows)
    then
      inl (MkDatabase (users d) (conversations d)
             (conversation_participants d ++ rows) (messages d) (tick d)
             (fault d) (gen_random_uuid d) (NOW d))
    else inr "pq: duplicate key value violates unique constraint"
  else inr "pq: insert or update on table violates foreign key constraint".

(** The deferred [tx.Rollback()] of a transaction that was not committed. *)
Definition tx_Rollback (snapshot : Database) : M unit :=
  db_roundtrip;;
  s ← get;
  set_db (db_restored snapshot (db s)).

(** [GetOrCreateConversation] *)
Definition GetOrCreateConversation (userID1 userID2 : string)
    : M (option Conversation * option error) :=
  failure ← db_roundtrip;
  s ← get;
  match failure with
  | Some e => mret (None, Some ("failed to find conversation: " +:+ e))
  | None =>
      match GetOrCreateConversation_query (db s) userID1 userID2 with
      | c :: _ => mret (Some (MkConversation (c_id c) (c_created_at c)), None)
      | [] =>
          began ← db_roundtrip;
          match began with
          | Some e =>
              mret (None, Some ("failed to begin transaction: " +:+ e))
          | None =>
              snapshot ← get;
              inserted ← db_roundtrip;
              s1 ← get;
              match match inserted with
                    | Some e => inr e
                    | None => insert_conversation (db s1)
                    end with
              | inr e =>
                  tx_Rollback (db snapshot);;
                  mret (None,
                        Some ("failed to create conversation: " +:+ e))
              | inl (conv, d1) =>
                  set_db d1;;
                  added ← db_roundtrip;
                  s2 ← get;
                  match match added with
                        | Some e => inr e
                        | None =>
                            insert_participants (db s2)
                              [MkParticipantRow (c_id conv) userID1;
                               MkParticipantRow (c_id conv) userID2]
                        end with
                  | inr e =>
                      tx_Rollback (db snapshot);;
                      mret (None,
                            Some ("failed to add participants: " +:+ e))
                  | inl d2 =>
                      set_db d2;;
                      committed ← db_roundtrip;
                      match committed with
                      | Some e =>
                          s3 ← get;
                          set_db (db_restored (db snapshot) (db s3));;
                          mret (None,
                                Some ("failed to commit transaction: "
                                      +:+ e))
                      | None =>
                          mret (Some (MkConversation (c_id conv)
                                        (c_created_at conv)), None)
                      end
                  end
              end
          end
      end
  end.

(** Two databases with the same rows. *)
Definition same_tables (d d' : Database) : Prop :=
  users d' = users d ∧ conversations d' = conversations d
  ∧ conversation_participants d' = conversation_participants d
  ∧ messages d' = messages d.

(** ** [api/middleware.go] and [api/conversation_handlers.go] *)

(** [auth.Claims], without the registered claims of the library. *)
Record Claims := MkClaims {
  claims_UserID : string;
  claims_Username : string;
  claims_IsAdmin : bool
}.

(** What the handlers read of an [http.Request]: the [Authorization]
    header (empty when absent), the path, the body, and the claims stored
    in its context under [UserContextKey]. *)
Record Request := MkRequest {
  Header_Authorization : string;
  URL_Path : string;
  Body : Bytes;
  Context_user : option Claims
}.

(** [r.WithContext(context.WithValue(r.Context(), UserContextKey, claims))] *)
Definition WithContext_user (r : Request) (claims : Claims) : Request :=
  MkRequest (Header_Authorization r) (URL_Path r) (Body r) (Some claims).

(** What is written to a response: the object with the one field [error]
    that the handlers pass to [http.Error], or an encoded value (a
    pointer to a conversation may be nil). *)
Inductive Payload : Type :=
  | ErrorJSON (message : string)
  | ConversationJSON (c : option Conversation)
  | ConversationsJSON (l : list ConversationWithParticipants)
  | MessagesJSON (l : list Message).

(** [http.ResponseWriter]: the content type in the header map, the status
    once the header is written, and the writes. *)
Record ResponseWriter := MkResponseWriter {
  ContentType : option string;
  StatusCode : option nat;
  Written : list Payload
}.

Definition Header_Set_ContentType (v : string) (w : ResponseWriter)
    : ResponseWriter :=
  MkResponseWriter (Some v) (StatusCode w) (Written w).

(** [w.WriteHeader]: the first status written is the one that counts. *)
Definition WriteHeader (code : nat) (w : ResponseWriter) : ResponseWriter :=
  match StatusCode w with
  | Some _ => w
  | None => MkResponseWriter (ContentType w) (Some code) (Written w)
  end.

(** [w.Write], as [json.NewEncoder(w).Encode] calls it: writes the header
    with status 200 if none was written. *)
Definition Write (p : Payload) (w : ResponseWriter) : ResponseWriter :=
  let w' := WriteHeader 200 w in
  MkResponseWriter (ContentType w') (StatusCode w') (Written w' ++ [p]).

(** [http.Error] *)
Definition http_Error (message : string) (code : nat) (w : ResponseWriter)
    : ResponseWriter :=
  Write (ErrorJSON message)
    (WriteHeader code
       (Header_Set_ContentType "text/plain; charset=utf-8" w)).

Abbreviation HandlerFunc := (ResponseWriter → Request → M ResponseWriter)
  (only parsing).

(** [strings.Split] for a separator of one character, as both calls of
    the handlers have it. *)
Fixpoint strings_Split (s : string) (sep : Ascii.ascii) : list string :=
  match s with
  | EmptyString => [EmptyString]
  | String a s' =>
      if decide (a = sep) then EmptyString :: strings_Split s' sep
      else match strings_Split s' sep with
           | p :: ps => String a p :: ps
           | [] => [String a EmptyString]
           end
  end.

(** [GetUserFromContext] *)
Definition GetUserFromContext (r : Request) : option Claims :=
  Context_user r.

(** [CreateConversationRequest] of the 1:1 handler *)
Record CreateConversationRequest := MkCreateConversationRequest {
  req_OtherUserID : string
}.

Section Web.

(** The JWT library and the JSON decoder are parameters. *)
Variable jwt_ParseWithClaims : string → (Claims * bool) + error.
Variable json_Decode : Bytes → CreateConversationRequest + error.

(** [auth.ValidateToken] *)
Definition ValidateToken (tokenString : string) : Claims + error :=
  match jwt_ParseWithClaims tokenString with
  | inr err => inr ("invalid token: " +:+ err)
  | inl (claims, valid) =>
      if valid : bool then inl claims else inr "token is not valid"
  end.

(** [AuthMiddleware] *)
Definition AuthMiddleware (next : HandlerFunc) : HandlerFunc := λ w r,
  let w := Header_Set_ContentType "application/json" w in
  let authHeader := Header_Authorization r in
  if bool_decide (authHeader = EmptyString) then
    mret (http_Error "Authorization header required" 401 w)
  else
    let parts := strings_Split authHeader " "%char in
    if bool_decide (length parts ≠ 2 ∨ parts !! 0 ≠ Some "Bearer") then
      mret (http_Error "Invalid authorization format. Use: Bearer <token>"
              401 w)
    else
      let tokenString := default EmptyString (parts !! 1) in
      match ValidateToken tokenString with
      | inr _ => mret (http_Error "Invalid or expired token" 401 w)
      | inl claims => next w (WithContext_user r claims)
      end.

(** [AdminMiddleware] *)
Definition AdminMiddleware (next : HandlerFunc) : HandlerFunc := λ w r,
  let w := Header_Set_ContentType "application/json" w in
  match Context_user r with
  | None => mret (http_Error "User not authenticated" 401 w)
  | Some claims =>
      if negb (claims_IsAdmin claims) then
        mret (http_Error "Admin access required" 403 w)
      else next w r
  end.

(** [CreateConversationHandler], between the current user and one other
    user. *)
Definition CreateConversationHandler : HandlerFunc := λ w r,
  let w := Header_Set_ContentType "application/json" w in
  match GetUserFromContext r with
  | None => mret (http_Error "User not authenticated" 401 w)
  | Some user =>
      match json_Decode (Body r) with
      | inr _ => mret (http_Error "Invalid JSON" 400 w)
      | inl req =>
          if bool_decide (req_OtherUserID req = EmptyString) then
            mret (http_Error "other_user_id required" 400 w)
          else
            '(conversation, err) ←
              GetOrCreateConversation (claims_UserID user)
                (req_OtherUserID req);
            match err with
            | Some _ =>
                mret (http_Error "Failed to create conversation" 500 w)
            | None => mret (Write (ConversationJSON conversation) w)
            end
      end
  end.

End Web.

(** [GetConversationsHandler] *)
Definition GetConversationsHandler : HandlerFunc := λ w r,
  let w := Header_Set_ContentType "application/json" w in
  match GetUserFromContext r with
  | None => mret (http_Error "User not authenticated" 401 w)
  | Some user =>
      '(conversations, err) ← GetUserConversations (claims_UserID user);
      match err with
      | Some _ => mret (http_Error "Failed to get conversations" 500 w)
      | None => mret (Write (ConversationsJSON conversations) w)
      end
  end.

(** [GetMessagesHandler] *)
Definition GetMessagesHandler : HandlerFunc := λ w r,
  let w := Header_Set_ContentType "application/json" w in
  match GetUserFromContext r with
  | None => mret (http_Error "User not authenticated" 401 w)
  | Some user =>
      let parts := strings_Split (URL_Path r) "/"%char in
      if bool_decide (length parts < 5) then
        mret (http_Error "Invalid URL" 400 w)
      else
        let conversationID := default EmptyString (parts !! 3) in
        '(isParticipant, err) ←
          IsUserInConversation (claims_UserID user) conversationID;
        match err with
        | Some _ => mret (http_Error "Database error" 500 w)
        | None =>
            if negb isParticipant then
              mret (http_Error "Not authorized" 403 w)
            else
              '(messages, err) ←
                GetConversationMessages conversationID 100;
              match err with
              | Some _ => mret (http_Error "Failed to get messages" 500 w)
              | None => mret (Write (MessagesJSON messages) w)
              end
        end
  end.

(** ** More concrete cases: connections, requests, databases *)

Module Cases.

(** A connection on which every write succeeds, and one on which every
    write fails. *)
Definition wire : Conn := MkConn [] 0 false (λ _, None).

Definition broken_wire : Conn :=
  MkConn [] 0 false (λ _, Some "write: broken pipe").

(** A stand-in for [json.Unmarshal]: the empty payload is refused, every
    other one decodes to a frame of a type the server does not know. *)
Definition decode (data : Bytes) : IncomingMessage + error :=
  match data with
  | [] => inr "unexpected end of JSON input"
  | _ :: _ => inl (MkIncomingMessage "presence" "" "" false)
  end.

(** alice's session has been closed with two frames still queued. *)
Definition leaving : State :=
  MkState {[ 0 := MkClient (MkChan [[Byte.x01]; [Byte.x02]] 256 true)
                    "alice" "Alice" true ]}
          ∅ (make_chan 256) [] Scenario.database [].

(** The database of the scenario with a fourth user, dave, who takes part
    in no conversation yet, and one stored message. *)
Definition directory : Database := {|
  users := users Scenario.database ++ [MkUserRow "dave" "Dave"];
  conversations := conversations Scenario.database;
  conversation_participants := conversation_participants Scenario.database;
  messages := [MkMessage "m0" "d1" "bob" "" "hello" 0];
  tick := 1;
  fault := λ _, None;
  gen_random_uuid := gen_random_uuid Scenario.database;
  NOW := NOW Scenario.database
|}.

(** The same, with a server that fails the fifth round trip from now:
    the commit of [GetOrCreateConversation]. *)
Definition directory_commit_fails : Database := {|
  users := users directory;
  conversations := conversations directory;
  conversation_participants := conversation_participants directory;
  messages := messages directory;
  tick := 1;
  fault := λ n, if decide (n = 5) then Some "driver: bad connection"
                else None;
  gen_random_uuid := gen_random_uuid directory;
  NOW := NOW directory
|}.

(** A stand-in for the JWT library: two tokens are known. *)
Definition alice : Claims := MkClaims "alice" "Alice" false.

Definition root : Claims := MkClaims "root" "Root" true.

Definition tokens (tokenString : string) : (Claims * bool) + error :=
  if decide (tokenString = "t-alice") then inl (alice, true)
  else if decide (tokenString = "t-root") then inl (root, true)
  else inr "token is malformed".

(** A stand-in for the decoder of request bodies: the body is the id of
    the other user. *)
Definition body_decoder (body : Bytes) : CreateConversationRequest + error :=
  inl (MkCreateConversationRequest (String.string_of_list_byte body)).

Definition request (authorization path : string) (body : string)
    (user : option Claims) : Request :=
  MkRequest authorization path (String.list_byte_of_string body) user.

Definition fresh_writer : ResponseWriter := MkResponseWriter None None [].

End Cases.

(** * Properties *)

Section Properties.
Context {rt : GoRuntime}.

(** Unfolds the plumbing of the process monad. *)
Ltac run :=
  unfold mbind, mret, M_bind, M_ret, get, panic, set_heap, set_clients,
    set_broadcast, set_db, log_Printf, record_call, deref, store in *;
  simpl in *.

(** ** Closing a client *)

Lemma Client_Close_first s a c :
  heap s !! a = Some c → closeOnce c = false → closed (send c) = false →
  Client_Close a s = Done (tt, closed_state a c s).
Proof.
  intros Ha Honce Hopen. unfold Client_Close, chan_close. run.
  rewrite Ha. simpl. rewrite Honce, Hopen. reflexivity.
Qed.

Lemma Client_Close_again s a c :
  heap s !! a = Some c → closeOnce c = true →
  Client_Close a s = Done (tt, s).
Proof.
  intros Ha Honce. unfold Client_Close. run. rewrite Ha. simpl.
  rewrite Honce. reflexivity.
Qed.

Lemma heap_wf_closed_state s a c :
  heap_wf s → heap_wf (closed_state a c s).
Proof.
  intros Hwf b cb. unfold closed_state. simpl.
  destruct (decide (a = b)) as [->|Hne].
  - rewrite lookup_insert_eq. by intros [= <-].
  - rewrite lookup_insert_ne by done. apply Hwf.
Qed.

Lemma is_closed_closed_state s a c b :
  is_closed b s ∨ b = a → is_closed b (closed_state a c s).
Proof.
  unfold is_closed, closed_state. simpl.
  destruct (decide (a = b)) as [->|Hne].
  - intros _. rewrite lookup_insert_eq. eauto.
  - rewrite lookup_insert_ne by done. intros [H|H]; [done|congruence].
Qed.

(** Under [heap_wf], [Client.Close] returns, leaves the channel closed and
    keeps [heap_wf]; it touches only the closed client and the log. *)
Lemma Client_Close_spec s a c :
  heap_wf s → heap s !! a = Some c →
  ∃ s', Client_Close a s = Done (tt, s')
        ∧ s' = (if closeOnce c then s else closed_state a c s)
        ∧ heap_wf s' ∧ is_closed a s'.
Proof.
  intros Hwf Ha. pose proof (Hwf a c Ha) as Hc.
  destruct (closeOnce c) eqn:Honce.
  - exists s. split; [by eapply Client_Close_again|].
    split; [done|]. split; [done|]. by exists c.
  - exists (closed_state a c s).
    split; [by apply Client_Close_first|].
    split; [done|]. split; [by apply heap_wf_closed_state|].
    apply is_closed_closed_state. by right.
Qed.

Lemma Close_times_fixed n s a c :
  heap s !! a = Some c → closeOnce c = true →
  Close_times n a s = Done (tt, s).
Proof.
  intros Ha Honce. induction n as [|n IH]; [done|].
  simpl. unfold mbind, M_bind. by rewrite (Client_Close_again s a c), IH.
Qed.

(** C8. Any number of [Close] calls on a session, whoever issues them, has
    the effect of the first: the call returns without panic, the send
    channel has been closed, [close(c.send)] ran exactly once (one line in
    the log) for a session that was still open, and not at all for one
    that was already closed. *)
Theorem Close_idempotent (s : State) (a : addr) (c : Client) (n : nat) :
  heap_wf s → heap s !! a = Some c →
  ∃ s', Close_times (S n) a s = Done (tt, s')
        ∧ Client_Close a s = Done (tt, s')
        ∧ Client_Close a s' = Done (tt, s')
        ∧ is_closed a s'
        ∧ outbound a s' = outbound a s
        ∧ log s' = log s ++
            (if closeOnce c then []
             else ["Closing send channel for client: " +:+ UserID c]).
Proof.
  intros Hwf Ha.
  destruct (Client_Close_spec s a c Hwf Ha) as (s' & Hrun & Hs' & Hwf' & Hcl).
  exists s'. simpl. unfold mbind, M_bind. rewrite Hrun.
  assert (∃ c', heap s' !! a = Some c' ∧ closeOnce c' = true
                ∧ buf (send c') = buf (send c)) as (c' & Ha' & Honce' & Hbuf).
  { destruct (closeOnce c) eqn:Honce; subst s'.
    - by exists c.
    - eexists. unfold closed_state. simpl. rewrite lookup_insert_eq. done. }
  split; [by eapply Close_times_fixed|].
  split; [done|]. split; [by eapply Client_Close_again|]. split; [done|].
  split.
  - unfold outbound. by rewrite Ha, Ha'.
  - destruct (closeOnce c); subst s'; simpl; [by rewrite app_nil_r|done].
Qed.

(** ** The registry *)

Lemma heap_wf_heap s s' : heap s' = heap s → heap_wf s → heap_wf s'.
Proof. unfold heap_wf. intros ->. done. Qed.

Lemma is_closed_heap a s s' : heap s' = heap s → is_closed a s → is_closed a s'.
Proof. unfold is_closed. intros ->. done. Qed.

(** Closing [a] leaves every other client as it was. *)
Lemma Client_Close_frame s a c s' :
  heap_wf s → heap s !! a = Some c → Client_Close a s = Done (tt, s') →
  clients s' = clients s ∧ broadcast s' = broadcast s ∧ db s' = db s
  ∧ calls s' = calls s
  ∧ (∀ b, b ≠ a → heap s' !! b = heap s !! b)
  ∧ (∃ c', heap s' !! a = Some c' ∧ UserID c' = UserID c
           ∧ Username c' = Username c ∧ buf (send c') = buf (send c)
           ∧ closed (send c') = true).
Proof.
  intros Hwf Ha Hrun.
  destruct (Client_Close_spec s a c Hwf Ha) as (s1 & Hrun1 & Hs1 & _ & _).
  rewrite Hrun in Hrun1. injection Hrun1 as <-.
  pose proof (Hwf a c Ha) as Hc.
  destruct (closeOnce c); subst s'.
  - repeat split; try done. exists c. by rewrite Hc.
  - unfold closed_state. simpl. repeat split; try done.
    + intros b Hb. by rewrite lookup_insert_ne.
    + eexists. rewrite lookup_insert_eq. done.
Qed.

(** [Unregister]: what [Hub.Run] does with it, in both cases. *)
Lemma Run_unregister_spec s a c :
  heap_wf s → heap s !! a = Some c →
  ∃ s', Run_unregister a s = Done (tt, s') ∧ heap_wf s'
        ∧ broadcast s' = broadcast s ∧ db s' = db s ∧ calls s' = calls s
        ∧ (∀ b, b ≠ a → heap s' !! b = heap s !! b)
        ∧ if bool_decide (clients s !! UserID c = Some a)
          then clients s' = delete (UserID c) (clients s) ∧ is_closed a s'
          else clients s' = clients s ∧ heap s' = heap s.
Proof.
  intros Hwf Ha. unfold Run_unregister. run. rewrite Ha. simpl.
  case_bool_decide as Hmapped.
  - rewrite Hmapped. simpl. rewrite bool_decide_eq_true_2 by done.
    match goal with |- context [Client_Close a ?s0] =>
      destruct (Client_Close_spec s0 a c) as (s1 & Hrun & Hs1 & Hwf1 & Hcl1);
        [by eapply heap_wf_heap; [|exact Hwf]|done|];
      destruct (Client_Close_frame s0 a c s1)
        as (Hc1 & Hb1 & Hd1 & Hk1 & Hh1 & _);
        [by eapply heap_wf_heap; [|exact Hwf]|done|done|]
    end.
    rewrite Hrun. simpl in *. eexists. split; [reflexivity|]. simpl.
    by split_and!.
  - destruct (clients s !! UserID c) as [b|] eqn:Hb.
    + rewrite bool_decide_eq_false_2 by congruence.
      eexists. split; [reflexivity|]. by simpl.
    + eexists. split; [reflexivity|]. by simpl.
Qed.

(** C4. A stale unregister is a no-op: when identity [u] is mapped to
    session [B], unregistering another session [A] returns, leaves [u]
    mapped to [B] and leaves [B] untouched (not closed, same pending
    frames). The entry of the unregistered session's identity is removed,
    and the session closed, exactly when that session is the mapped one;
    otherwise the whole map and every session stay as they were. *)
Theorem stale_unregister_noop (s : State) (u : string) (A B : addr)
    (cA : Client) :
  heap_wf s → heap s !! A = Some cA → clients s !! u = Some B → A ≠ B →
  ∃ s', Run_unregister A s = Done (tt, s')
        ∧ clients s' !! u = Some B
        ∧ heap s' !! B = heap s !! B
        ∧ (clients s !! UserID cA = Some A →
             clients s' !! UserID cA = None ∧ is_closed A s')
        ∧ (clients s !! UserID cA ≠ Some A →
             clients s' = clients s ∧ heap s' = heap s).
Proof.
  intros Hwf HA HB Hne.
  destruct (Run_unregister_spec s A cA Hwf HA)
    as (s' & Hrun & _ & _ & _ & _ & Hframe & Hcase).
  exists s'. split; [done|].
  case_bool_decide as Hmapped.
  - destruct Hcase as [Hcl Hclosed].
    assert (UserID cA ≠ u) by congruence.
    split_and!; [by rewrite Hcl, lookup_delete_ne|by apply Hframe| |done].
    intros _. split; [|done]. rewrite Hcl. apply lookup_delete_eq.
  - destruct Hcase as [Hcl Hheap]. rewrite Hcl, Hheap. by split_and!.
Qed.

Lemma extends_refl s : extends s s.
Proof. intros b cb Hb. by exists cb. Qed.

Lemma extends_trans s1 s2 s3 : extends s1 s2 → extends s2 s3 → extends s1 s3.
Proof.
  intros H12 H23 b cb Hb.
  destruct (H12 b cb Hb) as (cb2 & Hb2 & Hu2 & Hc2).
  destruct (H23 b cb2 Hb2) as (cb3 & Hb3 & Hu3 & Hc3).
  exists cb3. split_and!; [done|congruence|auto].
Qed.

Lemma extends_heap s s' : heap s' = heap s → extends s s'.
Proof. intros Hh b cb Hb. exists cb. by rewrite Hh. Qed.

Lemma extends_closed s s' b : extends s s' → is_closed b s → is_closed b s'.
Proof.
  intros Hext (cb & Hb & Hc). destruct (Hext b cb Hb) as (cb' & Hb' & _ & Hc').
  exists cb'. auto.
Qed.

Lemma Client_Close_extends s a c s' :
  heap_wf s → heap s !! a = Some c → Client_Close a s = Done (tt, s') →
  extends s s'.
Proof.
  intros Hwf Ha Hrun.
  destruct (Client_Close_frame s a c s' Hwf Ha Hrun)
    as (_ & _ & _ & _ & Hothers & c' & Ha' & Hu & _ & _ & Hc').
  intros b cb Hb. destruct (decide (b = a)) as [->|Hne].
  - exists c'. split_and!; [done|congruence|done].
  - exists cb. by rewrite Hothers.
Qed.

(** The first half of [Register]: the connection it replaces, if any,
    ends up closed, and the map is as it was. *)
Lemma Run_register_supersede_spec s a c :
  registry_wf s → heap s !! a = Some c →
  ∃ s', Run_register_supersede a s = Done (tt, s')
        ∧ registry_wf s' ∧ extends s s'
        ∧ clients s' = clients s ∧ broadcast s' = broadcast s
        ∧ db s' = db s ∧ calls s' = calls s
        ∧ (∀ old, clients s !! UserID c = Some old → is_closed old s')
        ∧ (∀ b, clients s !! UserID c ≠ Some b → heap s' !! b = heap s !! b).
Proof.
  intros [Hwf Halloc] Ha. unfold Run_register_supersede. run.
  rewrite Ha. simpl.
  destruct (clients s !! UserID c) as [old|] eqn:Hold; simpl.
  - destruct (Halloc _ _ Hold) as [co Hco].
    match goal with |- context [Client_Close old ?s0] =>
      assert (heap_wf s0) as Hwf0 by (by eapply heap_wf_heap; [|exact Hwf]);
      destruct (Client_Close_spec s0 old co Hwf0 Hco)
        as (s1 & Hrun & _ & Hwf1 & Hcl1);
      destruct (Client_Close_frame s0 old co s1 Hwf0 Hco Hrun)
        as (Hc1 & Hb1 & Hd1 & Hk1 & Hh1 & _);
      pose proof (Client_Close_extends s0 old co s1 Hwf0 Hco Hrun) as Hext
    end.
    exists s1. simpl in *. split_and!; try done.
    + split; [done|]. intros uid b Hb. rewrite Hc1 in Hb.
      destruct (Halloc _ _ Hb) as [cb Hcb].
      destruct (Hext b cb Hcb) as (cb' & Hcb' & _). by exists cb'.
    + by intros ? [= <-].
    + intros b Hb. apply Hh1. congruence.
  - eexists. split; [reflexivity|]. simpl. split_and!; try done.
    by apply extends_heap.
Qed.

(** The second half of [Register]: the new pointer is stored in the map. *)
Lemma Run_register_publish_spec s a c :
  heap s !! a = Some c →
  ∃ s', Run_register_publish a s = Done (tt, s')
        ∧ heap s' = heap s
        ∧ clients s' = <[UserID c := a]> (clients s)
        ∧ broadcast s' = broadcast s ∧ db s' = db s ∧ calls s' = calls s.
Proof.
  intros Ha. unfold Run_register_publish. run. rewrite Ha. simpl.
  eexists. split; [reflexivity|]. by simpl.
Qed.

Lemma Run_register_spec s a c :
  registry_wf s → heap s !! a = Some c →
  ∃ s1 s2, Run_register_supersede a s = Done (tt, s1)
           ∧ Run_register_publish a s1 = Done (tt, s2)
           ∧ Run_register a s = Done (tt, s2)
           ∧ registry_wf s2 ∧ extends s s2
           ∧ clients s1 = clients s
           ∧ clients s2 = <[UserID c := a]> (clients s)
           ∧ (∀ old, clients s !! UserID c = Some old → is_closed old s1)
           ∧ heap s2 = heap s1.
Proof.
  intros Hreg Ha.
  destruct (Run_register_supersede_spec s a c Hreg Ha)
    as (s1 & Hrun1 & [Hwf1 Halloc1] & Hext1 & Hc1 & _ & _ & _ & Hold & _).
  destruct (Hext1 a c Ha) as (c1 & Ha1 & Hu1 & _).
  destruct (Run_register_publish_spec s1 a c1 Ha1)
    as (s2 & Hrun2 & Hh2 & Hc2 & _).
  exists s1, s2. split_and!; try done.
  - unfold Run_register, mbind, M_bind. by rewrite Hrun1.
  - split; [by eapply heap_wf_heap|].
    intros uid b. rewrite Hc2, Hh2. intros Hb.
    apply lookup_insert_Some in Hb as [[_ <-]|[_ Hb]]; [by exists c1|eauto].
  - eapply extends_trans; [done|]. by apply extends_heap.
  - by rewrite Hc2, Hu1, Hc1.
Qed.

Lemma Run_app cmds1 cmds2 s :
  Run (cmds1 ++ cmds2) s = (Run cmds1;; Run cmds2) s.
Proof.
  revert s. induction cmds1 as [|cmd cmds1 IH]; intros s; [done|].
  simpl. unfold mbind, M_bind in *.
  destruct (Run_step cmd s) as [[[] s']|]; [apply IH|done].
Qed.

(** Registering a list of sessions of one identity [u], in order. *)
Lemma registers_spec u l : ∀ s,
  registry_wf s →
  (∀ b, b ∈ l → ∃ c, heap s !! b = Some c ∧ UserID c = u) →
  ∃ s', Run (Register <$> l) s = Done (tt, s')
        ∧ registry_wf s' ∧ extends s s'
        ∧ (∀ b, b ∈ l → is_closed b s' ∨ clients s' !! u = Some b)
        ∧ (∀ old, clients s !! u = Some old →
             is_closed old s' ∨ clients s' !! u = Some old)
        ∧ (∀ u', u' ≠ u → clients s' !! u' = clients s !! u').
Proof.
  induction l as [|a l IH] using rev_ind; intros s Hreg Hl.
  - exists s. split_and!; try done; [apply extends_refl|set_solver|auto].
  - destruct (IH s Hreg) as (s1 & Hrun1 & Hreg1 & Hext1 & Hl1 & Hold1 & Hoth1).
    { intros b Hb. apply Hl. set_solver. }
    destruct (Hl a) as (c & Ha & Hu); [set_solver|].
    destruct (Hext1 a c Ha) as (c1 & Ha1 & Hu1 & _).
    destruct (Run_register_spec s1 a c1 Hreg1 Ha1)
      as (s2 & s3 & _ & _ & Hrun3 & Hreg3 & Hext3 & Hc2 & Hc3 & Hsup & Hh3).
    assert (UserID c1 = u) as Hu1' by congruence. rewrite Hu1' in *.
    assert (∀ b, clients s1 !! u = Some b → is_closed b s3) as Hsup3.
    { intros b Hb. eapply is_closed_heap; [done|]. by apply Hsup. }
    exists s3. split_and!.
    + rewrite fmap_app, Run_app. unfold mbind, M_bind. rewrite Hrun1.
      simpl. unfold mbind, M_bind. by rewrite Hrun3.
    + done.
    + by eapply extends_trans.
    + intros b Hb. apply elem_of_app in Hb as [Hb|Hb].
      * left. destruct (Hl1 b Hb) as [Hcl|Hm]; [by eapply extends_closed|auto].
      * apply list_elem_of_singleton in Hb as ->. right.
        rewrite Hc3. apply lookup_insert_eq.
    + intros old Hold. left.
      destruct (Hold1 old Hold) as [Hcl|Hm]; [by eapply extends_closed|auto].
    + intros u' Hu'. rewrite Hc3, lookup_insert_ne by done. by apply Hoth1.
Qed.

(** C1. Single session per identity, with supersede ordering: after any
    sequence [pre] of Register operations for identity [u], one more
    Register of session [a] first closes the session mapped for [u] while
    the map is still unchanged, and only then stores [a]; afterwards [u]
    is mapped to [a], every session registered earlier in the sequence and
    the session mapped at the start have been closed, and the other
    identities are mapped as before. *)
Theorem single_session (s : State) (u : string) (pre : list addr) (a : addr) :
  registry_wf s →
  (∀ b, b ∈ pre ++ [a] → ∃ c, heap s !! b = Some c ∧ UserID c = u) →
  ∃ s1 s2 s3,
    Run (Register <$> pre) s = Done (tt, s1)
    ∧ Run_register_supersede a s1 = Done (tt, s2)
    ∧ Run_register_publish a s2 = Done (tt, s3)
    ∧ Run (Register <$> (pre ++ [a])) s = Done (tt, s3)
    ∧ clients s2 = clients s1
    ∧ (∀ old, clients s1 !! u = Some old → is_closed old s2)
    ∧ clients s3 !! u = Some a
    ∧ (∀ b, b ∈ pre → is_closed b s3)
    ∧ (∀ old, clients s !! u = Some old → is_closed old s3)
    ∧ (∀ u', u' ≠ u → clients s3 !! u' = clients s !! u').
Proof.
  intros Hreg Hl.
  destruct (registers_spec u pre s Hreg)
    as (s1 & Hrun1 & Hreg1 & Hext1 & Hl1 & Hold1 & Hoth1).
  { intros b Hb. apply Hl. set_solver. }
  destruct (Hl a) as (c & Ha & Hu); [set_solver|].
  destruct (Hext1 a c Ha) as (c1 & Ha1 & Hu1 & _).
  destruct (Run_register_spec s1 a c1 Hreg1 Ha1)
    as (s2 & s3 & Hrun2 & Hrun3 & Hrun & Hreg3 & Hext3 & Hc2 & Hc3 & Hsup & Hh3).
  assert (UserID c1 = u) as Hu1' by congruence. rewrite Hu1' in *.
  assert (∀ b, clients s1 !! u = Some b → is_closed b s3) as Hsup3.
  { intros b Hb. eapply is_closed_heap; [done|]. by apply Hsup. }
  exists s1, s2, s3. split_and!; try done.
  - rewrite fmap_app, Run_app. unfold mbind, M_bind. rewrite Hrun1.
    simpl. unfold mbind, M_bind. by rewrite Hrun.
  - rewrite Hc3. apply lookup_insert_eq.
  - intros b Hb.
    destruct (Hl1 b Hb) as [Hcl|Hm]; [by eapply extends_closed|auto].
  - intros old Hold.
    destruct (Hold1 old Hold) as [Hcl|Hm]; [by eapply extends_closed|auto].
  - intros u' Hu'. rewrite Hc3, lookup_insert_ne by done. by apply Hoth1.
Qed.

(** ** Dispatch *)

Lemma hub_ok_registry_wf s : hub_ok s → registry_wf s.
Proof.
  intros [Hwf Hopen]. split; [done|]. intros uid a Ha.
  destruct (Hopen uid a Ha) as (c & Hc & _). by exists c.
Qed.

Lemma hub_ok_heap s s' :
  heap s' = heap s → clients s' = clients s → hub_ok s → hub_ok s'.
Proof.
  unfold hub_ok, heap_wf, is_live. intros -> ->. done.
Qed.

(** The hub hands a message to its recipient: three cases. *)
Lemma Run_broadcast_offline s m :
  clients s !! RecipientID m = None → Run_broadcast m s = Done (tt, s).
Proof. intros Hm. unfold Run_broadcast. run. by rewrite Hm. Qed.

Lemma Run_broadcast_full s m a c :
  clients s !! RecipientID m = Some a → heap s !! a = Some c →
  closed (send c) = false → cap (send c) ≤ length (buf (send c)) →
  Run_broadcast m s
  = Done (tt, logged ("Failed to send message to " +:+ RecipientID m
                      +:+ ": buffer full") s).
Proof.
  intros Hm Ha Hopen Hfull. unfold Run_broadcast, chan_try_send. run.
  rewrite Hm. simpl. rewrite Ha. simpl. rewrite Hopen.
  rewrite bool_decide_eq_false_2 by lia. reflexivity.
Qed.

Lemma Run_broadcast_room s m a c :
  clients s !! RecipientID m = Some a → heap s !! a = Some c →
  closed (send c) = false → length (buf (send c)) < cap (send c) →
  Run_broadcast m s
  = Done (tt, MkState
                (<[a := MkClient
                          (MkChan (buf (send c) ++ [Data m]) (cap (send c))
                             false)
                          (UserID c) (Username c) (closeOnce c)]> (heap s))
                (clients s) (broadcast s) (log s) (db s) (calls s)).
Proof.
  intros Hm Ha Hopen Hroom. unfold Run_broadcast, chan_try_send. run.
  rewrite Hm. simpl. rewrite Ha. simpl. rewrite Hopen.
  rewrite bool_decide_eq_true_2 by lia. reflexivity.
Qed.

Lemma Run_broadcast_spec s m :
  hub_ok s →
  ∃ s', Run_broadcast m s = Done (tt, s') ∧ hub_ok s'
        ∧ clients s' = clients s ∧ broadcast s' = broadcast s
        ∧ db s' = db s ∧ calls s' = calls s.
Proof.
  intros Hok. pose proof Hok as [Hwf Hopen].
  destruct (clients s !! RecipientID m) as [a|] eqn:Hm.
  - destruct (Hopen _ _ Hm) as (c & Ha & Hc & Hu).
    destruct (decide (length (buf (send c)) < cap (send c))) as [Hroom|Hfull].
    + rewrite (Run_broadcast_room s m a c) by done.
      eexists. split; [reflexivity|]. simpl. split_and!; try done.
      split.
      * intros b cb. simpl. intros Hb.
        apply lookup_insert_Some in Hb as [[_ <-]|[_ Hb]]; simpl;
          [by rewrite <- (Hwf a c Ha)|exact (Hwf b cb Hb)].
      * intros uid b Hb. unfold is_live. simpl.
        destruct (decide (a = b)) as [->|Hne].
        -- rewrite lookup_insert_eq. eexists. split; [done|]. simpl.
           destruct (Hopen _ _ Hb) as (c' & Ha' & _ & Hu'). by simplify_eq.
        -- rewrite lookup_insert_ne by done. by eapply Hopen.
    + rewrite (Run_broadcast_full s m a c) by (done || lia).
      eexists. split; [reflexivity|]. simpl. split_and!; try done.
  - rewrite Run_broadcast_offline by done. by exists s.
Qed.

Lemma Run_receive_broadcast_spec s :
  hub_ok s →
  ∃ s', Run_receive_broadcast s = Done (tt, s') ∧ hub_ok s'
        ∧ clients s' = clients s ∧ db s' = db s ∧ calls s' = calls s
        ∧ cap (broadcast s') = cap (broadcast s)
        ∧ buf (broadcast s') = tail (buf (broadcast s)).
Proof.
  intros Hok. unfold Run_receive_broadcast. run.
  destruct (buf (broadcast s)) as [|m rest] eqn:Hq.
  - exists s. by rewrite Hq.
  - simpl.
    match goal with |- context [Run_broadcast m ?s0] =>
      destruct (Run_broadcast_spec s0 m)
        as (s' & Hrun & Hok' & Hc & Hb & Hd & Hk);
        [by eapply hub_ok_heap; [| |exact Hok]|]
    end.
    rewrite Hrun. exists s'. simpl in *. rewrite Hb. by split_and!.
Qed.

Lemma broadcast_send_spec s m :
  hub_ok s →
  ∃ s', broadcast_send m s = Done (tt, s') ∧ hub_ok s'
        ∧ clients s' = clients s ∧ db s' = db s ∧ calls s' = calls s.
Proof.
  intros Hok. unfold broadcast_send. run.
  case_bool_decide as Hroom; simpl.
  - eexists. split; [reflexivity|]. simpl. split_and!; try done.
    all: by eapply hub_ok_heap; [| |exact Hok].
  - destruct (Run_receive_broadcast_spec s Hok)
      as (s1 & Hrun & Hok1 & Hc1 & Hd1 & Hk1 & _).
    rewrite Hrun. simpl. eexists. split; [reflexivity|]. simpl.
    split_and!; try done. all: by eapply hub_ok_heap; [| |exact Hok1].
Qed.

Lemma SendToUser_spec s u v :
  hub_ok s →
  ∃ s', SendToUser u v s = Done (marshal_error v, s') ∧ hub_ok s'
        ∧ clients s' = clients s ∧ db s' = db s
        ∧ calls s' = calls s ++ [CallSendToUser u v].
Proof.
  intros Hok. unfold SendToUser, marshal_error. run.
  destruct (json_Marshal v) as [data|e]; simpl.
  - match goal with |- context [broadcast_send ?m ?s0] =>
      destruct (broadcast_send_spec s0 m)
        as (s' & Hrun & Hok' & Hc & Hd & Hk);
        [by eapply hub_ok_heap; [| |exact Hok]|]
    end.
    rewrite Hrun. by exists s'.
  - eexists. split; [reflexivity|]. simpl. split_and!; try done.
    all: by eapply hub_ok_heap; [| |exact Hok].
Qed.

(** C10. The value [SendToUser] returns is the encoder's verdict and
    nothing else: in every state of the hub (recipient offline or online,
    its buffer full or not) the call returns, with the serialization error
    when [json.Marshal] fails and with [nil] when it succeeds. *)
Theorem SendToUser_returns_marshal_error (s : State) (u : string) (v : any) :
  hub_ok s →
  ∃ r s', SendToUser u v s = Done (r, s')
          ∧ (is_Some r ↔ ∃ e, json_Marshal v = inr e)
          ∧ (r = None ↔ ∃ data, json_Marshal v = inl data)
          ∧ r = marshal_error v.
Proof.
  intros Hok. destruct (SendToUser_spec s u v Hok) as (s' & Hrun & _).
  exists (marshal_error v), s'. split; [done|].
  unfold marshal_error. destruct (json_Marshal v) as [data|e].
  - split; [|split; [|done]].
    + split; [by intros [? [=]]|by intros [? [=]]].
    + split; [by eauto|done].
  - split; [|split; [|done]].
    + split; [by eauto|by eauto].
    + split; [done|by intros [? [=]]].
Qed.

(** The log is write-only: no step of [Hub.Run] depends on it. *)
Lemma Client_Close_same_but_log a s1 s2 :
  same_but_log s1 s2 → outcome_same (Client_Close a s1) (Client_Close a s2).
Proof.
  destruct s1 as [h1 c1 b1 l1 d1 k1], s2 as [h2 c2 b2 l2 d2 k2].
  intros (Hh & Hc & Hb & Hd & Hk). simpl in *. subst.
  unfold Client_Close, chan_close, outcome_same, same_but_log. run.
  destruct (h2 !! a) as [c|]; simpl; [|done].
  destruct (closeOnce c); simpl; [done|].
  destruct (closed (send c)); simpl; done.
Qed.

Lemma Run_broadcast_same_but_log m s1 s2 :
  same_but_log s1 s2 → outcome_same (Run_broadcast m s1) (Run_broadcast m s2).
Proof.
  destruct s1 as [h1 c1 b1 l1 d1 k1], s2 as [h2 c2 b2 l2 d2 k2].
  intros (Hh & Hc & Hb & Hd & Hk). simpl in *. subst.
  unfold Run_broadcast, chan_try_send, outcome_same, same_but_log. run.
  destruct (c2 !! RecipientID m) as [a|]; simpl; [|done].
  destruct (h2 !! a) as [c|]; simpl; [|done].
  destruct (closed (send c)); simpl; [done|].
  case_bool_decide; simpl; done.
Qed.

(** Continues two runs that agree up to the log through a call of
    [Client.Close]. *)
Ltac close_both :=
  match goal with
  | |- outcome_same (match Client_Close ?a ?sa with _ => _ end)
                    (match Client_Close ?a ?sb with _ => _ end) =>
      let H := fresh "Hclose" in
      assert (outcome_same (Client_Close a sa) (Client_Close a sb)) as H
        by (apply Client_Close_same_but_log; by split_and!);
      unfold outcome_same in H;
      destruct (Client_Close a sa) as [[[] [? ? ? ? ? ?]]|],
               (Client_Close a sb) as [[[] [? ? ? ? ? ?]]|];
      try done;
      destruct H as (_ & ? & ? & ? & ? & ?); simpl in *; subst
  end.

Lemma Run_step_same_but_log cmd s1 s2 :
  same_but_log s1 s2 → outcome_same (Run_step cmd s1) (Run_step cmd s2).
Proof.
  destruct cmd as [a|a|]; simpl; intros Hs.
  - destruct s1 as [h1 c1 b1 l1 d1 k1], s2 as [h2 c2 b2 l2 d2 k2].
    destruct Hs as (Hh & Hc & Hb & Hd & Hk). simpl in *. subst.
    unfold Run_register, Run_register_supersede, Run_register_publish. run.
    destruct (h2 !! a) as [c|] eqn:Ha; simpl; [|done].
    destruct (c2 !! UserID c) as [old|]; simpl.
    + close_both.
      match goal with |- context [?h !! a] => destruct (h !! a) end;
        simpl; [|done].
      by split_and!.
    + rewrite Ha. simpl. by split_and!.
  - destruct s1 as [h1 c1 b1 l1 d1 k1], s2 as [h2 c2 b2 l2 d2 k2].
    destruct Hs as (Hh & Hc & Hb & Hd & Hk). simpl in *. subst.
    unfold Run_unregister. run.
    destruct (h2 !! a) as [c|]; simpl; [|done].
    destruct (c2 !! UserID c) as [old|]; simpl; [|by split_and!].
    case_bool_decide; simpl; [|by split_and!].
    close_both.
  - destruct s1 as [h1 c1 b1 l1 d1 k1], s2 as [h2 c2 b2 l2 d2 k2].
    destruct Hs as (Hh & Hc & Hb & Hd & Hk). simpl in *. subst.
    unfold Run_receive_broadcast. run.
    destruct (buf b2) as [|m rest]; simpl; [by split_and!|].
    apply Run_broadcast_same_but_log. by split_and!.
Qed.

Lemma Run_same_but_log cmds : ∀ s1 s2,
  same_but_log s1 s2 → outcome_same (Run cmds s1) (Run cmds s2).
Proof.
  induction cmds as [|cmd cmds IH]; intros s1 s2 Hs; simpl.
  - done.
  - unfold mbind, M_bind.
    pose proof (Run_step_same_but_log cmd s1 s2 Hs) as Hstep.
    unfold outcome_same in Hstep.
    destruct (Run_step cmd s1) as [[[] s1']|], (Run_step cmd s2) as [[[] s2']|];
      try done.
    apply IH. by destruct Hstep.
Qed.


(** ** Storage calls *)

Lemma IsUserInConversation_spec s u cid :
  IsUserInConversation u cid s
  = Done (participation (db s) u cid,
          MkState (heap s) (clients s) (broadcast s) (log s)
            (db_ticked (db s))
            (calls s ++ [CallIsUserInConversation u cid
                           (participation (db s) u cid).1
                           (participation (db s) u cid).2])).
Proof.
  unfold IsUserInConversation, db_roundtrip, participation. run.
  destruct (fault (db s) (tick (db s))); [done|].
  by destruct (IsUserInConversation_query _ _ _).
Qed.

Lemma GetUserConversations_spec s u :
  GetUserConversations u s
  = Done (listing (db s) u,
          MkState (heap s) (clients s) (broadcast s) (log s)
            (db_ticked (db s))
            (calls s ++ [CallGetUserConversations u (listing (db s) u).1
                           (listing (db s) u).2])).
Proof.
  unfold GetUserConversations, db_roundtrip, listing. run.
  by destruct (fault (db s) (tick (db s))).
Qed.

Lemma CreateMessage_saved s cid u content m :
  fault (db s) (tick (db s)) = None →
  CreateMessage_insert (db s) cid u content = inl m →
  CreateMessage cid u content s
  = Done ((Some m, None),
          MkState (heap s) (clients s) (broadcast s) (log s)
            (db_inserted m (db_ticked (db s)))
            (calls s ++ [CallCreateMessage cid u content (Some m) None])).
Proof.
  intros Hf Hins. unfold CreateMessage, db_roundtrip. run.
  rewrite Hf, Hins. reflexivity.
Qed.

Lemma CreateMessage_failed s cid u content :
  (is_Some (fault (db s) (tick (db s)))
   ∨ ∃ e, CreateMessage_insert (db s) cid u content = inr e) →
  ∃ err, CreateMessage cid u content s
  = Done ((None, Some err),
          MkState (heap s) (clients s) (broadcast s) (log s)
            (db_ticked (db s))
            (calls s ++ [CallCreateMessage cid u content None (Some err)])).
Proof.
  intros Hf. unfold CreateMessage, db_roundtrip. run.
  destruct (fault (db s) (tick (db s))) as [e|]; [by eexists|].
  destruct Hf as [[? [=]]|[e ->]]. by eexists.
Qed.

(** ** The fan-out *)

Lemma send_to_other_spec convs cid v : ∀ s,
  hub_ok s →
  ∃ s', send_to_other convs cid v s = Done (tt, s') ∧ hub_ok s'
        ∧ clients s' = clients s ∧ db s' = db s
        ∧ calls s' = calls s
                     ++ ((λ u, CallSendToUser u v) <$> first_other convs cid).
Proof.
  induction convs as [|conv rest IH]; intros s Hok; simpl.
  - exists s. by rewrite app_nil_r.
  - case_bool_decide; [|by apply IH].
    destruct (SendToUser_spec s (OtherUserID conv) v Hok)
      as (s' & Hrun & Hok' & Hc & Hd & Hk).
    unfold mbind, M_bind. rewrite Hrun. by exists s'.
Qed.

Lemma sendToConversationParticipants_spec s c self cid v :
  hub_ok s → heap s !! c = Some self →
  ∃ s', sendToConversationParticipants c cid v s = Done (tt, s')
        ∧ hub_ok s' ∧ clients s' = clients s
        ∧ db s' = db_ticked (db s)
        ∧ calls s' = calls s
            ++ CallGetUserConversations (UserID self)
                 (listing (db s) (UserID self)).1
                 (listing (db s) (UserID self)).2
            :: ((λ u, CallSendToUser u v)
                  <$> fan_out (db s) (UserID self) cid).
Proof.
  intros Hok Hc. unfold sendToConversationParticipants, fan_out.
  unfold mbind at 1, M_bind at 1. unfold deref. rewrite Hc.
  unfold mbind at 1, M_bind at 1. rewrite GetUserConversations_spec.
  destruct ((listing (db s) (UserID self)).2) as [err|] eqn:He;
    simpl; rewrite ?He.
  - unfold log_Printf. eexists. split; [reflexivity|]. simpl.
    split_and!; try done. all: by eapply hub_ok_heap; [| |exact Hok].
  - match goal with |- context [send_to_other ?r cid v] =>
      unfold mbind at 1, M_bind at 1;
      match goal with |- context [send_to_other r cid v ?s0] =>
        destruct (send_to_other_spec r cid v s0)
          as (s1 & Hrun1 & Hok1 & Hc1 & Hd1 & Hk1);
          [by eapply hub_ok_heap; [| |exact Hok]|]
      end
    end.
    rewrite Hrun1.
    destruct (SendToUser_spec s1 (UserID self) v Hok1)
      as (s2 & Hrun2 & Hok2 & Hc2 & Hd2 & Hk2).
    unfold mbind, M_bind. rewrite Hrun2. simpl.
    exists s2. simpl in *. split_and!; try done; try congruence.
    rewrite Hk2, Hk1, fmap_app. simpl. by rewrite <- !app_assoc.
Qed.

(** ** The participation check *)

Lemma IsUserInConversation_query_member d u cid :
  IsUserInConversation_query d u cid ≠ [] ↔ u ∈ participants_of d cid.
Proof.
  unfold IsUserInConversation_query, participants_of. split.
  - intros Hne.
    destruct (filter _ (conversation_participants d)) as [|cp l] eqn:Hf;
      [done|].
    assert (cp ∈ filter (λ cp, cp_user_id cp = u ∧ cp_conversation_id cp = cid)
                   (conversation_participants d)) as Hin
      by (rewrite Hf; set_solver).
    apply list_elem_of_filter in Hin as [[<- Hcid] Hin].
    apply list_elem_of_fmap. exists cp. split; [done|].
    by apply list_elem_of_filter.
  - intros Hin Hnil.
    apply list_elem_of_fmap in Hin as (cp & -> & Hin).
    apply list_elem_of_filter in Hin as [Hcid Hin].
    assert (cp ∈ filter (λ cp', cp_user_id cp' = cp_user_id cp
                                ∧ cp_conversation_id cp' = cid)
                   (conversation_participants d)) as Hin'
      by (by apply list_elem_of_filter).
    rewrite Hnil in Hin'. set_solver.
Qed.

(** The three answers of the participation check. *)
Lemma participation_cases d u cid :
  (participation d u cid = (true, None)
   ∧ fault d (tick d) = None ∧ u ∈ participants_of d cid)
  ∨ (participation d u cid = (false, None)
     ∧ fault d (tick d) = None ∧ u ∉ participants_of d cid)
  ∨ (∃ e, participation d u cid = (false, Some e)
          ∧ is_Some (fault d (tick d))).
Proof.
  unfold participation. destruct (fault d (tick d)) as [e|]; [by eauto|].
  destruct (IsUserInConversation_query d u cid) as [|cp l] eqn:Hq.
  - right; left. split_and!; try done.
    intros Hin. by apply IsUserInConversation_query_member in Hin.
  - left. split_and!; try done.
    apply IsUserInConversation_query_member. by rewrite Hq.
Qed.

Lemma participation_rejected d u cid :
  is_Some (fault d (tick d)) ∨ u ∉ participants_of d cid →
  is_Some (participation d u cid).2 ∨ (participation d u cid).1 = false.
Proof.
  intros Hrej.
  destruct (participation_cases d u cid)
    as [(_ & Hf & Hin)|[(-> & _)|(e & -> & _)]]; simpl; eauto.
  destruct Hrej as [[? Hsome]|Hout]; congruence.
Qed.

(** ** The two handlers *)

Lemma handleTypingMessage_rejected s c self msg :
  heap s !! c = Some self →
  is_Some (participation (db s) (UserID self) (in_ConversationID msg)).2
  ∨ (participation (db s) (UserID self) (in_ConversationID msg)).1 = false →
  handleTypingMessage c msg s
  = Done (tt, MkState (heap s) (clients s) (broadcast s) (log s)
                (db_ticked (db s))
                (calls s ++ [CallIsUserInConversation (UserID self)
                   (in_ConversationID msg)
                   (participation (db s) (UserID self)
                      (in_ConversationID msg)).1
                   (participation (db s) (UserID self)
                      (in_ConversationID msg)).2])).
Proof.
  intros Hc Hrej. unfold handleTypingMessage.
  unfold mbind at 1, M_bind at 1. unfold deref. rewrite Hc.
  unfold mbind at 1, M_bind at 1. rewrite IsUserInConversation_spec.
  by rewrite bool_decide_eq_true_2.
Qed.

Lemma handleTypingMessage_accepted s c self msg :
  hub_ok s → heap s !! c = Some self →
  participation (db s) (UserID self) (in_ConversationID msg) = (true, None) →
  ∃ s', handleTypingMessage c msg s = Done (tt, s') ∧ hub_ok s'
        ∧ clients s' = clients s
        ∧ db s' = db_ticked (db_ticked (db s))
        ∧ calls s' = calls s
            ++ CallIsUserInConversation (UserID self) (in_ConversationID msg)
                 true None
            :: CallGetUserConversations (UserID self)
                 (listing (db_ticked (db s)) (UserID self)).1
                 (listing (db_ticked (db s)) (UserID self)).2
            :: ((λ u, CallSendToUser u (typing_frame self msg))
                  <$> fan_out (db_ticked (db s)) (UserID self)
                        (in_ConversationID msg)).
Proof.
  intros Hok Hc Hchk. unfold handleTypingMessage.
  unfold mbind at 1, M_bind at 1. unfold deref. rewrite Hc.
  unfold mbind at 1, M_bind at 1. rewrite IsUserInConversation_spec.
  rewrite Hchk. simpl.
  match goal with |- context [sendToConversationParticipants c ?cid ?v ?s0] =>
    destruct (sendToConversationParticipants_spec s0 c self cid v)
      as (s' & Hrun & Hok' & Hc' & Hd' & Hk');
      [by eapply hub_ok_heap; [| |exact Hok]|done|]
  end.
  exists s'. split; [done|]. simpl in *. split_and!; try done.
  by rewrite Hk', <- app_assoc.
Qed.

Lemma handleChatMessage_rejected s c self msg :
  heap s !! c = Some self →
  is_Some (participation (db s) (UserID self) (in_ConversationID msg)).2
  ∨ (participation (db s) (UserID self) (in_ConversationID msg)).1 = false →
  handleChatMessage c msg s
  = Done (tt, MkState (heap s) (clients s) (broadcast s)
                (log s ++ ["User " +:+ UserID self +:+ " not in conversation "
                           +:+ in_ConversationID msg])
                (db_ticked (db s))
                (calls s ++ [CallIsUserInConversation (UserID self)
                   (in_ConversationID msg)
                   (participation (db s) (UserID self)
                      (in_ConversationID msg)).1
                   (participation (db s) (UserID self)
                      (in_ConversationID msg)).2])).
Proof.
  intros Hc Hrej. unfold handleChatMessage.
  unfold mbind at 1, M_bind at 1. unfold deref. rewrite Hc.
  unfold mbind at 1, M_bind at 1. rewrite IsUserInConversation_spec.
  by rewrite bool_decide_eq_true_2.
Qed.

Lemma handleChatMessage_not_saved s c self msg :
  heap s !! c = Some self →
  participation (db s) (UserID self) (in_ConversationID msg) = (true, None) →
  (is_Some (fault (db s) (S (tick (db s))))
   ∨ ∃ e, CreateMessage_insert (db_ticked (db s)) (in_ConversationID msg)
            (UserID self) (in_Content msg) = inr e) →
  ∃ err, handleChatMessage c msg s
  = Done (tt, MkState (heap s) (clients s) (broadcast s)
                (log s ++ ["Failed to save message: " +:+ err])
                (db_ticked (db_ticked (db s)))
                (calls s ++ [CallIsUserInConversation (UserID self)
                               (in_ConversationID msg) true None;
                             CallCreateMessage (in_ConversationID msg)
                               (UserID self) (in_Content msg) None
                               (Some err)])).
Proof.
  intros Hc Hchk Hfail. unfold handleChatMessage.
  unfold mbind at 1, M_bind at 1. unfold deref. rewrite Hc.
  unfold mbind at 1, M_bind at 1. rewrite IsUserInConversation_spec.
  rewrite Hchk. simpl.
  unfold mbind at 1, M_bind at 1.
  match goal with |- context [CreateMessage ?cid ?u ?content ?s0] =>
    destruct (CreateMessage_failed s0 cid u content) as [err Hrun]; [done|]
  end.
  rewrite Hrun. simpl. exists err. unfold log_Printf. simpl.
  by rewrite <- app_assoc.
Qed.

Lemma handleChatMessage_saved s c self msg m :
  hub_ok s → heap s !! c = Some self →
  participation (db s) (UserID self) (in_ConversationID msg) = (true, None) →
  fault (db s) (S (tick (db s))) = None →
  CreateMessage_insert (db_ticked (db s)) (in_ConversationID msg)
    (UserID self) (in_Content msg) = inl m →
  ∃ s', handleChatMessage c msg s = Done (tt, s') ∧ hub_ok s'
        ∧ clients s' = clients s
        ∧ db s' = db_ticked (db_inserted m (db_ticked (db_ticked (db s))))
        ∧ calls s' = calls s
            ++ CallIsUserInConversation (UserID self) (in_ConversationID msg)
                 true None
            :: CallCreateMessage (in_ConversationID msg) (UserID self)
                 (in_Content msg) (Some m) None
            :: CallGetUserConversations (UserID self)
                 (listing (db_ticked (db_ticked (db s))) (UserID self)).1
                 (listing (db_ticked (db_ticked (db s))) (UserID self)).2
            :: ((λ u, CallSendToUser u (chat_frame self m))
                  <$> fan_out (db_ticked (db_ticked (db s))) (UserID self)
                        (in_ConversationID msg)).
Proof.
  intros Hok Hc Hchk Hf Hins. unfold handleChatMessage.
  unfold mbind at 1, M_bind at 1. unfold deref. rewrite Hc.
  unfold mbind at 1, M_bind at 1. rewrite IsUserInConversation_spec.
  rewrite Hchk. simpl.
  unfold mbind at 1, M_bind at 1.
  match goal with |- context [CreateMessage ?cid ?u ?content ?s0] =>
    rewrite (CreateMessage_saved s0 cid u content m) by done
  end.
  simpl.
  match goal with |- context [sendToConversationParticipants c ?cid ?v ?s0] =>
    destruct (sendToConversationParticipants_spec s0 c self cid v)
      as (s' & Hrun & Hok' & Hc' & Hd' & Hk');
      [by eapply hub_ok_heap; [| |exact Hok]|done|]
  end.
  exists s'. split; [done|]. simpl in *. split_and!; try done.
  rewrite Hk', <- !app_assoc. simpl. reflexivity.
Qed.

(** C7. Authorization gate for chat messages: when the sender is not a
    participant of the target conversation, or the participation check
    fails, [handleChatMessage] returns after that single check: nothing is
    persisted ([CreateMessage] is not called and the messages table is
    unchanged), nothing is dispatched ([SendToUser] is not called and the
    broadcast queue is unchanged), and no frame is queued for the sender
    or anybody else (the clients and their buffers are unchanged). *)
Theorem chat_authorization_gate (s : State) (c : addr) (self : Client)
    (msg : IncomingMessage) :
  heap s !! c = Some self →
  is_Some (fault (db s) (tick (db s)))
  ∨ UserID self ∉ participants_of (db s) (in_ConversationID msg) →
  ∃ s' ok err,
    handleChatMessage c msg s = Done (tt, s')
    ∧ calls s' = calls s ++ [CallIsUserInConversation (UserID self)
                               (in_ConversationID msg) ok err]
    ∧ persist_calls (calls s') = persist_calls (calls s)
    ∧ dispatched (calls s') = dispatched (calls s)
    ∧ messages (db s') = messages (db s)
    ∧ heap s' = heap s ∧ clients s' = clients s
    ∧ broadcast s' = broadcast s.
Proof.
  intros Hc Hrej. apply participation_rejected in Hrej.
  rewrite (handleChatMessage_rejected s c self msg Hc Hrej).
  eexists _, _, _. split; [reflexivity|]. simpl.
  split_and!; try done.
  - unfold persist_calls. rewrite omap_app. simpl. by rewrite app_nil_r.
  - unfold dispatched. rewrite omap_app. simpl. by rewrite app_nil_r.
Qed.

(** C9. Typing signals are gated the same way: when the sender is not a
    participant of the target conversation, or the participation check
    fails, [handleTypingMessage] returns after that single check, with no
    dispatch, no frame queued for anybody, and not even a log line. *)
Theorem typing_authorization_gate (s : State) (c : addr) (self : Client)
    (msg : IncomingMessage) :
  heap s !! c = Some self →
  is_Some (fault (db s) (tick (db s)))
  ∨ UserID self ∉ participants_of (db s) (in_ConversationID msg) →
  ∃ s' ok err,
    handleTypingMessage c msg s = Done (tt, s')
    ∧ calls s' = calls s ++ [CallIsUserInConversation (UserID self)
                               (in_ConversationID msg) ok err]
    ∧ dispatched (calls s') = dispatched (calls s)
    ∧ heap s' = heap s ∧ clients s' = clients s
    ∧ broadcast s' = broadcast s ∧ log s' = log s.
Proof.
  intros Hc Hrej. apply participation_rejected in Hrej.
  rewrite (handleTypingMessage_rejected s c self msg Hc Hrej).
  eexists _, _, _. split; [reflexivity|]. simpl.
  split_and!; try done.
  unfold dispatched. rewrite omap_app. simpl. by rewrite app_nil_r.
Qed.


(** ** Who is on the other side of a conversation *)

Lemma GetUserConversations_query_member d u row :
  row ∈ GetUserConversations_query d u ↔
  ∃ c cp1 cp2 usr,
    c ∈ conversations d
    ∧ cp1 ∈ conversation_participants d
    ∧ c_id c = cp_conversation_id cp1 ∧ cp_user_id cp1 = u
    ∧ cp2 ∈ conversation_participants d
    ∧ c_id c = cp_conversation_id cp2 ∧ cp_user_id cp2 ≠ u
    ∧ usr ∈ users d ∧ cp_user_id cp2 = u_id usr
    ∧ row = MkConversationWithParticipants (c_id c) (c_created_at c)
              (u_id usr) (u_username usr).
Proof.
  unfold GetUserConversations_query. rewrite merge_sort_Permutation.
  rewrite list_elem_of_bind. split.
  - intros (c & Hrow & Hc).
    apply list_elem_of_bind in Hrow as (cp1 & Hrow & Hcp1).
    apply list_elem_of_bind in Hrow as (cp2 & Hrow & Hcp2).
    apply list_elem_of_bind in Hrow as (usr & Hrow & Husr).
    apply list_elem_of_filter in Hcp1 as [[? ?] ?].
    apply list_elem_of_filter in Hcp2 as [[? ?] ?].
    apply list_elem_of_filter in Husr as [? ?].
    apply list_elem_of_singleton in Hrow.
    by exists c, cp1, cp2, usr.
  - intros (c & cp1 & cp2 & usr & Hc & Hcp1 & ? & ? & Hcp2 & ? & ? & Husr
            & ? & ->).
    exists c. split; [|done].
    apply list_elem_of_bind. exists cp1.
    split; [|by apply list_elem_of_filter].
    apply list_elem_of_bind. exists cp2.
    split; [|by apply list_elem_of_filter].
    apply list_elem_of_bind. exists usr.
    split; [|by apply list_elem_of_filter].
    by apply list_elem_of_singleton.
Qed.

Lemma participants_of_member d cid u :
  u ∈ participants_of d cid ↔
  MkParticipantRow cid u ∈ conversation_participants d.
Proof.
  unfold participants_of. rewrite list_elem_of_fmap. split.
  - intros ([cid' u'] & -> & Hin).
    apply list_elem_of_filter in Hin as [Hcid Hin]. simpl in *. by subst.
  - intros Hin. exists (MkParticipantRow cid u). split; [done|].
    by apply list_elem_of_filter.
Qed.

Lemma participants_of_NoDup d cid :
  db_wf d → NoDup (participants_of d cid).
Proof.
  intros Hwf. unfold participants_of.
  apply NoDup_fmap_2_strong.
  - intros [c1 u1] [c2 u2] H1 H2. simpl.
    apply list_elem_of_filter in H1 as [H1 _].
    apply list_elem_of_filter in H2 as [H2 _]. simpl in *. congruence.
  - apply NoDup_filter, (participants_pk d Hwf).
Qed.

Lemma first_other_unique convs cid B :
  (∀ row, row ∈ convs → ID row = cid → OtherUserID row = B) →
  (∃ row, row ∈ convs ∧ ID row = cid) →
  first_other convs cid = [B].
Proof.
  induction convs as [|conv rest IH]; intros Hall (row & Hin & Hid).
  - by apply elem_of_nil in Hin.
  - simpl. case_bool_decide as Hconv.
    + f_equal. apply Hall; [by left|done].
    + apply IH.
      * intros row' Hin'. apply Hall. by right.
      * exists row. split; [|done].
        apply elem_of_cons in Hin as [->|Hin]; [done|done].
Qed.

(** In a conversation of exactly two, the loop finds the other one. *)
Lemma first_other_one_to_one d u cid B :
  db_wf d → participants_of d cid ≡ₚ [u; B] →
  first_other (GetUserConversations_query d u) cid = [B].
Proof.
  intros Hwf Hperm.
  assert (u ≠ B) as Hne.
  { pose proof (participants_of_NoDup d cid Hwf) as Hnd.
    rewrite Hperm in Hnd. apply NoDup_cons in Hnd as [Hnd _].
    intros ->. apply Hnd. by left. }
  assert (∀ x, x ∈ participants_of d cid ↔ x = u ∨ x = B) as Hmem.
  { intros x. rewrite Hperm, !elem_of_cons, elem_of_nil. tauto. }
  apply first_other_unique.
  - intros row Hrow Hid.
    apply GetUserConversations_query_member in Hrow
      as (c & cp1 & [cid2 u2] & usr & _ & _ & _ & _ & Hcp2 & Hc2 & Hu2 & _
          & Husr & ->).
    simpl in *. subst.
    apply participants_of_member, Hmem in Hcp2 as [?|?]; congruence.
  - assert (MkParticipantRow cid u ∈ conversation_participants d) as Hcp1
      by (apply participants_of_member, Hmem; by left).
    assert (MkParticipantRow cid B ∈ conversation_participants d) as Hcp2
      by (apply participants_of_member, Hmem; by right).
    pose proof (participants_fk_conversation d Hwf _ Hcp1) as Hc.
    pose proof (participants_fk_user d Hwf _ Hcp2) as Husr. simpl in *.
    apply list_elem_of_fmap in Hc as (c & Hcid & Hc).
    apply list_elem_of_fmap in Husr as (usr & HB & Husr).
    eexists. split; [|shelve].
    apply GetUserConversations_query_member.
    exists c, (MkParticipantRow cid u), (MkParticipantRow cid B), usr.
    simpl. split_and!; try done; congruence.
    Unshelve. simpl. congruence.
Qed.


(** ** The invariant of the hub is kept *)

Lemma NewHub_ok d : hub_ok (NewHub d).
Proof.
  split.
  - intros a c. unfold NewHub. simpl. by rewrite lookup_empty.
  - intros uid a. unfold NewHub. simpl. by rewrite lookup_empty.
Qed.

(** An accepted connection: the new client is registered and live, the
    one it replaces is closed and gone from the map. *)
Lemma Handler_ok s claims upgrade :
  hub_ok s →
  ∃ r s', Handler claims upgrade s = Done (r, s') ∧ hub_ok s'.
Proof.
  intros Hok. pose proof Hok as [Hwf Hlive].
  destruct claims as [[userID username]|]; [|by exists None, s].
  destruct upgrade as [err|]; simpl.
  { unfold log_Printf. run. eexists _, _. split; [reflexivity|].
    by eapply hub_ok_heap; [| |exact Hok]. }
  unfold NewClient. run.
  set (a := fresh (dom (heap s))).
  set (new := MkClient (make_chan 256) userID username false).
  assert (heap s !! a = None) as Hfresh
    by apply not_elem_of_dom, is_fresh.
  match goal with |- context [Run_register a ?s0] => set (s0' := s0) end.
  assert (heap s0' !! a = Some new) as Ha by apply lookup_insert_eq.
  assert (∀ b, b ≠ a → heap s0' !! b = heap s !! b) as Hold
    by (intros b Hb; by apply lookup_insert_ne).
  assert (registry_wf s0') as Hreg.
  { split.
    - intros b cb Hb. destruct (decide (b = a)) as [->|Hne].
      + rewrite Ha in Hb. by simplify_eq.
      + rewrite Hold in Hb by done. exact (Hwf b cb Hb).
    - intros uid b Hb. destruct (Hlive uid b Hb) as (cb & Hcb & _).
      exists cb. rewrite Hold; [done|congruence]. }
  destruct (Run_register_supersede_spec s0' a new Hreg Ha)
    as (s1 & Hrun1 & [Hwf1 _] & Hext1 & Hc1 & _ & _ & _ & _ & Hframe).
  assert (∀ b, clients s !! userID ≠ Some b → heap s1 !! b = heap s0' !! b)
    as Hframe' by exact Hframe.
  assert (heap s1 !! a = Some new) as Ha1.
  { rewrite Hframe'; [done|]. intros Hm.
    destruct (Hlive _ _ Hm) as (? & ? & _). congruence. }
  destruct (Run_register_publish_spec s1 a new Ha1)
    as (s2 & Hrun2 & Hh2 & Hc2 & _).
  unfold Run_register, mbind, M_bind. rewrite Hrun1, Hrun2.
  eexists _, s2. split; [reflexivity|]. split.
  - by eapply heap_wf_heap.
  - intros uid b. unfold is_live. rewrite Hc2, Hc1, Hh2. simpl. intros Hb.
    apply lookup_insert_Some in Hb as [[<- <-]|[Hne Hb]].
    + by exists new.
    + destruct (Hlive uid b Hb) as (cb & Hcb & Hopen & Hu).
      exists cb. split; [|done].
      rewrite Hframe', Hold; [done|congruence|].
      intros Hm. destruct (Hlive _ _ Hm) as (? & ? & _ & ?). congruence.
Qed.

Lemma Run_unregister_ok s a c :
  hub_ok s → heap s !! a = Some c →
  ∃ s', Run_unregister a s = Done (tt, s') ∧ hub_ok s'.
Proof.
  intros [Hwf Hlive] Ha.
  destruct (Run_unregister_spec s a c Hwf Ha)
    as (s' & Hrun & Hwf' & _ & _ & _ & Hframe & Hcase).
  exists s'. split; [done|]. split; [done|].
  intros uid b Hb. case_bool_decide as Hmapped.
  - destruct Hcase as [Hcl _]. rewrite Hcl in Hb.
    apply lookup_delete_Some in Hb as [Hne Hb].
    destruct (Hlive uid b Hb) as (cb & Hcb & Hopen & Hu).
    exists cb. split; [|done]. rewrite Hframe; [done|].
    intros ->. congruence.
  - destruct Hcase as [Hcl Hh]. rewrite Hcl in Hb.
    destruct (Hlive uid b Hb) as (cb & Hcb & Hopen & Hu).
    exists cb. by rewrite Hh.
Qed.

(** The reader loop's handlers return on every frame and keep the
    invariant. *)
Lemma ReadPump_frame_ok s c self msg :
  hub_ok s → heap s !! c = Some self →
  ∃ s', ReadPump_frame c msg s = Done (tt, s') ∧ hub_ok s'.
Proof.
  intros Hok Hc. unfold ReadPump_frame.
  pose proof (participation_cases (db s) (UserID self)
                (in_ConversationID msg)) as Hcases.
  assert (participation (db s) (UserID self) (in_ConversationID msg)
          = (true, None)
          ∨ (is_Some (participation (db s) (UserID self)
                        (in_ConversationID msg)).2
             ∨ (participation (db s) (UserID self)
                  (in_ConversationID msg)).1 = false)) as [Hchk|Hrej].
  { destruct Hcases as [(? & _)|[(-> & _)|(e & -> & _)]]; simpl; eauto. }
  - case_bool_decide.
    + destruct (fault (db s) (S (tick (db s)))) as [e|] eqn:Hf.
      { destruct (handleChatMessage_not_saved s c self msg Hc Hchk)
          as [err ->]; [left; by rewrite Hf|].
        eexists. split; [reflexivity|]. by eapply hub_ok_heap; [| |exact Hok]. }
      destruct (CreateMessage_insert (db_ticked (db s))
                  (in_ConversationID msg) (UserID self) (in_Content msg))
        as [m|e] eqn:Hins.
      * destruct (handleChatMessage_saved s c self msg m Hok Hc Hchk Hf Hins)
          as (s' & Hrun & Hok' & _). by exists s'.
      * destruct (handleChatMessage_not_saved s c self msg Hc Hchk)
          as [err ->]; [right; by eauto|].
        eexists. split; [reflexivity|]. by eapply hub_ok_heap; [| |exact Hok].
    + case_bool_decide.
      * destruct (handleTypingMessage_accepted s c self msg Hok Hc Hchk)
          as (s' & Hrun & Hok' & _). by exists s'.
      * unfold log_Printf. eexists. split; [reflexivity|].
        by eapply hub_ok_heap; [| |exact Hok].
  - case_bool_decide.
    + rewrite (handleChatMessage_rejected s c self msg Hc Hrej).
      eexists. split; [reflexivity|]. by eapply hub_ok_heap; [| |exact Hok].
    + case_bool_decide.
      * rewrite (handleTypingMessage_rejected s c self msg Hc Hrej).
        eexists. split; [reflexivity|]. by eapply hub_ok_heap; [| |exact Hok].
      * unfold log_Printf. eexists. split; [reflexivity|].
        by eapply hub_ok_heap; [| |exact Hok].
Qed.

End Properties.

(** * The model at work *)

(** ** Running the checks *)

Lemma heap_wf_b_true s : heap_wf_b s = true → heap_wf s.
Proof.
  unfold heap_wf_b. intros H%bool_decide_eq_true a c Ha. by apply (H a c).
Qed.

Lemma hub_ok_b_true s : hub_ok_b s = true → hub_ok s.
Proof.
  unfold hub_ok_b. intros [Hwf Hopen]%andb_true_iff.
  split; [by apply heap_wf_b_true|].
  apply bool_decide_eq_true in Hopen. intros uid a Ha.
  specialize (Hopen uid a Ha). unfold is_live_b in Hopen. simpl in Hopen.
  destruct (heap s !! a) as [c|] eqn:Hc; [|done].
  apply andb_true_iff in Hopen as [Hopen Hu].
  exists c. split; [done|].
  split; [by apply negb_true_iff|by apply bool_decide_eq_true in Hu].
Qed.

Lemma database_wf : db_wf Scenario.database.
Proof.
  split.
  - compute_done.
  - compute_done.
  - compute_done.
  - apply Forall_forall. compute_done.
  - apply Forall_forall. compute_done.
Qed.

Import Scenario.

Example online_lobby : online database = Some lobby.
Proof. vm_compute. reflexivity. Qed.

#[local] Existing Instance runtime.

(** A send channel of one slot and two messages for its owner: the first
    is queued, the second dropped, and the hub has gone through both. *)
Example capacity_one_dispatch_twice :
  ∃ s', Run [Broadcast; Broadcast]
          (slots 1 0 [MkOutgoingMessage "alice" [Byte.x01];
                      MkOutgoingMessage "alice" [Byte.x02]])
        = Done (tt, s')
        ∧ outbound 0 s' = [[Byte.x01]]
        ∧ buf (broadcast s') = []
        ∧ log s' = ["Failed to send message to alice: buffer full"].
Proof. eexists. split; [vm_compute; reflexivity|]. by split. Qed.

(** alice writes to bob in their conversation: one row is saved, and after
    the hub has handed out the two frames both have it in their buffer. *)
Example end_to_end :
  ∃ s', (handleChatMessage 0 (chat "d1" "hi");; Run [Broadcast; Broadcast])
          lobby = Done (tt, s')
        ∧ (msg_Content <$> messages (db s')) = ["hi"]
        ∧ outbound 0 s' = [String.list_byte_of_string "d1"]
        ∧ outbound 1 s' = [String.list_byte_of_string "d1"]
        ∧ outbound 2 s' = [].
Proof. eexists. split; [vm_compute; reflexivity|]. by split. Qed.

(** carol is not connected: the dispatch for her is a no-op. *)
Example offline_recipient_is_skipped :
  Run_receive_broadcast (slots 1 0 [MkOutgoingMessage "carol" []])
  = Done (tt, slots 1 0 []).
Proof. vm_compute. reflexivity. Qed.

Lemma lobby_ok : hub_ok lobby.
Proof. apply hub_ok_b_true. vm_compute. reflexivity. Qed.

Lemma two_sessions_ok : hub_ok two_sessions.
Proof. apply hub_ok_b_true. vm_compute. reflexivity. Qed.

Lemma superseded_wf : heap_wf superseded.
Proof. apply heap_wf_b_true. vm_compute. reflexivity. Qed.

Lemma congested_ok n pending : hub_ok (congested n pending).
Proof. apply hub_ok_b_true. vm_compute. reflexivity. Qed.

(** ** The theorems at concrete inputs *)

Lemma single_session_witness :
  registry_wf two_sessions
  ∧ ∃ s3, Run (Register <$> [0; 1]) two_sessions = Done (tt, s3)
          ∧ clients s3 !! "alice" = Some 1 ∧ is_closed 0 s3.
Proof.
  assert (registry_wf two_sessions) as Hreg
    by apply hub_ok_registry_wf, two_sessions_ok.
  split; [exact Hreg|].
  destruct (single_session two_sessions "alice" [0] 1 Hreg)
    as (s1 & s2 & s3 & _ & _ & _ & Hrun & _ & _ & Hmap & Hclosed & _).
  { intros b Hb. exists (session "alice" "Alice").
    apply elem_of_cons in Hb as [->|Hb]; [done|].
    apply list_elem_of_singleton in Hb as ->. done. }
  exists s3. split; [exact Hrun|]. split; [exact Hmap|].
  apply Hclosed. by left.
Defined.

Lemma stale_unregister_noop_witness :
  clients superseded !! "alice" = Some 1
  ∧ ∃ s', Run_unregister 0 superseded = Done (tt, s')
          ∧ clients s' !! "alice" = Some 1
          ∧ heap s' !! 1 = Some (session "alice" "Alice").
Proof.
  split; [reflexivity|].
  destruct (stale_unregister_noop superseded "alice" 0 1
              (MkClient (MkChan [] 256 true) "alice" "Alice" true)
              superseded_wf)
    as (s' & Hrun & Hmap & Hheap & _); [reflexivity|reflexivity|lia|].
  exists s'. split; [exact Hrun|]. split; [exact Hmap|].
  rewrite Hheap. reflexivity.
Defined.



(** carol is not in the conversation of alice and bob. *)
Lemma chat_authorization_gate_witness :
  ("carol" ∉ participants_of (db lobby) "d1")
  ∧ ∃ s', handleChatMessage 2 (chat "d1" "hi") lobby = Done (tt, s')
          ∧ messages (db s') = [] ∧ broadcast s' = broadcast lobby
          ∧ heap s' = heap lobby.
Proof.
  assert ("carol" ∉ participants_of (db lobby) "d1") as Hout by compute_done.
  split; [exact Hout|].
  destruct (chat_authorization_gate lobby 2 (session "carol" "Carol")
              (chat "d1" "hi"))
    as (s' & ok & err & Hrun & _ & _ & _ & Hm & Hh & _ & Hb);
    [reflexivity|by right|].
  exists s'. split; [exact Hrun|]. split; [exact Hm|]. by split.
Defined.

Lemma typing_authorization_gate_witness :
  ("carol" ∉ participants_of (db lobby) "d1")
  ∧ ∃ s', handleTypingMessage 2 (typing "d1") lobby = Done (tt, s')
          ∧ broadcast s' = broadcast lobby ∧ heap s' = heap lobby
          ∧ log s' = log lobby.
Proof.
  assert ("carol" ∉ participants_of (db lobby) "d1") as Hout by compute_done.
  split; [exact Hout|].
  destruct (typing_authorization_gate lobby 2 (session "carol" "Carol")
              (typing "d1"))
    as (s' & ok & err & Hrun & _ & _ & Hh & _ & Hb & Hl);
    [reflexivity|by right|].
  exists s'. split; [exact Hrun|]. by split.
Defined.

Lemma Close_idempotent_witness :
  heap_wf lobby
  ∧ ∃ s', Close_times 3 0 lobby = Done (tt, s') ∧ is_closed 0 s'
          ∧ log s' = log lobby ++ ["Closing send channel for client: alice"].
Proof.
  pose proof lobby_ok as [Hwf _]. split; [exact Hwf|].
  destruct (Close_idempotent lobby 0 (session "alice" "Alice") 2 Hwf)
    as (s' & Hrun & _ & _ & Hcl & _ & Hlog); [reflexivity|].
  exists s'. split; [exact Hrun|]. split; [exact Hcl|exact Hlog].
Defined.

(** A Go channel is not serializable; bob is online with room to spare. *)
Lemma SendToUser_returns_marshal_error_witness :
  ∃ s', SendToUser "bob" (AnyOther "chan int") lobby
        = Done (Some "json: unsupported type: chan int", s').
Proof.
  destruct (SendToUser_returns_marshal_error lobby "bob" (AnyOther "chan int")
              lobby_ok)
    as (r & s' & Hrun & _ & _ & Hr).
  exists s'. rewrite Hrun, Hr. reflexivity.
Defined.


(** ** Where the code parts from the claims *)


(** C3, at a failing input: alice signals typing in her 1:1 conversation
    with bob; the signal is dispatched to bob and, against the claim, to
    alice herself. *)
Theorem typing_signal_echoed_to_sender :
  ∃ s',
    handleTypingMessage 0 (typing "d1") lobby = Done (tt, s')
    ∧ UserID (session "alice" "Alice") = "alice"
    ∧ heap lobby !! 0 = Some (session "alice" "Alice")
    ∧ dispatched (calls s') = ["bob"; "alice"]
    ∧ "alice" ∈ dispatched (calls s').
Proof.
  eexists. split; [vm_compute; reflexivity|].
  split; [reflexivity|]. split; [reflexivity|]. split; [reflexivity|].
  compute_done.
Qed.

(** * More of the code: the process as a whole *)

Create HintDb keeps.

Section System.
Context {rt : GoRuntime}.

Ltac run :=
  unfold mbind, mret, M_bind, M_ret, get, panic, set_heap, set_clients,
    set_broadcast, set_db, log_Printf, record_call, deref, store in *;
  simpl in *.

(** ** How the heap grows *)

Lemma frozen_refl s : frozen s s.
Proof. intros b cb Hb. exists cb. by split_and!. Qed.

Lemma frozen_trans s1 s2 s3 : frozen s1 s2 → frozen s2 s3 → frozen s1 s3.
Proof.
  intros H12 H23 b cb Hb.
  destruct (H12 b cb Hb) as (cb2 & Hb2 & Hu2 & Hn2 & Hcap2 & Hc2).
  destruct (H23 b cb2 Hb2) as (cb3 & Hb3 & Hu3 & Hn3 & Hcap3 & Hc3).
  exists cb3. split_and!; try congruence.
  intros Hcl. destruct (Hc2 Hcl) as [Hcl2 Hsuf2].
  destruct (Hc3 Hcl2) as [Hcl3 Hsuf3]. split; [done|].
  by etrans.
Qed.

Lemma grows_refl s : grows s s.
Proof.
  split; [apply frozen_refl|]. split; [done|]. intros; congruence.
Qed.

Lemma grows_trans s1 s2 s3 : grows s1 s2 → grows s2 s3 → grows s1 s3.
Proof.
  intros (Hf12 & Hb12 & Hn12) (Hf23 & Hb23 & Hn23).
  split; [by eapply frozen_trans|]. split; [auto|].
  intros b cb3 Hb3 Hb1.
  destruct (heap s2 !! b) as [cb2|] eqn:Hb2.
  - destruct (Hf23 b cb2 Hb2) as (cb3' & Hb3' & _ & _ & Hcap & _).
    simplify_eq. rewrite Hcap. by eapply Hn12.
  - by eapply Hn23.
Qed.

Lemma grows_heap s s' : heap s' = heap s → grows s s'.
Proof.
  intros Hh. split; [|split].
  - intros b cb Hb. exists cb. rewrite Hh. by split_and!.
  - unfold bounded. by rewrite Hh.
  - intros b cb'. rewrite Hh. congruence.
Qed.

(** Replacing one client by a version of itself. *)
Lemma grows_update s s' a c c' :
  heap s !! a = Some c → heap s' = <[a := c']> (heap s) →
  UserID c' = UserID c → Username c' = Username c →
  cap (send c') = cap (send c) →
  (closed (send c) = true →
     closed (send c') = true ∧ buf (send c') `suffix_of` buf (send c)) →
  (length (buf (send c)) ≤ cap (send c) →
     length (buf (send c')) ≤ cap (send c')) →
  grows s s'.
Proof.
  intros Ha Hh Hu Hn Hcap Hcl Hlen. split; [|split].
  - intros b cb Hb. rewrite Hh. destruct (decide (b = a)) as [->|Hne].
    + rewrite lookup_insert_eq. exists c'. simplify_eq. by split_and!.
    + rewrite lookup_insert_ne by done. exists cb. by split_and!.
  - intros Hbd b cb. rewrite Hh. destruct (decide (b = a)) as [->|Hne].
    + rewrite lookup_insert_eq. intros [= <-]. apply Hlen. by eapply Hbd.
    + rewrite lookup_insert_ne by done. apply Hbd.
  - intros b cb'. rewrite Hh. destruct (decide (b = a)) as [->|Hne].
    + congruence.
    + rewrite lookup_insert_ne by done. congruence.
Qed.

Lemma keeps_ret {A} (x : A) : keeps (mret x).
Proof. intros s y s' [= _ <-]. apply grows_refl. Qed.

Lemma keeps_bind {A B} (m : M A) (f : A → M B) :
  keeps m → (∀ x, keeps (f x)) → keeps (m ≫= f).
Proof.
  intros Hm Hf s y s'. unfold mbind, M_bind.
  destruct (m s) as [[x s1]|] eqn:Hms; [|done].
  intros Hfs. eapply grows_trans; [by eapply Hm|by eapply Hf].
Qed.

Lemma keeps_get : keeps get.
Proof. intros s y s' [= _ <-]. apply grows_refl. Qed.

Lemma keeps_panic {A} r : keeps (@panic A r).
Proof. by intros s y s'. Qed.

Lemma keeps_log_Printf line : keeps (log_Printf line).
Proof. intros s y s' [= _ <-]. by apply grows_heap. Qed.

Lemma keeps_record_call c : keeps (record_call c).
Proof. intros s y s' [= _ <-]. by apply grows_heap. Qed.

Lemma keeps_set_db d : keeps (set_db d).
Proof. intros s y s' [= _ <-]. by apply grows_heap. Qed.

Lemma keeps_set_clients m : keeps (set_clients m).
Proof. intros s y s' [= _ <-]. by apply grows_heap. Qed.

Lemma keeps_set_broadcast b : keeps (set_broadcast b).
Proof. intros s y s' [= _ <-]. by apply grows_heap. Qed.

Lemma keeps_deref a : keeps (deref a).
Proof.
  intros s y s'. unfold deref. destruct (heap s !! a); [|done].
  intros [= _ <-]. apply grows_refl.
Qed.

(** The four places that write to the heap. *)
Lemma keeps_NewClient userID username : keeps (NewClient userID username).
Proof.
  intros s a s'. unfold NewClient. run. intros [= <- <-].
  assert (heap s !! fresh (dom (heap s)) = None) as Hfresh
    by apply not_elem_of_dom, is_fresh.
  unfold grows, frozen, bounded. simpl. split; [|split].
  - intros b cb Hb. exists cb. rewrite lookup_insert_ne by congruence.
    by split_and!.
  - intros Hbd b cb Hb.
    apply lookup_insert_Some in Hb as [[_ <-]|[_ Hb]]; [simpl; lia|].
    by eapply Hbd.
  - intros b cb' Hb Hnone.
    apply lookup_insert_Some in Hb as [[_ <-]|[_ Hb]]; [done|congruence].
Qed.

Lemma keeps_Client_Close a : keeps (Client_Close a).
Proof.
  intros s [] s'. unfold Client_Close, chan_close. run.
  destruct (heap s !! a) as [c|] eqn:Ha; simpl; [|done].
  destruct (closeOnce c); simpl; [intros [= <-]; apply grows_refl|].
  destruct (closed (send c)) eqn:Hc; simpl; [done|].
  intros [= <-]. eapply grows_update; try done; simpl; congruence.
Qed.

Lemma keeps_Run_broadcast m : keeps (Run_broadcast m).
Proof.
  intros s [] s'. unfold Run_broadcast, chan_try_send. run.
  destruct (clients s !! RecipientID m) as [a|]; simpl;
    [|intros [= <-]; apply grows_refl].
  destruct (heap s !! a) as [c|] eqn:Ha; simpl; [|done].
  destruct (closed (send c)) eqn:Hc; simpl; [done|].
  case_bool_decide as Hroom; simpl; intros [= <-].
  - eapply grows_update; try done; simpl; [congruence|].
    rewrite length_app. simpl. lia.
  - by apply grows_heap.
Qed.

Lemma keeps_Client_recv a : keeps (Client_recv a).
Proof.
  intros s x s'. unfold Client_recv, chan_recv. run.
  destruct (heap s !! a) as [c|] eqn:Ha; simpl; [|done].
  destruct (buf (send c)) as [|y rest] eqn:Hbuf; simpl.
  - destruct (closed (send c)) eqn:Hc; simpl; intros [= _ <-];
      [|apply grows_refl].
    eapply grows_update; try done; simpl; rewrite ?Hbuf; try done.
    all: simpl; lia.
  - intros [= _ <-].
    eapply grows_update; try done; simpl; rewrite ?Hbuf; simpl; try lia.
    intros Hc. split; [done|]. by apply suffix_cons_r.
Qed.

(** Goes through the binds and the branches of a call. *)
Ltac keeps_go :=
  repeat match goal with
    | |- keeps (mret _) => apply keeps_ret
    | |- keeps (_ ≫= _) => apply keeps_bind; [|intros ?]
    | |- keeps (if ?b then _ else _) => destruct b
    | |- keeps (match ?x with _ => _ end) => destruct x
    | |- keeps (let _ := _ in _) => cbv zeta
    | |- keeps _ => assumption
    | |- keeps _ => solve [auto 1 with keeps nocore]
    end.

#[local] Hint Resolve keeps_get keeps_panic keeps_log_Printf
  keeps_record_call keeps_set_db keeps_set_clients keeps_set_broadcast
  keeps_deref keeps_NewClient keeps_Client_Close keeps_Run_broadcast
  keeps_Client_recv : keeps.

Lemma keeps_Run_step cmd : keeps (Run_step cmd).
Proof.
  destruct cmd as [a|a|]; simpl;
    unfold Run_register, Run_register_supersede, Run_register_publish,
      Run_unregister, Run_receive_broadcast; keeps_go.
Qed.

Lemma keeps_Handler claims upgrade : keeps (Handler claims upgrade).
Proof.
  unfold Handler, Run_register, Run_register_supersede,
    Run_register_publish.
  keeps_go.
Qed.

Lemma keeps_Run_receive_broadcast : keeps Run_receive_broadcast.
Proof. apply (keeps_Run_step Broadcast). Qed.

#[local] Hint Resolve keeps_Run_receive_broadcast : keeps.

Lemma keeps_SendToUser u v : keeps (SendToUser u v).
Proof. unfold SendToUser, broadcast_send. keeps_go. Qed.

#[local] Hint Resolve keeps_SendToUser : keeps.

Lemma keeps_send_to_other convs cid v : keeps (send_to_other convs cid v).
Proof. induction convs as [|conv rest IH]; simpl; keeps_go. Qed.

#[local] Hint Resolve keeps_send_to_other : keeps.

Lemma keeps_db_roundtrip : keeps db_roundtrip.
Proof. unfold db_roundtrip. keeps_go. Qed.

#[local] Hint Resolve keeps_db_roundtrip : keeps.

Lemma keeps_sendToConversationParticipants c cid v :
  keeps (sendToConversationParticipants c cid v).
Proof.
  unfold sendToConversationParticipants, GetUserConversations. keeps_go.
Qed.

#[local] Hint Resolve keeps_sendToConversationParticipants : keeps.

Lemma keeps_ReadPump_frame c msg : keeps (ReadPump_frame c msg).
Proof.
  unfold ReadPump_frame, handleChatMessage, handleTypingMessage,
    IsUserInConversation, CreateMessage.
  keeps_go.
Qed.

Lemma step_grows s s' : step s s' → grows s s'.
Proof.
  intros [s0 claims upgrade r s1 H|s0 a s1 H|s0 s1 H|s0 a msg s1 H
          |s0 a x s1 H].
  - by eapply keeps_Handler.
  - by eapply (keeps_Run_step (Unregister a)).
  - by eapply (keeps_Run_step Broadcast).
  - by eapply keeps_ReadPump_frame.
  - by eapply keeps_Client_recv.
Qed.

Lemma steps_grow s s' : rtc step s s' → grows s s'.
Proof.
  induction 1 as [|s1 s2 s3 Hstep _ IH]; [apply grows_refl|].
  eapply grows_trans; [by apply step_grows|done].
Qed.

(** ** The invariant along every execution *)

Lemma Client_recv_ok s a x s' :
  hub_ok s → Client_recv a s = Done (x, s') → hub_ok s'.
Proof.
  intros [Hwf Hlive]. unfold Client_recv, chan_recv. run.
  destruct (heap s !! a) as [c|] eqn:Ha; simpl; [|done].
  assert (∀ ch, closed ch = closed (send c) →
            hub_ok (MkState
                      (<[a := MkClient ch (UserID c) (Username c)
                                 (closeOnce c)]> (heap s))
                      (clients s) (broadcast s) (log s) (db s) (calls s)))
    as Hupd.
  { intros ch Hch. split.
    - intros b cb. simpl. intros Hb.
      apply lookup_insert_Some in Hb as [[_ <-]|[_ Hb]]; simpl;
        [rewrite Hch; exact (Hwf a c Ha)|exact (Hwf b cb Hb)].
    - intros uid b Hb. simpl in Hb.
      destruct (Hlive uid b Hb) as (cb & Hcb & Hopen & Hu).
      unfold is_live. simpl. destruct (decide (a = b)) as [->|Hne].
      + rewrite lookup_insert_eq. eexists. split; [done|]. simpl.
        simplify_eq. by rewrite Hch.
      + rewrite lookup_insert_ne by done. by exists cb. }
  destruct (buf (send c)) as [|y rest]; simpl.
  - destruct (closed (send c)) eqn:Hc; simpl; intros [= _ <-];
      [by apply Hupd|done].
  - intros [= _ <-]. by apply Hupd.
Qed.

Lemma step_hub_ok s s' : step s s' → hub_ok s → hub_ok s'.
Proof.
  intros [s0 claims upgrade r s1 H|s0 a s1 H|s0 s1 H|s0 a msg s1 H
          |s0 a x s1 H] Hok.
  - destruct (Handler_ok s0 claims upgrade Hok) as (r' & s1' & H' & Hok').
    congruence.
  - destruct (heap s0 !! a) as [c|] eqn:Ha.
    + destruct (Run_unregister_ok s0 a c Hok Ha) as (s1' & H' & Hok').
      congruence.
    + revert H. unfold Run_unregister. run. by rewrite Ha.
  - destruct (Run_receive_broadcast_spec s0 Hok) as (s1' & H' & Hok' & _).
    congruence.
  - destruct (heap s0 !! a) as [c|] eqn:Ha.
    + destruct (ReadPump_frame_ok s0 a c msg Hok Ha) as (s1' & H' & Hok').
      congruence.
    + revert H. unfold ReadPump_frame.
      repeat case_bool_decide;
        unfold handleChatMessage, handleTypingMessage; run;
        rewrite ?Ha; try done.
      intros [= <-]. by eapply hub_ok_heap; [| |exact Hok].
  - by eapply Client_recv_ok.
Qed.

Lemma steps_hub_ok s s' : rtc step s s' → hub_ok s → hub_ok s'.
Proof.
  induction 1 as [|s1 s2 s3 Hstep _ IH]; [done|].
  intros Hok. apply IH. by eapply step_hub_ok.
Qed.

(** X1. In every state the process reaches from a fresh hub, whatever the
    order in which connections are accepted, readers handle frames or
    leave, the hub hands out messages and writers take them, every
    registered client is allocated, filed under its own user id, and has
    an open send channel. *)
Theorem reachable_hub_ok (d : Database) (s : State) :
  reachable d s → hub_ok s.
Proof. intros Hreach. eapply steps_hub_ok; [exact Hreach|apply NewHub_ok]. Qed.

(** X2. In a reachable state no goroutine can panic: accepting a
    connection, unregistering any existing session, handing out the next
    message, handling a frame on any existing session and a writer's
    receive all return (no send on a closed channel, no second close of a
    channel, no nil client). *)
Theorem reachable_never_panics (d : Database) (s : State) :
  reachable d s →
  (∀ claims upgrade, ∃ r s', Handler claims upgrade s = Done (r, s'))
  ∧ (∀ a, is_Some (heap s !! a) → ∃ s', Run_unregister a s = Done (tt, s'))
  ∧ (∃ s', Run_receive_broadcast s = Done (tt, s'))
  ∧ (∀ a msg, is_Some (heap s !! a) →
       ∃ s', ReadPump_frame a msg s = Done (tt, s'))
  ∧ (∀ a, is_Some (heap s !! a) → ∃ x s', Client_recv a s = Done (x, s')).
Proof.
  intros Hreach.
  assert (hub_ok s) as Hok by (eapply steps_hub_ok; [done|apply NewHub_ok]).
  split_and!.
  - intros claims upgrade.
    destruct (Handler_ok s claims upgrade Hok) as (r & s' & H & _). eauto.
  - intros a [c Ha].
    destruct (Run_unregister_ok s a c Hok Ha) as (s' & H & _). eauto.
  - destruct (Run_receive_broadcast_spec s Hok) as (s' & H & _). eauto.
  - intros a msg [c Ha].
    destruct (ReadPump_frame_ok s a c msg Hok Ha) as (s' & H & _). eauto.
  - intros a [c Ha]. unfold Client_recv. run. rewrite Ha. simpl.
    destruct (chan_recv (send c)) as [[x ch]|]; simpl; eauto.
Qed.

(** X3. Send buffers are bounded: in every reachable state each client's
    send channel has the 256 slots [NewClient] gave it and holds at most
    256 frames. *)
Theorem reachable_buffers_bounded (d : Database) (s : State) (a : addr)
    (c : Client) :
  reachable d s → heap s !! a = Some c →
  cap (send c) = 256 ∧ length (buf (send c)) ≤ 256.
Proof.
  intros Hreach Ha. destruct (steps_grow _ _ Hreach) as (_ & Hbd & Hnew).
  assert (cap (send c) = 256) as Hcap by (by eapply Hnew).
  split; [done|]. rewrite <- Hcap. eapply Hbd; [|done].
  intros b cb. unfold NewHub. simpl. by rewrite lookup_empty.
Qed.

(** X4. A session whose send channel has been closed (superseded or
    unregistered) stays closed and is never given another frame: whatever
    the process does next, its buffer can only lose frames at the front,
    to its writer. *)
Theorem closed_session_gets_nothing_more (s s' : State) (b : addr) :
  rtc step s s' → is_closed b s →
  is_closed b s' ∧ outbound b s' `suffix_of` outbound b s.
Proof.
  intros Hsteps (cb & Hb & Hcl).
  destruct (steps_grow _ _ Hsteps) as (Hfrozen & _).
  destruct (Hfrozen b cb Hb) as (cb' & Hb' & _ & _ & _ & Hkeep).
  destruct (Hkeep Hcl) as [Hcl' Hsuf].
  split; [by exists cb'|]. unfold outbound. by rewrite Hb, Hb'.
Qed.

(** ** Connecting, disconnecting, delivering *)

Lemma Handler_accept_spec s u n :
  hub_ok s →
  ∃ a s', Handler (Some (u, n)) None s = Done (Some a, s')
          ∧ hub_ok s'
          ∧ heap s !! a = None
          ∧ heap s' !! a = Some (MkClient (make_chan 256) u n false)
          ∧ clients s' = <[u := a]> (clients s)
          ∧ (∀ old, clients s !! u = Some old → is_closed old s').
Proof.
  intros Hok. pose proof Hok as [Hwf Hlive].
  destruct (Handler_ok s (Some (u, n)) None Hok) as (r & s2' & Hrun & Hok').
  revert Hrun. simpl. unfold NewClient. run.
  set (a := fresh (dom (heap s))).
  set (new := MkClient (make_chan 256) u n false).
  assert (heap s !! a = None) as Hfresh
    by apply not_elem_of_dom, is_fresh.
  match goal with |- context [Run_register a ?s0] => set (s0' := s0) end.
  assert (heap s0' !! a = Some new) as Ha by apply lookup_insert_eq.
  assert (∀ b, b ≠ a → heap s0' !! b = heap s !! b) as Hold
    by (intros b Hb; by apply lookup_insert_ne).
  assert (registry_wf s0') as Hreg.
  { split.
    - intros b cb Hb. destruct (decide (b = a)) as [->|Hne].
      + rewrite Ha in Hb. by simplify_eq.
      + rewrite Hold in Hb by done. exact (Hwf b cb Hb).
    - intros uid b Hb. destruct (Hlive uid b Hb) as (cb & Hcb & _).
      exists cb. rewrite Hold; [done|congruence]. }
  destruct (Run_register_supersede_spec s0' a new Hreg Ha)
    as (s1 & Hrun1 & _ & _ & Hc1 & _ & _ & _ & Hsup & Hframe).
  assert (heap s1 !! a = Some new) as Ha1.
  { rewrite Hframe; [done|]. simpl. intros Hm.
    destruct (Hlive _ _ Hm) as (? & ? & _). congruence. }
  destruct (Run_register_publish_spec s1 a new Ha1)
    as (s2 & Hrun2 & Hh2 & Hc2 & _).
  unfold Run_register, mbind, M_bind. rewrite Hrun1, Hrun2.
  intros [= <- <-]. exists a, s2. split; [done|].
  split_and!; try done.
  - by rewrite Hh2.
  - by rewrite Hc2, Hc1.
  - intros old Hm. eapply is_closed_heap; [exact Hh2|]. by apply Hsup.
Qed.

(** X5. An accepted connection is the user's session from then on: the
    handler allocates a new client with an empty, open send channel of 256
    slots, the registry maps the user to it and to nothing else, the
    session the user had before is closed, the other users' entries are
    untouched, and [IsUserOnline] answers true. *)
Theorem accepted_connection_is_online (s : State) (u n : string) :
  hub_ok s →
  ∃ a s', Handler (Some (u, n)) None s = Done (Some a, s')
          ∧ heap s !! a = None
          ∧ heap s' !! a = Some (MkClient (make_chan 256) u n false)
          ∧ clients s' = <[u := a]> (clients s)
          ∧ (∀ old, clients s !! u = Some old → is_closed old s')
          ∧ IsUserOnline u s' = Done (true, s').
Proof.
  intros Hok.
  destruct (Handler_accept_spec s u n Hok)
    as (a & s' & Hrun & _ & Hfresh & Ha & Hc & Hold).
  exists a, s'. split_and!; try done.
  unfold IsUserOnline. run. rewrite Hc, lookup_insert_eq.
  by rewrite bool_decide_eq_true_2.
Qed.

(** X6. Connecting and then disconnecting leaves the user offline: after
    the handler accepted a connection and its reader unregistered it, the
    session is closed, the user has no entry in the registry (which is
    otherwise as before the connection), and [IsUserOnline] answers
    false. *)
Theorem connect_then_disconnect (s : State) (u n : string) :
  hub_ok s →
  ∃ a s1 s2, Handler (Some (u, n)) None s = Done (Some a, s1)
             ∧ Run_unregister a s1 = Done (tt, s2)
             ∧ is_closed a s2
             ∧ clients s2 = delete u (clients s)
             ∧ IsUserOnline u s2 = Done (false, s2).
Proof.
  intros Hok.
  destruct (Handler_accept_spec s u n Hok)
    as (a & s1 & Hrun & [Hwf1 _] & _ & Ha & Hc & _).
  destruct (Run_unregister_spec s1 a _ Hwf1 Ha)
    as (s2 & Hrun2 & _ & _ & _ & _ & _ & Hcase).
  simpl in Hcase. rewrite bool_decide_eq_true_2 in Hcase
    by (rewrite Hc; apply lookup_insert_eq).
  destruct Hcase as [Hc2 Hcl].
  assert (clients s2 = delete u (clients s)) as Hdel
    by (by rewrite Hc2, Hc, delete_insert_eq).
  exists a, s1, s2. split_and!; try done.
  unfold IsUserOnline. run. rewrite Hdel, lookup_delete_eq.
  by rewrite bool_decide_eq_false_2 by (by intros [? ?]).
Qed.

(** [SendToUser] when the hub has nothing pending. *)
Lemma SendToUser_idle s u v data :
  buf (broadcast s) = [] → json_Marshal v = inl data →
  SendToUser u v s
  = Done (None,
          MkState (heap s) (clients s)
            (MkChan [MkOutgoingMessage u data] (cap (broadcast s))
               (closed (broadcast s)))
            (log s) (db s) (calls s ++ [CallSendToUser u v])).
Proof.
  intros Hq Hv. unfold SendToUser, broadcast_send, Run_receive_broadcast.
  run. rewrite Hv. simpl. case_bool_decide; simpl; rewrite Hq; simpl.
  - reflexivity.
  - by rewrite Hq.
Qed.

(** X7. A message for a user who is not connected vanishes without a
    trace: [SendToUser] returns nil, and once the hub has taken the message
    no buffer, no registry entry and no log line has changed, and nothing
    is pending. *)
Theorem offline_dispatch_is_silent (s : State) (u : string) (v : any)
    (data : Bytes) :
  clients s !! u = None → buf (broadcast s) = [] →
  json_Marshal v = inl data →
  ∃ s', (SendToUser u v ≫= λ err, Run_receive_broadcast;; mret err) s
        = Done (None, s')
        ∧ heap s' = heap s ∧ clients s' = clients s ∧ log s' = log s
        ∧ buf (broadcast s') = [].
Proof.
  intros Hoff Hq Hv. unfold mbind, M_bind.
  rewrite (SendToUser_idle s u v data Hq Hv).
  unfold Run_receive_broadcast. run.
  rewrite Run_broadcast_offline by done.
  eexists. split; [reflexivity|]. by simpl.
Qed.

(** X8. A message for a connected user with room in the buffer is queued
    at the end of that user's send buffer, serialized by [json.Marshal],
    once the hub has taken it; every other client is left as it was and
    nothing is logged. *)
Theorem online_dispatch_is_queued (s : State) (u : string) (a : addr)
    (c : Client) (v : any) (data : Bytes) :
  hub_ok s → clients s !! u = Some a → heap s !! a = Some c →
  length (buf (send c)) < cap (send c) →
  buf (broadcast s) = [] → json_Marshal v = inl data →
  ∃ s', (SendToUser u v ≫= λ err, Run_receive_broadcast;; mret err) s
        = Done (None, s')
        ∧ outbound a s' = outbound a s ++ [data]
        ∧ (∀ b, b ≠ a → heap s' !! b = heap s !! b)
        ∧ clients s' = clients s ∧ log s' = log s
        ∧ buf (broadcast s') = [].
Proof.
  intros [Hwf Hlive] Hm Ha Hroom Hq Hv. unfold mbind, M_bind.
  destruct (Hlive _ _ Hm) as (c' & Ha' & Hopen & _). simplify_eq.
  rewrite (SendToUser_idle s u v data Hq Hv).
  unfold Run_receive_broadcast. run.
  match goal with |- context [Run_broadcast ?m ?s0] =>
    rewrite (Run_broadcast_room s0 m a c) by done
  end.
  eexists. split; [reflexivity|]. simpl. split_and!; try done.
  - unfold outbound. simpl. by rewrite lookup_insert_eq, Ha.
  - intros b Hb. by rewrite lookup_insert_ne.
Qed.

Lemma Run_broadcast_other s m u a s' :
  hub_ok s → clients s !! u = Some a → RecipientID m ≠ u →
  Run_broadcast m s = Done (tt, s') → heap s' !! a = heap s !! a.
Proof.
  intros [Hwf Hlive] Hu Hne.
  destruct (clients s !! RecipientID m) as [a'|] eqn:Hm.
  - destruct (Hlive _ _ Hm) as (c' & Ha' & Hopen' & Hu').
    destruct (Hlive _ _ Hu) as (c & Ha & _ & Hu'').
    assert (a' ≠ a) by (intros ->; congruence).
    destruct (decide (length (buf (send c')) < cap (send c'))).
    + rewrite (Run_broadcast_room s m a' c') by done.
      intros [= <-]. simpl. by rewrite lookup_insert_ne.
    + rewrite (Run_broadcast_full s m a' c') by (done || lia).
      by intros [= <-].
  - rewrite Run_broadcast_offline by done. by intros [= <-].
Qed.

Lemma dispatch_in_order u a q : ∀ s c,
  hub_ok s → buf (broadcast s) = q →
  clients s !! u = Some a → heap s !! a = Some c →
  length (buf (send c))
  + length (filter (λ m, RecipientID m = u) q) ≤ cap (send c) →
  ∃ s', Run (replicate (length q) Broadcast) s = Done (tt, s')
        ∧ outbound a s'
          = buf (send c) ++ (Data <$> filter (λ m, RecipientID m = u) q)
        ∧ buf (broadcast s') = [].
Proof.
  induction q as [|m q IH]; intros s c Hok Hq Hu Ha Hroom.
  - exists s. simpl. unfold outbound. rewrite Ha, app_nil_r. done.
  - simpl. unfold mbind, M_bind, Run_receive_broadcast. run.
    rewrite Hq. simpl.
    match goal with |- context [Run_broadcast m ?s0] => set (s0' := s0) end.
    assert (hub_ok s0') as Hok0 by (by eapply hub_ok_heap; [| |exact Hok]).
    destruct (Run_broadcast_spec s0' m Hok0)
      as (s1 & Hrun & Hok1 & Hc1 & Hb1 & _).
    rewrite Hrun.
    destruct (decide (RecipientID m = u)) as [Hmine|Hother].
    + rewrite filter_cons_True in Hroom by done. simpl in Hroom.
      pose proof Hok as [_ Hlive].
      destruct (Hlive _ _ Hu) as (c' & Ha' & Hopen & _).
      assert (c' = c) as -> by congruence.
      assert (clients s0' !! RecipientID m = Some a) as Hm0
        by (simpl; by rewrite Hmine).
      assert (length (buf (send c)) < cap (send c)) as Hlt by lia.
      rewrite (Run_broadcast_room s0' m a c Hm0 Ha Hopen Hlt) in Hrun.
      injection Hrun as <-.
      set (c1 := MkClient
                   (MkChan (buf (send c) ++ [Data m]) (cap (send c)) false)
                   (UserID c) (Username c) (closeOnce c)).
      destruct (IH _ c1 Hok1) as (s' & Hrun' & Hout & Hq').
      * done.
      * exact Hu.
      * simpl. apply lookup_insert_eq.
      * simpl. rewrite length_app. simpl. lia.
      * exists s'. split; [done|]. split; [|done].
        rewrite Hout, filter_cons_True by done. simpl.
        by rewrite <- app_assoc.
    + rewrite filter_cons_False in Hroom by done.
      assert (heap s1 !! a = Some c) as Ha1.
      { rewrite (Run_broadcast_other s0' m (UserID c) a s1); try done.
        all: pose proof Hok as [_ Hlive];
          destruct (Hlive _ _ Hu) as (c' & Ha' & _ & Hu');
          simplify_eq; done. }
      destruct (IH s1 c Hok1) as (s' & Hrun' & Hout & Hq'); try done.
      * by rewrite Hb1.
      * by rewrite Hc1.
      * exists s'. split; [done|]. split; [|done].
        by rewrite Hout, filter_cons_False.
Qed.

(** X9. Frames reach a user in the order they were sent: when the hub
    has worked through its pending messages, a connected user with room
    for them has got every message addressed to that user, behind what was
    in the buffer already, in the order of the queue, and nothing is
    pending. *)
Theorem dispatch_keeps_order (s : State) (u : string) (a : addr)
    (c : Client) :
  hub_ok s → clients s !! u = Some a → heap s !! a = Some c →
  length (buf (send c))
  + length (filter (λ m, RecipientID m = u) (buf (broadcast s)))
  ≤ cap (send c) →
  ∃ s', Run (replicate (length (buf (broadcast s))) Broadcast) s
        = Done (tt, s')
        ∧ outbound a s'
          = outbound a s
            ++ (Data <$> filter (λ m, RecipientID m = u) (buf (broadcast s)))
        ∧ buf (broadcast s') = [].
Proof.
  intros Hok Hu Ha Hroom.
  destruct (dispatch_in_order u a (buf (broadcast s)) s c Hok eq_refl Hu Ha
              Hroom) as (s' & Hrun & Hout & Hq).
  exists s'. split; [done|]. split; [|done].
  unfold outbound at 2. by rewrite Ha.
Qed.

(** ** The writer loop *)

Lemma Client_recv_frame s c self x rest :
  heap s !! c = Some self → buf (send self) = x :: rest →
  Client_recv c s
  = Done (Some (Some x),
          MkState
            (<[c := MkClient (MkChan rest (cap (send self))
                                (closed (send self)))
                      (UserID self) (Username self) (closeOnce self)]>
               (heap s))
            (clients s) (broadcast s) (log s) (db s) (calls s)).
Proof.
  intros Hc Hbuf. unfold Client_recv, chan_recv. run.
  rewrite Hc. simpl. by rewrite Hbuf.
Qed.

Lemma Client_recv_waits s c self :
  heap s !! c = Some self → buf (send self) = [] →
  closed (send self) = false →
  Client_recv c s = Done (None, s).
Proof.
  intros Hc Hbuf Hopen. unfold Client_recv, chan_recv. run.
  rewrite Hc. simpl. by rewrite Hbuf, Hopen.
Qed.

Lemma Client_recv_closed s c self :
  heap s !! c = Some self → buf (send self) = [] →
  closed (send self) = true →
  ∃ s', Client_recv c s = Done (Some None, s')
        ∧ outbound c s' = [] ∧ is_closed c s'
        ∧ (∀ b, b ≠ c → heap s' !! b = heap s !! b)
        ∧ clients s' = clients s.
Proof.
  intros Hc Hbuf Hcl. unfold Client_recv, chan_recv. run.
  rewrite Hc. simpl. rewrite Hbuf, Hcl. simpl.
  eexists. split; [reflexivity|]. unfold outbound, is_closed. simpl.
  rewrite lookup_insert_eq. simpl. split_and!; try done.
  - by eexists.
  - intros b Hb. by rewrite lookup_insert_ne.
Qed.

Lemma conn_WriteMessage_ok conn f :
  conn_closed conn = false → write_fault conn (writes conn) = None →
  conn_WriteMessage conn f
  = (MkConn (written conn ++ [f]) (S (writes conn)) false (write_fault conn),
     None).
Proof. intros Hopen Hf. unfold conn_WriteMessage. by rewrite Hopen, Hf. Qed.

Lemma texts_snoc fs f :
  texts (fs ++ [f])
  = texts fs ++ match f with TextMessage data => [data] | _ => [] end.
Proof. unfold texts. rewrite omap_app. by destruct f. Qed.

Lemma writer_in_order c rs : ∀ s self conn,
  heap s !! c = Some self → closed (send self) = false →
  conn_closed conn = false → (∀ i, write_fault conn i = None) →
  ∃ conn' s',
    WritePump c rs conn s = Done ((false, conn'), s')
    ∧ texts (written conn')
      = texts (written conn)
        ++ take (sends rs `min` length (buf (send self))) (buf (send self))
    ∧ outbound c s'
      = drop (sends rs `min` length (buf (send self))) (buf (send self))
    ∧ conn_closed conn' = false
    ∧ (∀ b, b ≠ c → heap s' !! b = heap s !! b)
    ∧ clients s' = clients s.
Proof.
  induction rs as [|r rs IH]; intros s self conn Hc Hopen Hconn Hfault.
  - exists conn, s. simpl. unfold outbound. rewrite Hc, app_nil_r.
    by split_and!.
  - destruct r.
    + change (sends (SendReady :: rs)) with (S (sends rs)).
      simpl; unfold mbind, M_bind.
      destruct (buf (send self)) as [|x rest] eqn:Hbuf.
      * rewrite (Client_recv_waits s c self) by done. simpl.
        destruct (IH s self conn Hc Hopen Hconn Hfault)
          as (conn' & s' & Hrun & Htexts & Hout & Hcl & Hframe & Hclients).
        exists conn', s'. rewrite Hbuf in *.
        rewrite Nat.min_0_r in *. by split_and!.
      * rewrite (Client_recv_frame s c self x rest) by done. simpl.
        rewrite conn_WriteMessage_ok by done. simpl.
        match goal with |- context [WritePump c rs ?conn0 ?s0] =>
          destruct (IH s0 (MkClient (MkChan rest (cap (send self))
                                       (closed (send self)))
                             (UserID self) (Username self) (closeOnce self))
                      conn0)
            as (conn' & s' & Hrun & Htexts & Hout & Hcl & Hframe & Hclients);
            [simpl; apply lookup_insert_eq|done|done|done|]
        end.
        exists conn', s'. cbn [written] in Htexts.
        rewrite texts_snoc, <- app_assoc in Htexts. simpl in *.
        split; [done|]. rewrite Htexts, Hout. split_and!; try done.
        intros b Hb. by rewrite Hframe, lookup_insert_ne.
    + change (sends (TickerReady :: rs)) with (sends rs).
      simpl; unfold mbind, M_bind.
      rewrite conn_WriteMessage_ok by done. simpl.
      match goal with |- context [WritePump c rs ?conn0 s] =>
        destruct (IH s self conn0 Hc Hopen)
          as (conn' & s' & Hrun & Htexts & Hout & Hcl & Hframe & Hclients);
          [done|done|]
      end.
      exists conn', s'. cbn [written] in Htexts.
      rewrite texts_snoc, app_nil_r in Htexts. by split_and!.
Qed.

(** X10. The writer sends what the hub queued, in order and without loss:
    on an open session and a healthy connection, after any run of its
    [select] (receives and pings in any order) the text frames written are
    the oldest pending frames of the send buffer, in the order of the
    buffer, one per receive, and the buffer holds the rest; the loop has not
    returned and no other client is touched. *)
Theorem writer_keeps_order (s : State) (c : addr) (self : Client)
    (rs : list Ready) (conn : Conn) :
  heap s !! c = Some self → closed (send self) = false →
  conn_closed conn = false → (∀ i, write_fault conn i = None) →
  ∃ conn' s',
    WritePump c rs conn s = Done ((false, conn'), s')
    ∧ texts (written conn')
      = texts (written conn) ++ take (sends rs) (outbound c s)
    ∧ outbound c s' = drop (sends rs) (outbound c s)
    ∧ (∀ b, b ≠ c → heap s' !! b = heap s !! b).
Proof.
  intros Hc Hopen Hconn Hfault.
  destruct (writer_in_order c rs s self conn Hc Hopen Hconn Hfault)
    as (conn' & s' & Hrun & Htexts & Hout & _ & Hframe & _).
  exists conn', s'. unfold outbound at 1 3. rewrite Hc.
  split; [done|]. rewrite Htexts, Hout. split_and!; [|  |done].
  - f_equal. destruct (Nat.min_spec (sends rs) (length (buf (send self))))
      as [[_ ->]|[Hle ->]]; [done|]. by rewrite !take_ge by lia.
  - destruct (Nat.min_spec (sends rs) (length (buf (send self))))
      as [[_ ->]|[Hle ->]]; [done|]. by rewrite !drop_ge by lia.
Qed.

Lemma WritePump_sends_frame s c self x rest conn rs :
  heap s !! c = Some self → buf (send self) = x :: rest →
  conn_closed conn = false → write_fault conn (writes conn) = None →
  WritePump c (SendReady :: rs) conn s
  = WritePump c rs
      (MkConn (written conn ++ [TextMessage x]) (S (writes conn)) false
         (write_fault conn))
      (MkState
         (<[c := MkClient (MkChan rest (cap (send self)) (closed (send self)))
                   (UserID self) (Username self) (closeOnce self)]>
            (heap s))
         (clients s) (broadcast s) (log s) (db s) (calls s)).
Proof.
  intros Hc Hbuf Hconn Hfault. simpl. unfold mbind, M_bind.
  rewrite (Client_recv_frame s c self x rest) by done. simpl.
  by rewrite conn_WriteMessage_ok.
Qed.

Lemma writer_drains c frames : ∀ s self conn more,
  heap s !! c = Some self → closed (send self) = true →
  buf (send self) = frames →
  conn_closed conn = false → (∀ i, write_fault conn i = None) →
  ∃ conn' s',
    WritePump c (replicate (S (length frames)) SendReady ++ more) conn s
    = Done ((true, conn'), s')
    ∧ written conn'
      = written conn ++ (TextMessage <$> frames) ++ [CloseMessage []]
    ∧ conn_closed conn' = true
    ∧ outbound c s' = [] ∧ is_closed c s'
    ∧ (∀ b, b ≠ c → heap s' !! b = heap s !! b)
    ∧ clients s' = clients s.
Proof.
  induction frames as [|x rest IH]; intros s self conn more Hc Hcl Hbuf
    Hconn Hfault.
  - simpl. unfold mbind, M_bind.
    destruct (Client_recv_closed s c self Hc Hbuf Hcl)
      as (s' & -> & Hout & Hcl' & Hframe & Hclients). simpl.
    rewrite conn_WriteMessage_ok by done. simpl.
    eexists _, s'. split; [reflexivity|]. by simpl.
  - change (replicate (S (length (x :: rest))) SendReady ++ more)
      with (SendReady :: (replicate (S (length rest)) SendReady ++ more)).
    rewrite (WritePump_sends_frame s c self x rest) by done.
    match goal with |- context [WritePump c _ ?conn0 ?s0] =>
      destruct (IH s0 (MkClient (MkChan rest (cap (send self))
                                   (closed (send self)))
                         (UserID self) (Username self) (closeOnce self))
                  conn0 more)
        as (conn' & s' & Hrun & Hw & Hcc & Hout & Hcl' & Hframe & Hclients);
        [simpl; apply lookup_insert_eq|done|done|done|done|]
    end.
    exists conn', s'. split; [exact Hrun|]. simpl in *.
    rewrite Hw, <- app_assoc. simpl. split_and!; try done.
    intros b Hb. by rewrite Hframe, lookup_insert_ne.
Qed.


(** X12. A failed write ends the writer: when the connection is closed or
    the write fails, the writer returns at that turn of the loop with the
    connection closed and nothing written; the frame it had taken from the
    send buffer for that write is gone. *)
Theorem writer_stops_at_failed_write (s : State) (c : addr) (self : Client)
    (x : Bytes) (rest : list Bytes) (conn : Conn) (more : list Ready) :
  heap s !! c = Some self → buf (send self) = x :: rest →
  conn_closed conn = true ∨ is_Some (write_fault conn (writes conn)) →
  ∃ conn' s',
    WritePump c (SendReady :: more) conn s = Done ((true, conn'), s')
    ∧ written conn' = written conn
    ∧ conn_closed conn' = true
    ∧ outbound c s' = rest
    ∧ WritePump c (TickerReady :: more) conn s
      = Done ((true, conn_Close (conn_WriteMessage conn PingMessage).1), s).
Proof.
  intros Hc Hbuf Hbad. simpl. unfold mbind, M_bind.
  rewrite (Client_recv_frame s c self x rest) by done. simpl.
  assert (∀ f, is_Some (conn_WriteMessage conn f).2
               ∧ written (conn_WriteMessage conn f).1 = written conn) as Hw.
  { intros f. unfold conn_WriteMessage.
    destruct (conn_closed conn) eqn:Hcc; [by eauto|].
    destruct Hbad as [?|[e He]]; [done|]. rewrite He. by eauto. }
  destruct (Hw (TextMessage x)) as [Herr Hsame].
  destruct (Hw PingMessage) as [Herr' _].
  rewrite !bool_decide_eq_true_2 by done.
  eexists _, _. split; [reflexivity|]. simpl.
  unfold outbound. simpl. rewrite lookup_insert_eq. simpl.
  by split_and!.
Qed.

(** ** The reader loop *)

Lemma ReadPump_frame_spec s c self msg :
  hub_ok s → heap s !! c = Some self →
  ∃ s', ReadPump_frame c msg s = Done (tt, s') ∧ hub_ok s'
        ∧ clients s' = clients s
        ∧ ∃ self', heap s' !! c = Some self' ∧ UserID self' = UserID self.
Proof.
  intros Hok Hc.
  assert (∀ s', ReadPump_frame c msg s = Done (tt, s') →
            ∃ self', heap s' !! c = Some self' ∧ UserID self' = UserID self)
    as Hstays.
  { intros s' Hrun.
    destruct (keeps_ReadPump_frame c msg s tt s' Hrun) as (Hfrozen & _).
    destruct (Hfrozen c self Hc) as (self' & Hc' & Hu & _). eauto. }
  assert (∀ s', heap s' = heap s → clients s' = clients s → hub_ok s')
    as Hsame by (intros s' Hh Hcl; by eapply hub_ok_heap; [| |exact Hok]).
  cut (∃ s', ReadPump_frame c msg s = Done (tt, s') ∧ hub_ok s'
             ∧ clients s' = clients s).
  { intros (s' & Hrun & Hok' & Hcl). exists s'. split_and!; try done.
    by apply Hstays. }
  clear Hstays. unfold ReadPump_frame.
  pose proof (participation_cases (db s) (UserID self)
                (in_ConversationID msg)) as Hcases.
  assert (participation (db s) (UserID self) (in_ConversationID msg)
          = (true, None)
          ∨ (is_Some (participation (db s) (UserID self)
                        (in_ConversationID msg)).2
             ∨ (participation (db s) (UserID self)
                  (in_ConversationID msg)).1 = false)) as [Hchk|Hrej].
  { destruct Hcases as [(? & _)|[(-> & _)|(e & -> & _)]]; simpl; eauto. }
  - case_bool_decide.
    + destruct (fault (db s) (S (tick (db s)))) as [e|] eqn:Hf.
      { destruct (handleChatMessage_not_saved s c self msg Hc Hchk)
          as [err ->]; [left; by rewrite Hf|].
        eexists. split; [reflexivity|]. split; [by apply Hsame|done]. }
      destruct (CreateMessage_insert (db_ticked (db s))
                  (in_ConversationID msg) (UserID self) (in_Content msg))
        as [m|e] eqn:Hins.
      * destruct (handleChatMessage_saved s c self msg m Hok Hc Hchk Hf Hins)
          as (s' & Hrun & Hok' & Hcl & _). by exists s'.
      * destruct (handleChatMessage_not_saved s c self msg Hc Hchk)
          as [err ->]; [right; by eauto|].
        eexists. split; [reflexivity|]. split; [by apply Hsame|done].
    + case_bool_decide.
      * destruct (handleTypingMessage_accepted s c self msg Hok Hc Hchk)
          as (s' & Hrun & Hok' & Hcl & _). by exists s'.
      * unfold log_Printf. eexists. split; [reflexivity|].
        split; [by apply Hsame|done].
  - case_bool_decide.
    + rewrite (handleChatMessage_rejected s c self msg Hc Hrej).
      eexists. split; [reflexivity|]. split; [by apply Hsame|done].
    + case_bool_decide.
      * rewrite (handleTypingMessage_rejected s c self msg Hc Hrej).
        eexists. split; [reflexivity|]. split; [by apply Hsame|done].
      * unfold log_Printf. eexists. split; [reflexivity|].
        split; [by apply Hsame|done].
Qed.

Section Reader.
Variable json_Unmarshal : Bytes → IncomingMessage + error.

Lemma ReadPump_loop_spec c inputs : ∀ s self,
  hub_ok s → heap s !! c = Some self →
  ∃ s', ReadPump_loop json_Unmarshal c inputs s
        = Done (read_failed inputs, s')
        ∧ hub_ok s' ∧ clients s' = clients s
        ∧ ∃ self', heap s' !! c = Some self' ∧ UserID self' = UserID self.
Proof.
  induction inputs as [|input inputs IH]; intros s self Hok Hc.
  - exists s. simpl. split_and!; try done. by exists self.
  - destruct input as [data|err unexpected]; simpl.
    + destruct (json_Unmarshal data) as [msg|err]; unfold mbind, M_bind.
      * destruct (ReadPump_frame_spec s c self msg Hok Hc)
          as (s1 & -> & Hok1 & Hcl1 & self1 & Hc1 & Hu1).
        destruct (IH s1 self1 Hok1 Hc1)
          as (s' & Hrun & Hok' & Hcl' & self' & Hc' & Hu').
        exists s'. split_and!; [done|done|congruence|].
        exists self'. split; [done|congruence].
      * unfold log_Printf.
        match goal with |- context [ReadPump_loop _ c inputs ?s0] =>
          destruct (IH s0 self)
            as (s' & Hrun & Hok' & Hcl' & self' & Hc' & Hu');
            [by eapply hub_ok_heap; [| |exact Hok]|done|]
        end.
        exists s'. split_and!; [done|done|done|]. by exists self'.
    + unfold mbind, M_bind.
      destruct unexpected; unfold log_Printf; simpl;
        (eexists; split; [reflexivity|]; simpl; split_and!;
         [by eapply hub_ok_heap; [| |exact Hok]|done|by exists self]).
Qed.

Lemma read_failed_elem inputs err unexpected :
  ReadFailed err unexpected ∈ inputs → read_failed inputs = true.
Proof.
  intros Hin. apply existsb_exists. exists (ReadFailed err unexpected).
  split; [by apply list_elem_of_In|done].
Qed.

(** X13. A reader that stops takes exactly its own session out of the
    registry: when [ReadMessage] fails, after any number of frames, the
    reader unregisters its session and closes the connection; if its
    session was the one registered for the user, the entry is removed and
    the session closed; if a newer session had replaced it, the registry
    is left as it was. The invariant of the hub still holds. *)
Theorem reader_exit_unregisters (s : State) (c : addr) (self : Client)
    (inputs : list ReadResult) (conn : Conn) (err : error)
    (unexpected : bool) :
  hub_ok s → heap s !! c = Some self →
  ReadFailed err unexpected ∈ inputs →
  ∃ conn' s',
    ReadPump json_Unmarshal c inputs conn s = Done ((true, conn'), s')
    ∧ conn_closed conn' = true
    ∧ hub_ok s'
    ∧ (clients s !! UserID self = Some c →
         clients s' = delete (UserID self) (clients s) ∧ is_closed c s')
    ∧ (clients s !! UserID self ≠ Some c → clients s' = clients s).
Proof.
  intros Hok Hc Hin. unfold ReadPump, mbind, M_bind.
  destruct (ReadPump_loop_spec c inputs s self Hok Hc)
    as (s1 & -> & Hok1 & Hcl1 & self1 & Hc1 & Hu1).
  rewrite (read_failed_elem inputs err unexpected Hin).
  pose proof Hok1 as [Hwf1 _].
  destruct (Run_unregister_ok s1 c self1 Hok1 Hc1) as (s2 & Hrun & Hok2).
  destruct (Run_unregister_spec s1 c self1 Hwf1 Hc1)
    as (s2' & Hrun' & _ & _ & _ & _ & _ & Hcase).
  assert (s2' = s2) as -> by congruence.
  rewrite Hrun. eexists _, s2. split; [reflexivity|]. simpl.
  rewrite Hu1, Hcl1 in Hcase.
  split_and!; try done.
  - intros Hm. by rewrite bool_decide_eq_true_2 in Hcase.
  - intros Hm. rewrite bool_decide_eq_false_2 in Hcase by done.
    by destruct Hcase.
Qed.

(** X14. Frames the reader cannot use are skipped and nothing else: a
    payload that does not decode, or whose type is neither [message] nor
    [typing], costs one log line and has no other effect (no storage call,
    no dispatch, no change to any session), and the reader goes on to the
    next frame. *)
Theorem unusable_frames_are_skipped (s : State) (c : addr)
    (inputs : list ReadResult) :
  (∀ input, input ∈ inputs →
     ∃ data, input = ReadData data
             ∧ ∀ msg, json_Unmarshal data = inl msg →
                      in_Type msg ≠ "message" ∧ in_Type msg ≠ "typing") →
  ∃ s', ReadPump_loop json_Unmarshal c inputs s = Done (false, s')
        ∧ heap s' = heap s ∧ clients s' = clients s ∧ db s' = db s
        ∧ broadcast s' = broadcast s ∧ calls s' = calls s
        ∧ length (log s') = length (log s) + length inputs.
Proof.
  revert s. induction inputs as [|input inputs IH]; intros s Hbad.
  - exists s. simpl. split_and!; try done; lia.
  - destruct (Hbad input) as (data & -> & Htype); [by left|].
    assert (∀ line,
              ∃ s', ReadPump_loop json_Unmarshal c inputs
                      (MkState (heap s) (clients s) (broadcast s)
                         (log s ++ [line]) (db s) (calls s))
                    = Done (false, s')
                    ∧ heap s' = heap s ∧ clients s' = clients s
                    ∧ db s' = db s ∧ broadcast s' = broadcast s
                    ∧ calls s' = calls s
                    ∧ length (log s') = length (log s) + S (length inputs))
      as Hnext.
    { intros line.
      match goal with |- context [ReadPump_loop _ c inputs ?s0] =>
        destruct (IH s0) as (s' & Hrun & ? & ? & ? & ? & ? & Hlen)
      end.
      { intros input Hin. apply Hbad. by right. }
      exists s'. simpl in *. split_and!; try done.
      rewrite Hlen, length_app. simpl. lia. }
    simpl. destruct (json_Unmarshal data) as [msg|err] eqn:Hdec.
    + destruct (Htype msg eq_refl) as [Hm Ht].
      unfold mbind, M_bind, ReadPump_frame.
      rewrite !bool_decide_eq_false_2 by done. unfold log_Printf.
      apply Hnext.
    + unfold mbind, M_bind, log_Printf. apply Hnext.
Qed.

End Reader.

(** ** The message history and the conversations *)

#[local] Instance oldest_first_total : Total oldest_first.
Proof. intros m1 m2. unfold oldest_first. lia. Qed.

#[local] Instance oldest_first_trans : Transitive oldest_first.
Proof. intros m1 m2 m3. unfold oldest_first. lia. Qed.

Lemma GetConversationMessages_inv s cid limit history s' :
  GetConversationMessages cid limit s = Done ((history, None), s') →
  fault (db s) (tick (db s)) = None ∧ (0 ≤ limit)%Z
  ∧ history = GetConversationMessages_query (db s) cid (Z.to_nat limit)
  ∧ s' = MkState (heap s) (clients s) (broadcast s) (log s)
           (db_ticked (db s)) (calls s).
Proof.
  unfold GetConversationMessages, db_roundtrip. run.
  destruct (fault (db s) (tick (db s))); [done|].
  case_bool_decide; [done|]. intros [= <- <-]. split_and!; try done. lia.
Qed.

Lemma GetConversationMessages_ok s cid limit :
  fault (db s) (tick (db s)) = None → (0 ≤ limit)%Z →
  GetConversationMessages cid limit s
  = Done ((GetConversationMessages_query (db s) cid (Z.to_nat limit), None),
          MkState (heap s) (clients s) (broadcast s) (log s)
            (db_ticked (db s)) (calls s)).
Proof.
  intros Hf Hl. unfold GetConversationMessages, db_roundtrip. run.
  rewrite Hf. by rewrite bool_decide_eq_false_2 by lia.
Qed.

Lemma history_row_member d cid row :
  row ∈ (m ← filter (λ m, msg_ConversationID m = cid) (messages d);
         u ← filter (λ u, msg_SenderID m = u_id u) (users d);
         [MkMessage (msg_ID m) (msg_ConversationID m) (msg_SenderID m)
            (u_username u) (msg_Content m) (msg_CreatedAt m)])
  ↔ ∃ m u, m ∈ messages d ∧ msg_ConversationID m = cid
           ∧ u ∈ users d ∧ msg_SenderID m = u_id u
           ∧ row = MkMessage (msg_ID m) cid (msg_SenderID m) (u_username u)
                     (msg_Content m) (msg_CreatedAt m).
Proof.
  rewrite list_elem_of_bind. split.
  - intros (m & Hrow & Hm). apply list_elem_of_filter in Hm as [Hc Hm].
    apply list_elem_of_bind in Hrow as (u & Hrow & Hu).
    apply list_elem_of_filter in Hu as [Hs Hu].
    apply list_elem_of_singleton in Hrow. subst row.
    exists m, u. by rewrite Hc.
  - intros (m & u & Hm & Hc & Hu & Hs & ->). exists m. split.
    + apply list_elem_of_bind. exists u. split.
      * rewrite Hc. apply list_elem_of_singleton. done.
      * by apply list_elem_of_filter.
    + by apply list_elem_of_filter.
Qed.

Lemma elem_of_take_or_full {A} (l : list A) n x :
  x ∈ l → x ∈ take n l ∨ length (take n l) = n.
Proof.
  intros Hx. destruct (decide (length l ≤ n)) as [Hle|Hgt].
  - left. by rewrite take_ge by done.
  - right. rewrite length_take. lia.
Qed.

(** X15. A message saved by [CreateMessage] is part of the history that
    [GetConversationMessages] returns for its conversation, with the
    sender's name filled in, unless the history is cut at [limit]. *)
Theorem saved_message_is_in_history s cid u content m s1 limit :
  CreateMessage cid u content s = Done ((Some m, None), s1) →
  fault (db s1) (tick (db s1)) = None →
  (0 ≤ limit)%Z →
  ∃ history s2 name,
    GetConversationMessages cid limit s1 = Done ((history, None), s2)
    ∧ MkUserRow u name ∈ users (db s1)
    ∧ (MkMessage (msg_ID m) cid u name content (msg_CreatedAt m) ∈ history
       ∨ length history = Z.to_nat limit).
Proof.
  intros Hsave Hf Hl.
  assert (fault (db s) (tick (db s)) = None
          ∧ CreateMessage_insert (db s) cid u content = inl m) as [Hf0 Hins].
  { destruct (fault (db s) (tick (db s))) as [e|] eqn:Hf0.
    - destruct (CreateMessage_failed s cid u content) as (err & Herr);
        [left; by eexists|].
      rewrite Herr in Hsave. done.
    - destruct (CreateMessage_insert (db s) cid u content) as [m0|e] eqn:Hins.
      + rewrite (CreateMessage_saved s cid u content m0 Hf0 Hins) in Hsave.
        by simplify_eq.
      + destruct (CreateMessage_failed s cid u content) as (err & Herr);
          [right; by eexists|].
        rewrite Herr in Hsave. done. }
  rewrite (CreateMessage_saved s cid u content m Hf0 Hins) in Hsave.
  injection Hsave as <-.
  unfold CreateMessage_insert in Hins.
  repeat case_bool_decide; try done. injection Hins as <-.
  match goal with H : u ∈ u_id <$> users (db s) |- _ =>
    apply list_elem_of_fmap in H as (usr & -> & Husr) end.
  rewrite (GetConversationMessages_ok _ cid limit Hf Hl).
  eexists _, _, (u_username usr). split; [done|]. simpl. split.
  { by destruct usr. }
  unfold GetConversationMessages_query.
  apply elem_of_take_or_full. rewrite merge_sort_Permutation.
  apply history_row_member. simpl.
  eexists (MkMessage _ cid (u_id usr) "" content _), usr. simpl.
  split_and!; try done. apply elem_of_app. right.
  by apply list_elem_of_singleton.
Qed.

Lemma GetConversationMessages_query_rows d cid n :
  Forall (λ row, ∃ m usr,
            m ∈ messages d ∧ msg_ConversationID m = cid
            ∧ usr ∈ users d ∧ msg_SenderID m = u_id usr
            ∧ row = MkMessage (msg_ID m) cid (msg_SenderID m)
                      (u_username usr) (msg_Content m) (msg_CreatedAt m))
         (GetConversationMessages_query d cid n).
Proof.
  unfold GetConversationMessages_query.
  apply Forall_forall. intros row Hrow.
  apply elem_of_take in Hrow as (i & Hrow & _).
  apply list_elem_of_lookup_2 in Hrow.
  rewrite merge_sort_Permutation in Hrow.
  by apply history_row_member in Hrow.
Qed.

Lemma GetConversationMessages_query_length d cid n :
  length (GetConversationMessages_query d cid n) ≤ n.
Proof. unfold GetConversationMessages_query. rewrite length_take. lia. Qed.

(** X16. A history returned by [GetConversationMessages] holds stored
    messages of the conversation asked for only, each with the name of its
    sender, oldest first and [limit] at most; reading it changes no
    table. *)
Theorem history_is_scoped_sorted_and_bounded s cid limit history s' :
  GetConversationMessages cid limit s = Done ((history, None), s') →
  Forall (λ row, ∃ m usr,
            m ∈ messages (db s) ∧ msg_ConversationID m = cid
            ∧ usr ∈ users (db s) ∧ msg_SenderID m = u_id usr
            ∧ row = MkMessage (msg_ID m) cid (msg_SenderID m)
                      (u_username usr) (msg_Content m) (msg_CreatedAt m))
         history
  ∧ StronglySorted oldest_first history
  ∧ (Z.of_nat (length history) ≤ limit)%Z
  ∧ same_tables (db s) (db s').
Proof.
  intros Hrun.
  apply GetConversationMessages_inv in Hrun as (Hf & Hl & -> & ->).
  split_and!.
  - apply GetConversationMessages_query_rows.
  - unfold GetConversationMessages_query.
    match goal with |- StronglySorted _ (take ?n ?l) =>
      assert (StronglySorted oldest_first l) as Hsorted
        by (apply StronglySorted_merge_sort; apply _);
      rewrite <- (take_drop n l) in Hsorted;
      by apply StronglySorted_app_1_l in Hsorted
    end.
  - pose proof (GetConversationMessages_query_length (db s) cid
                  (Z.to_nat limit)). lia.
  - done.
Qed.

(** What a call of [GetOrCreateConversation] can do: find, create, or fail
    and leave the tables as they were. *)
Lemma GetOrCreateConversation_cases u1 u2 s :
  ∃ r s',
    GetOrCreateConversation u1 u2 s = Done (r, s')
    ∧ heap s' = heap s ∧ clients s' = clients s
    ∧ broadcast s' = broadcast s ∧ log s' = log s ∧ calls s' = calls s
    ∧ ((∃ c rest,
          GetOrCreateConversation_query (db s) u1 u2 = c :: rest
          ∧ fault (db s) (tick (db s)) = None
          ∧ r = (Some (MkConversation (c_id c) (c_created_at c)), None)
          ∧ same_tables (db s) (db s'))
       ∨ (∃ c,
            GetOrCreateConversation_query (db s) u1 u2 = []
            ∧ r = (Some (MkConversation (c_id c) (c_created_at c)), None)
            ∧ (c_id c ∉ c_id <$> conversations (db s))
            ∧ u1 ≠ u2
            ∧ u1 ∈ u_id <$> users (db s) ∧ u2 ∈ u_id <$> users (db s)
            ∧ users (db s') = users (db s)
            ∧ conversations (db s') = conversations (db s) ++ [c]
            ∧ conversation_participants (db s')
              = conversation_participants (db s)
                ++ [MkParticipantRow (c_id c) u1;
                    MkParticipantRow (c_id c) u2]
            ∧ messages (db s') = messages (db s))
       ∨ (∃ e, r = (None, Some e) ∧ same_tables (db s) (db s'))).
Proof.
  unfold GetOrCreateConversation, db_roundtrip, tx_Rollback. run.
  destruct (fault (db s) (tick (db s))) as [e|] eqn:Hf0.
  { eexists _, _. split; [done|]. split_and!; try done.
    right. right. by eexists. }
  change (GetOrCreateConversation_query _ u1 u2)
    with (GetOrCreateConversation_query (db s) u1 u2).
  destruct (GetOrCreateConversation_query (db s) u1 u2) as [|c rest] eqn:Hq.
  2:{ eexists _, _. split; [done|]. split_and!; try done.
      left. by exists c, rest. }
  simpl. destruct (fault (db s) (S (tick (db s)))) as [e|] eqn:Hf1.
  { eexists _, _. split; [done|]. split_and!; try done.
    right. right. by eexists. }
  simpl. destruct (fault (db s) (S (S (tick (db s))))) as [e|] eqn:Hf2.
  { eexists _, _. split; [done|]. split_and!; try done.
    right. right. by eexists. }
  unfold insert_conversation. simpl. case_bool_decide as Hfresh.
  { eexists _, _. split; [done|]. split_and!; try done.
    right. right. by eexists. }
  simpl. destruct (fault (db s) (S (S (S (tick (db s)))))) as [e|] eqn:Hf3.
  { eexists _, _. split; [done|]. split_and!; try done.
    right. right. by eexists. }
  unfold insert_participants. simpl. case_bool_decide as Hfk.
  2:{ eexists _, _. split; [done|]. split_and!; try done.
      right. right. by eexists. }
  case_bool_decide as Hpk.
  2:{ eexists _, _. split; [done|]. split_and!; try done.
      right. right. by eexists. }
  simpl.
  destruct (fault (db s) (S (S (S (S (tick (db s))))))) as [e|] eqn:Hf4.
  { eexists _, _. split; [done|]. split_and!; try done.
    right. right. by eexists. }
  eexists _, _. split; [done|]. split_and!; try done.
  right. left. eexists (MkConversationRow _ _). simpl.
  split_and!; try done.
  - destruct Hpk as [Hnd _]. apply NoDup_cons in Hnd as [Hnd _].
    intros ->. apply Hnd. by left.
  - apply Forall_cons in Hfk as [[_ Hu] _]. done.
  - apply Forall_cons in Hfk as [_ Hfk].
    apply Forall_cons in Hfk as [[_ Hu] _]. done.
Qed.

Lemma GetOrCreateConversation_query_member d u1 u2 c :
  c ∈ GetOrCreateConversation_query d u1 u2 ↔
  c ∈ conversations d
  ∧ MkParticipantRow (c_id c) u1 ∈ conversation_participants d
  ∧ MkParticipantRow (c_id c) u2 ∈ conversation_participants d.
Proof.
  unfold GetOrCreateConversation_query. rewrite list_elem_of_bind. split.
  - intros (c0 & Hrow & Hc0).
    apply list_elem_of_bind in Hrow as (cp1 & Hrow & Hcp1).
    apply list_elem_of_bind in Hrow as (cp2 & Hrow & Hcp2).
    apply list_elem_of_singleton in Hrow. subst c0.
    apply list_elem_of_filter in Hcp1 as [[H1 H1'] Hcp1].
    apply list_elem_of_filter in Hcp2 as [[H2 H2'] Hcp2].
    destruct cp1, cp2. simpl in *. by subst.
  - intros (Hc & H1 & H2). exists c. split; [|done].
    apply list_elem_of_bind. eexists. split.
    + apply list_elem_of_bind. eexists. split.
      * by apply list_elem_of_singleton.
      * apply list_elem_of_filter. split; [|exact H2]. done.
    + apply list_elem_of_filter. split; [|exact H1]. done.
Qed.

Lemma GetOrCreateConversation_query_tables d d' u1 u2 :
  same_tables d d' →
  GetOrCreateConversation_query d' u1 u2
  = GetOrCreateConversation_query d u1 u2.
Proof.
  intros (_ & Hc & Hp & _). unfold GetOrCreateConversation_query.
  by rewrite Hc, Hp.
Qed.


(** X18. The conversation [GetOrCreateConversation] returns is a stored
    conversation in which both users take part, so that
    [IsUserInConversation] then accepts either of them. *)
Theorem get_or_create_admits_both_users u1 u2 s conv s1 :
  GetOrCreateConversation u1 u2 s = Done ((Some conv, None), s1) →
  conv_ID conv ∈ c_id <$> conversations (db s1)
  ∧ ∀ u, u = u1 ∨ u = u2 →
      u ∈ participants_of (db s1) (conv_ID conv)
      ∧ (fault (db s1) (tick (db s1)) = None →
         ∃ s2, IsUserInConversation u (conv_ID conv) s1
               = Done ((true, None), s2)).
Proof.
  intros Hrun.
  destruct (GetOrCreateConversation_cases u1 u2 s)
    as (r & s1' & Hrun' & _ & _ & _ & _ & _ & Hcases).
  rewrite Hrun in Hrun'. injection Hrun' as <- <-.
  assert (∃ c, conv = MkConversation (c_id c) (c_created_at c)
               ∧ c ∈ GetOrCreateConversation_query (db s1) u1 u2)
    as (c & -> & Hin).
  { destruct Hcases as [(c & rest & Hq & _ & [= ->] & Htab)
                       |[(c & Hq & [= ->] & Hfresh & _ & _ & _ & Hu & Hc
                          & Hp & _)
                        |(e & [=] & _)]].
    - exists c. split; [done|].
      rewrite (GetOrCreateConversation_query_tables _ _ _ _ Htab), Hq.
      by left.
    - exists c. split; [done|].
      apply GetOrCreateConversation_query_member. rewrite Hc, Hp.
      split_and!; apply elem_of_app; right.
      + by left.
      + by left.
      + right. by left. }
  apply GetOrCreateConversation_query_member in Hin as (Hc & H1 & H2).
  simpl. split; [by apply list_elem_of_fmap_2|].
  intros u Hu.
  assert (MkParticipantRow (c_id c) u ∈ conversation_participants (db s1))
    as Hrow by (by destruct Hu as [->| ->]).
  assert (u ∈ participants_of (db s1) (c_id c)) as Hpart.
  { unfold participants_of.
    apply (list_elem_of_fmap_2' cp_user_id _ (MkParticipantRow (c_id c) u));
      [|done].
    by apply list_elem_of_filter. }
  split; [done|]. intros Hf.
  rewrite IsUserInConversation_spec. eexists. f_equal. f_equal.
  unfold participation. rewrite Hf.
  apply IsUserInConversation_query_member in Hpart.
  by destruct (IsUserInConversation_query (db s1) u (c_id c)).
Qed.

(** X19. When [GetOrCreateConversation] returns an error, whichever step
    failed, no table has changed: the inserts of a transaction that does
    not commit are rolled back. *)
Theorem failed_get_or_create_leaves_no_trace u1 u2 s e s1 :
  GetOrCreateConversation u1 u2 s = Done ((None, Some e), s1) →
  same_tables (db s) (db s1).
Proof.
  intros Hrun.
  destruct (GetOrCreateConversation_cases u1 u2 s)
    as (r & s1' & Hrun' & _ & _ & _ & _ & _ & Hcases).
  rewrite Hrun in Hrun'. injection Hrun' as <- <-.
  by destruct Hcases as [(c & rest & _ & _ & [=] & _)
                        |[(c & _ & [=] & _)|(e' & _ & Htab)]].
Qed.

(** X20. [GetOrCreateConversation] of a user with themself creates
    nothing: it fails, or it returns a conversation the user already takes
    part in. *)
Theorem no_conversation_with_oneself u s :
  ∃ r s',
    GetOrCreateConversation u u s = Done (r, s')
    ∧ same_tables (db s) (db s')
    ∧ (r.1 = None
       ∨ ∃ c, c ∈ conversations (db s)
              ∧ u ∈ participants_of (db s) (c_id c)
              ∧ r = (Some (MkConversation (c_id c) (c_created_at c)),
                     None)).
Proof.
  destruct (GetOrCreateConversation_cases u u s)
    as (r & s' & Hrun & _ & _ & _ & _ & _ & Hcases).
  exists r, s'. split; [done|].
  destruct Hcases as [(c & rest & Hq & _ & -> & Htab)
                     |[(c & _ & _ & _ & Hne & _)|(e & -> & Htab)]].
  - split; [done|]. right. exists c.
    assert (c ∈ GetOrCreateConversation_query (db s) u u) as Hin
      by (rewrite Hq; by left).
    apply GetOrCreateConversation_query_member in Hin as (Hc & H1 & _).
    split_and!; try done. unfold participants_of.
    apply (list_elem_of_fmap_2' cp_user_id _ (MkParticipantRow (c_id c) u));
      [|done].
    by apply list_elem_of_filter.
  - done.
  - split; [done|]. by left.
Qed.

(** ** The HTTP handlers *)

Lemma strings_Split_nonempty s sep : strings_Split s sep ≠ [].
Proof.
  destruct s as [|a s]; simpl; [done|].
  destruct (decide (a = sep)); [done|].
  by destruct (strings_Split s sep).
Qed.

Lemma strings_Split_one s sep b : strings_Split s sep = [b] → s = b.
Proof.
  revert b. induction s as [|a s IH]; intros b; simpl.
  - by intros [= <-].
  - destruct (decide (a = sep)).
    + intros [= <- Hnil]. by apply strings_Split_nonempty in Hnil.
    + destruct (strings_Split s sep) as [|p ps] eqn:Hs.
      * by apply strings_Split_nonempty in Hs.
      * intros [= <- ->]. by rewrite (IH p).
Qed.

Lemma strings_Split_two s sep a b :
  strings_Split s sep = [a; b] → s = a +:+ String sep b.
Proof.
  revert a. induction s as [|c s IH]; intros a; simpl; [done|].
  destruct (decide (c = sep)) as [->|Hne].
  - intros [= <- Hs]. apply strings_Split_one in Hs. by subst.
  - destruct (strings_Split s sep) as [|p ps] eqn:Hs;
      [by apply strings_Split_nonempty in Hs|].
    intros [= <- ->]. simpl. by rewrite (IH p).
Qed.

Lemma strings_Split_no_sep s sep :
  sep ∉ String.list_ascii_of_string s → strings_Split s sep = [s].
Proof.
  induction s as [|c s IH]; simpl; [done|]. intros Hnot.
  apply not_elem_of_cons in Hnot as [Hne Hnot].
  destruct (decide (c = sep)); [by subst|]. by rewrite IH.
Qed.

Lemma strings_Split_prefix a b sep :
  sep ∉ String.list_ascii_of_string a →
  strings_Split (a +:+ String sep b) sep = a :: strings_Split b sep.
Proof.
  induction a as [|c a IH]; simpl.
  - intros _. by destruct (decide (sep = sep)).
  - intros Hnot. apply not_elem_of_cons in Hnot as [Hne Hnot].
    destruct (decide (c = sep)); [by subst|]. by rewrite IH.
Qed.

Lemma http_Error_status message code w :
  StatusCode w = None →
  StatusCode (http_Error message code
                (Header_Set_ContentType "application/json" w))
  = Some code.
Proof. unfold http_Error, Write, WriteHeader. simpl. by intros ->. Qed.

Section Web.

Variable jwt_ParseWithClaims : string → (Claims * bool) + error.
Variable json_Decode : Bytes → CreateConversationRequest + error.

(** X21. [AuthMiddleware] lets a request through to the wrapped handler
    only when its [Authorization] header is [Bearer] followed by a token
    that [ValidateToken] accepts, and then with the claims of that token in
    the context; every other request is answered with status 401 and
    changes nothing. *)
Theorem AuthMiddleware_gate (next : ResponseWriter → Request → M ResponseWriter)
    w r s :
  (∃ tokenString claims,
     Header_Authorization r = "Bearer " +:+ tokenString
     ∧ ValidateToken jwt_ParseWithClaims tokenString = inl claims
     ∧ AuthMiddleware jwt_ParseWithClaims next w r s
       = next (Header_Set_ContentType "application/json" w)
           (WithContext_user r claims) s)
  ∨ (∃ message,
       AuthMiddleware jwt_ParseWithClaims next w r s
       = Done (http_Error message 401
                 (Header_Set_ContentType "application/json" w), s)).
Proof.
  unfold AuthMiddleware. cbv zeta.
  case_bool_decide as Hempty; [right; by eexists|].
  case_bool_decide as Hparts; [right; by eexists|].
  assert (length (strings_Split (Header_Authorization r) " ") = 2) as Hlen.
  { destruct (decide (length (strings_Split (Header_Authorization r) " ")
                      = 2)); [done|].
    exfalso. apply Hparts. by left. }
  assert (strings_Split (Header_Authorization r) " " !! 0 = Some "Bearer")
    as Hhead.
  { destruct (decide (strings_Split (Header_Authorization r) " " !! 0
                      = Some "Bearer")); [done|].
    exfalso. apply Hparts. by right. }
  destruct (strings_Split (Header_Authorization r) " ")
    as [|p0 [|tokenString [|? ?]]] eqn:Hsplit; try done.
  simpl in Hhead. injection Hhead as ->. simpl.
  destruct (ValidateToken jwt_ParseWithClaims tokenString) as [claims|err] eqn:Hvalid.
  - left. exists tokenString, claims. split_and!; try done.
    by apply strings_Split_two in Hsplit.
  - right. by eexists.
Qed.

(** X22. A request whose [Authorization] header is [Bearer], one space and
    a token without spaces that [ValidateToken] accepts reaches the
    wrapped handler, with the claims of the token in its context. *)
Theorem bearer_token_is_accepted
    (next : ResponseWriter → Request → M ResponseWriter) w r tokenString
    claims :
  Header_Authorization r = "Bearer " +:+ tokenString →
  " "%char ∉ String.list_ascii_of_string tokenString →
  ValidateToken jwt_ParseWithClaims tokenString = inl claims →
  AuthMiddleware jwt_ParseWithClaims next w r
  = next (Header_Set_ContentType "application/json" w)
      (WithContext_user r claims).
Proof.
  intros Hheader Hspace Hvalid. unfold AuthMiddleware. cbv zeta.
  rewrite Hheader. rewrite bool_decide_eq_false_2 by done.
  assert (strings_Split ("Bearer " +:+ tokenString) " "
          = ["Bearer"; tokenString]) as ->.
  { change ("Bearer " +:+ tokenString)
      with ("Bearer" +:+ String " " tokenString).
    rewrite strings_Split_prefix by compute_done.
    by rewrite (strings_Split_no_sep _ _ Hspace). }
  rewrite bool_decide_eq_false_2 by (intros [?|?]; done).
  simpl. by rewrite Hvalid.
Qed.

(** X23. Behind [AuthMiddleware], [AdminMiddleware] lets a request through
    only with a valid token whose claims say admin; all others are
    answered with 401 or 403 and change nothing. *)
Theorem admin_routes_need_admin_claims
    (next : ResponseWriter → Request → M ResponseWriter) w r s :
  (∃ tokenString claims,
     Header_Authorization r = "Bearer " +:+ tokenString
     ∧ ValidateToken jwt_ParseWithClaims tokenString = inl claims
     ∧ claims_IsAdmin claims = true
     ∧ AuthMiddleware jwt_ParseWithClaims (AdminMiddleware next) w r s
       = next (Header_Set_ContentType "application/json" w)
           (WithContext_user r claims) s)
  ∨ (∃ message code,
       (code = 401 ∨ code = 403)
       ∧ AuthMiddleware jwt_ParseWithClaims (AdminMiddleware next) w r s
         = Done (http_Error message code
                   (Header_Set_ContentType "application/json" w), s)).
Proof.
  unfold AuthMiddleware. cbv zeta.
  case_bool_decide as Hempty; [right; eexists _, 401; by split; [left|]|].
  case_bool_decide as Hparts; [right; eexists _, 401; by split; [left|]|].
  assert (length (strings_Split (Header_Authorization r) " ") = 2) as Hlen.
  { destruct (decide (length (strings_Split (Header_Authorization r) " ")
                      = 2)); [done|].
    exfalso. apply Hparts. by left. }
  assert (strings_Split (Header_Authorization r) " " !! 0 = Some "Bearer")
    as Hhead.
  { destruct (decide (strings_Split (Header_Authorization r) " " !! 0
                      = Some "Bearer")); [done|].
    exfalso. apply Hparts. by right. }
  destruct (strings_Split (Header_Authorization r) " ")
    as [|p0 [|tokenString [|? ?]]] eqn:Hsplit; try done.
  simpl in Hhead. injection Hhead as ->. simpl.
  destruct (ValidateToken jwt_ParseWithClaims tokenString) as [claims|err] eqn:Hvalid.
  2:{ right. eexists _, 401. by split; [left|]. }
  unfold AdminMiddleware. simpl.
  destruct (claims_IsAdmin claims) eqn:Hadmin; simpl.
  - left. exists tokenString, claims. split_and!; try done.
    by apply strings_Split_two in Hsplit.
  - right. eexists _, 403. by split; [right|].
Qed.

(** X25. [CreateConversationHandler] answers 200 only with a conversation
    in which the authenticated user and the user named in the request both
    take part; when it answers anything else, no table has changed. *)
Theorem conversation_handler_is_all_or_nothing w r s w' s' :
  StatusCode w = None →
  CreateConversationHandler json_Decode w r s = Done (w', s') →
  (StatusCode w' = Some 200 →
     ∃ user req conv,
       Context_user r = Some user
       ∧ json_Decode (Body r) = inl req
       ∧ req_OtherUserID req ≠ EmptyString
       ∧ Written w' = Written w ++ [ConversationJSON (Some conv)]
       ∧ claims_UserID user ∈ participants_of (db s') (conv_ID conv)
       ∧ req_OtherUserID req ∈ participants_of (db s') (conv_ID conv))
  ∧ (StatusCode w' ≠ Some 200 → same_tables (db s) (db s')).
Proof.
  intros Hfresh. unfold CreateConversationHandler, GetUserFromContext.
  cbv zeta.
  destruct (Context_user r) as [user|] eqn:Huser.
  2:{ intros [= <- <-]. rewrite http_Error_status by done. by split. }
  destruct (json_Decode (Body r)) as [req|err] eqn:Hreq.
  2:{ intros [= <- <-]. rewrite http_Error_status by done. by split. }
  case_bool_decide as Hother.
  { intros [= <- <-]. rewrite http_Error_status by done. by split. }
  unfold mbind, M_bind.
  destruct (GetOrCreateConversation_cases (claims_UserID user)
              (req_OtherUserID req) s)
    as (res & s1 & Hrun & _ & _ & _ & _ & _ & Hcases).
  rewrite Hrun.
  assert (∀ conv, res = (Some conv, None) →
            claims_UserID user ∈ participants_of (db s1) (conv_ID conv)
            ∧ req_OtherUserID req ∈ participants_of (db s1) (conv_ID conv))
    as Hboth.
  { intros conv ->.
    assert (∃ c, conv = MkConversation (c_id c) (c_created_at c)
                 ∧ c ∈ GetOrCreateConversation_query (db s1)
                         (claims_UserID user) (req_OtherUserID req))
      as (c & -> & Hin).
    { destruct Hcases as [(c & rest & Hq & _ & [= ->] & Htab)
                         |[(c & Hq & [= ->] & _ & _ & _ & _ & _ & Hc
                            & Hp & _)
                          |(e & [=] & _)]].
      - exists c. split; [done|].
        rewrite (GetOrCreateConversation_query_tables _ _ _ _ Htab), Hq.
        by left.
      - exists c. split; [done|].
        apply GetOrCreateConversation_query_member. rewrite Hc, Hp.
        split_and!; apply elem_of_app; right.
        + by left.
        + by left.
        + right. by left. }
    apply GetOrCreateConversation_query_member in Hin as (_ & H1 & H2).
    simpl. by rewrite !participants_of_member. }
  destruct Hcases as [(c & rest & _ & _ & -> & Htab)
                     |[(c & _ & -> & _)|(e & -> & Htab)]].
  - intros [= <- <-]. split; [|by intros _].
    intros _. eexists user, req, _. split_and!; try done.
    + unfold Write, WriteHeader. simpl. by rewrite Hfresh.
    + by apply Hboth.
    + by apply Hboth.
  - intros [= <- <-]. split.
    + intros _. eexists user, req, _. split_and!; try done.
      * unfold Write, WriteHeader. simpl. by rewrite Hfresh.
      * by apply Hboth.
      * by apply Hboth.
    + unfold Write, WriteHeader. simpl. rewrite Hfresh. simpl. done.
  - intros [= <- <-]. rewrite http_Error_status by done. by split.
Qed.

End Web.

(** X24. [GetMessagesHandler] answers 200 only to a participant of the
    conversation named in the path, with stored messages of that
    conversation, 100 at most; whatever it answers, no table changes. *)
Theorem messages_are_served_to_participants_only w r s w' s' :
  StatusCode w = None →
  GetMessagesHandler w r s = Done (w', s') →
  same_tables (db s) (db s')
  ∧ (StatusCode w' = Some 200 →
       ∃ user conversationID history,
         Context_user r = Some user
         ∧ strings_Split (URL_Path r) "/" !! 3 = Some conversationID
         ∧ claims_UserID user ∈ participants_of (db s) conversationID
         ∧ Written w' = Written w ++ [MessagesJSON history]
         ∧ Forall (λ row, ∃ m, m ∈ messages (db s)
                               ∧ msg_ConversationID m = conversationID
                               ∧ msg_ID row = msg_ID m
                               ∧ msg_Content row = msg_Content m
                               ∧ msg_SenderID row = msg_SenderID m)
                  history
         ∧ length history ≤ 100).
Proof.
  intros Hfresh. unfold GetMessagesHandler, GetUserFromContext. cbv zeta.
  destruct (Context_user r) as [user|] eqn:Huser.
  2:{ intros [= <- <-]. rewrite http_Error_status by done. by split. }
  case_bool_decide as Hlen.
  { intros [= <- <-]. rewrite http_Error_status by done. by split. }
  destruct (strings_Split (URL_Path r) "/" !! 3) as [cid|] eqn:Hcid.
  2:{ apply lookup_ge_None in Hcid. lia. }
  simpl. unfold mbind, M_bind. rewrite IsUserInConversation_spec.
  destruct (participation (db s) (claims_UserID user) cid)
    as [isParticipant err] eqn:Hpart.
  destruct err as [e|].
  { intros [= <- <-]. rewrite http_Error_status by done. by split. }
  destruct isParticipant; simpl.
  2:{ intros [= <- <-]. rewrite http_Error_status by done. by split. }
  assert (claims_UserID user ∈ participants_of (db s) cid) as Hmember.
  { apply IsUserInConversation_query_member. unfold participation in Hpart.
    destruct (fault (db s) (tick (db s))); [done|].
    by destruct (IsUserInConversation_query (db s) (claims_UserID user) cid). }
  unfold GetConversationMessages, db_roundtrip. run.
  destruct (fault (db s) (S (tick (db s)))) as [e|].
  { intros [= <- <-]. rewrite http_Error_status by done. by split. }
  simpl. intros Heq. injection Heq as <- <-. split; [done|]. intros _.
  exists user, cid,
    (GetConversationMessages_query (db s) cid (Z.to_nat 100)).
  split_and!; try done.
  - unfold Write, WriteHeader. simpl. by rewrite Hfresh.
  - eapply Forall_impl; [apply GetConversationMessages_query_rows|].
    simpl. intros row (m & usr & Hm & Hc & _ & _ & ->). by exists m.
  - apply GetConversationMessages_query_length.
Qed.

(** X26. [GetConversationsHandler] answers 200 only with conversations of
    the authenticated user: each row is a stored conversation in which the
    user takes part, together with another participant; no table
    changes. *)
Theorem conversations_listed_are_the_users_own w r s w' s' :
  StatusCode w = None →
  GetConversationsHandler w r s = Done (w', s') →
  same_tables (db s) (db s')
  ∧ (StatusCode w' = Some 200 →
       ∃ user rows,
         Context_user r = Some user
         ∧ Written w' = Written w ++ [ConversationsJSON rows]
         ∧ Forall (λ row,
                     ID row ∈ c_id <$> conversations (db s)
                     ∧ claims_UserID user ∈ participants_of (db s) (ID row)
                     ∧ OtherUserID row ∈ participants_of (db s) (ID row)
                     ∧ OtherUserID row ≠ claims_UserID user)
                  rows).
Proof.
  intros Hfresh. unfold GetConversationsHandler, GetUserFromContext.
  cbv zeta.
  destruct (Context_user r) as [user|] eqn:Huser.
  2:{ intros [= <- <-]. rewrite http_Error_status by done. by split. }
  unfold mbind, M_bind. rewrite GetUserConversations_spec.
  unfold listing. destruct (fault (db s) (tick (db s))) as [e|].
  { intros [= <- <-]. rewrite http_Error_status by done. by split. }
  simpl. intros [= <- <-]. split; [done|]. intros _.
  exists user, (GetUserConversations_query (db s) (claims_UserID user)).
  split_and!; try done.
  - unfold Write, WriteHeader. simpl. by rewrite Hfresh.
  - apply Forall_forall. intros row Hrow.
    apply GetUserConversations_query_member in Hrow
      as (c & cp1 & cp2 & usr & Hc & Hcp1 & H1 & H1' & Hcp2 & H2 & H2'
          & Husr & Hid & ->).
    simpl. rewrite !participants_of_member. split_and!.
    + by apply list_elem_of_fmap_2.
    + destruct cp1. simpl in *. by subst.
    + destruct cp2. simpl in *. by subst.
    + by rewrite <- Hid.
Qed.

End System.

(** ** The further theorems at concrete inputs *)

Import Cases.

(** The lobby is what three accepted connections make of a fresh hub. *)
Lemma lobby_reachable : reachable database lobby.
Proof.
  unfold reachable.
  eapply rtc_l.
  { eapply (step_accept _ (Some ("alice", "Alice")) None).
    vm_compute. reflexivity. }
  eapply rtc_l.
  { eapply (step_accept _ (Some ("bob", "Bob")) None).
    vm_compute. reflexivity. }
  eapply rtc_l.
  { eapply (step_accept _ (Some ("carol", "Carol")) None).
    vm_compute. reflexivity. }
  apply rtc_refl.
Qed.

Lemma slots_ok n k pending : hub_ok (slots n k pending).
Proof. apply hub_ok_b_true. vm_compute. reflexivity. Qed.

Lemma reachable_hub_ok_witness : hub_ok lobby.
Proof. apply (reachable_hub_ok database lobby). exact lobby_reachable. Defined.

Lemma reachable_never_panics_witness :
  ∃ s', ReadPump_frame 2 (chat "d1" "hi") lobby = Done (tt, s').
Proof.
  destruct (reachable_never_panics database lobby lobby_reachable)
    as (_ & _ & _ & Hframe & _).
  apply Hframe. by eexists.
Defined.

Lemma reachable_buffers_bounded_witness :
  cap (send (session "bob" "Bob")) = 256
  ∧ length (buf (send (session "bob" "Bob"))) ≤ 256.
Proof.
  apply (reachable_buffers_bounded database lobby 1 (session "bob" "Bob")).
  - exact lobby_reachable.
  - reflexivity.
Defined.

(** alice's first session was superseded; then bob connects. *)
Lemma closed_session_gets_nothing_more_witness :
  ∃ s', Handler (Some ("bob", "Bob")) None superseded = Done (Some 2, s')
        ∧ is_closed 0 s' ∧ outbound 0 s' `suffix_of` outbound 0 superseded.
Proof.
  destruct (Handler (Some ("bob", "Bob")) None superseded)
    as [[r s']|reason] eqn:Hrun; [|vm_compute in Hrun; discriminate].
  assert (r = Some 2) as -> by (vm_compute in Hrun; congruence).
  exists s'. split; [reflexivity|].
  apply (closed_session_gets_nothing_more superseded s' 0).
  - apply rtc_once. by eapply step_accept.
  - eexists. split; reflexivity.
Defined.

Lemma accepted_connection_is_online_witness :
  ∃ a s', Handler (Some ("dave", "Dave")) None lobby = Done (Some a, s')
          ∧ clients s' = <["dave" := a]> (clients lobby)
          ∧ IsUserOnline "dave" s' = Done (true, s').
Proof.
  destruct (accepted_connection_is_online lobby "dave" "Dave" lobby_ok)
    as (a & s' & Hrun & _ & _ & Hmap & _ & Honline).
  by exists a, s'.
Defined.

Lemma connect_then_disconnect_witness :
  ∃ a s1 s2, Handler (Some ("dave", "Dave")) None lobby = Done (Some a, s1)
             ∧ Run_unregister a s1 = Done (tt, s2)
             ∧ clients s2 = delete "dave" (clients lobby)
             ∧ IsUserOnline "dave" s2 = Done (false, s2).
Proof.
  destruct (connect_then_disconnect lobby "dave" "Dave" lobby_ok)
    as (a & s1 & s2 & Hrun & Hleave & _ & Hmap & Hoffline).
  by exists a, s1, s2.
Defined.

Lemma offline_dispatch_is_silent_witness :
  let v := AnyTypingMessage (MkTypingMessage "typing" "d1" "alice" "Alice"
                               true) in
  ∃ s', (SendToUser "dave" v ≫= λ err, Run_receive_broadcast;; mret err)
          lobby = Done (None, s')
        ∧ heap s' = heap lobby ∧ log s' = log lobby.
Proof.
  intros v.
  destruct (offline_dispatch_is_silent lobby "dave" v
              (String.list_byte_of_string "d1"))
    as (s' & Hrun & Hheap & _ & Hlog & _);
    [reflexivity|reflexivity|reflexivity|].
  by exists s'.
Defined.

Lemma online_dispatch_is_queued_witness :
  let v := AnyTypingMessage (MkTypingMessage "typing" "d1" "alice" "Alice"
                               true) in
  ∃ s', (SendToUser "bob" v ≫= λ err, Run_receive_broadcast;; mret err)
          lobby = Done (None, s')
        ∧ outbound 1 s' = [String.list_byte_of_string "d1"].
Proof.
  intros v.
  destruct (online_dispatch_is_queued lobby "bob" 1 (session "bob" "Bob") v
              (String.list_byte_of_string "d1") lobby_ok)
    as (s' & Hrun & Hout & _);
    [reflexivity|reflexivity|simpl; lia|reflexivity|reflexivity|].
  by exists s'.
Defined.

Lemma dispatch_keeps_order_witness :
  let pending := [MkOutgoingMessage "alice" [Byte.x01];
                  MkOutgoingMessage "bob" [Byte.x02];
                  MkOutgoingMessage "alice" [Byte.x03]] in
  ∃ s', Run [Broadcast; Broadcast; Broadcast] (slots 4 1 pending)
        = Done (tt, s')
        ∧ outbound 0 s' = [[]; [Byte.x01]; [Byte.x03]].
Proof.
  intros pending.
  destruct (dispatch_keeps_order (slots 4 1 pending) "alice" 0
              (MkClient (MkChan [[]] 4 false) "alice" "Alice" false)
              (slots_ok _ _ _))
    as (s' & Hrun & Hout & _); [reflexivity|reflexivity|compute_done|].
  by exists s'.
Defined.

Lemma writer_keeps_order_witness :
  let s := slots 4 0 [] in
  let queued := MkState (<[0 := MkClient
                                  (MkChan [[Byte.x01]; [Byte.x02]; [Byte.x03]]
                                     4 false) "alice" "Alice" false]>
                           (heap s))
                  (clients s) (broadcast s) (log s) (db s) (calls s) in
  ∃ conn' s',
    WritePump 0 [SendReady; TickerReady; SendReady] wire queued
    = Done ((false, conn'), s')
    ∧ texts (written conn') = [[Byte.x01]; [Byte.x02]]
    ∧ outbound 0 s' = [[Byte.x03]].
Proof.
  intros s queued.
  destruct (writer_keeps_order queued 0
              (MkClient (MkChan [[Byte.x01]; [Byte.x02]; [Byte.x03]] 4 false)
                 "alice" "Alice" false)
              [SendReady; TickerReady; SendReady] wire)
    as (conn' & s' & Hrun & Htexts & Hout & _);
    [reflexivity|reflexivity|reflexivity|by intros i|].
  by exists conn', s'.
Defined.


Lemma writer_stops_at_failed_write_witness :
  ∃ conn' s',
    WritePump 0 [SendReady; SendReady] broken_wire (slots 4 2 [])
    = Done ((true, conn'), s')
    ∧ written conn' = [] ∧ conn_closed conn' = true
    ∧ outbound 0 s' = [[]].
Proof.
  destruct (writer_stops_at_failed_write (slots 4 2 []) 0
              (MkClient (MkChan [[]; []] 4 false) "alice" "Alice" false)
              [] [[]] broken_wire [SendReady])
    as (conn' & s' & Hrun & Hwritten & Hclosed & Hout & _);
    [reflexivity|reflexivity|right; by eexists|].
  by exists conn', s'.
Defined.

Lemma reader_exit_unregisters_witness :
  ∃ conn' s',
    ReadPump decode 0 [ReadData [Byte.x01]; ReadFailed "EOF" false] wire lobby
    = Done ((true, conn'), s')
    ∧ conn_closed conn' = true
    ∧ clients s' = delete "alice" (clients lobby) ∧ is_closed 0 s'.
Proof.
  destruct (reader_exit_unregisters decode lobby 0 (session "alice" "Alice")
              [ReadData [Byte.x01]; ReadFailed "EOF" false] wire "EOF" false
              lobby_ok)
    as (conn' & s' & Hrun & Hclosed & _ & Hown & _);
    [reflexivity|right; by left|].
  destruct Hown as [Hmap Hcl]; [reflexivity|].
  by exists conn', s'.
Defined.

Lemma unusable_frames_are_skipped_witness :
  ∃ s', ReadPump_loop decode 0 [ReadData []; ReadData [Byte.x01]] lobby
        = Done (false, s')
        ∧ heap s' = heap lobby ∧ calls s' = calls lobby
        ∧ length (log s') = length (log lobby) + 2.
Proof.
  destruct (unusable_frames_are_skipped decode lobby 0
              [ReadData []; ReadData [Byte.x01]])
    as (s' & Hrun & Hheap & _ & _ & _ & Hcalls & Hlog).
  { intros input Hin.
    apply elem_of_cons in Hin as [->|Hin].
    - exists []. split; [reflexivity|]. intros msg Hdec. discriminate Hdec.
    - apply list_elem_of_singleton in Hin as ->.
      exists [Byte.x01]. split; [reflexivity|]. intros msg Hdec.
      injection Hdec as <-. by split. }
  by exists s'.
Defined.

(** bob's stored message is joined by what alice says. *)
Lemma saved_message_is_in_history_witness :
  ∃ m s1 history s2,
    CreateMessage "d1" "alice" "hi" (NewHub directory)
    = Done ((Some m, None), s1)
    ∧ GetConversationMessages "d1" 100 s1 = Done ((history, None), s2)
    ∧ MkMessage (msg_ID m) "d1" "alice" "Alice" "hi" (msg_CreatedAt m)
      ∈ history.
Proof.
  destruct (CreateMessage "d1" "alice" "hi" (NewHub directory))
    as [[[[m|] [e|]] s1]|reason] eqn:Hrun;
    try (vm_compute in Hrun; discriminate).
  assert (fault (db s1) (tick (db s1)) = None) as Hf.
  { vm_compute in Hrun. injection Hrun as _ <-. reflexivity. }
  destruct (saved_message_is_in_history (NewHub directory) "d1" "alice" "hi"
              m s1 100 Hrun Hf)
    as (history & s2 & name & Hread & Huser & Hin); [lia|].
  exists m, s1, history, s2. split; [reflexivity|]. split; [exact Hread|].
  assert (users (db s1) = users directory) as Husers.
  { vm_compute in Hrun. injection Hrun as _ <-. reflexivity. }
  assert (name = "Alice") as ->.
  { rewrite Husers in Huser. vm_compute in Huser.
    repeat (apply elem_of_cons in Huser as [[=]|Huser]; try done).
    by apply elem_of_nil in Huser. }
  destruct Hin as [Hin|Hlen]; [exact Hin|].
  exfalso. revert Hread Hlen. vm_compute in Hrun. injection Hrun as _ <-.
  vm_compute. intros [= <- _]. discriminate.
Defined.

Lemma history_is_scoped_sorted_and_bounded_witness :
  ∃ history s',
    GetConversationMessages "d1" 100 (NewHub directory)
    = Done ((history, None), s')
    ∧ Forall (λ row, msg_ConversationID row = "d1") history
    ∧ StronglySorted oldest_first history.
Proof.
  destruct (GetConversationMessages "d1" 100 (NewHub directory))
    as [[[history [e|]] s']|reason] eqn:Hrun;
    try (vm_compute in Hrun; discriminate).
  destruct (history_is_scoped_sorted_and_bounded (NewHub directory) "d1" 100
              history s' Hrun)
    as (Hrows & Hsorted & _).
  exists history, s'. split; [reflexivity|]. split; [|exact Hsorted].
  eapply Forall_impl; [exact Hrows|].
  intros row (m & usr & _ & _ & _ & _ & ->). reflexivity.
Defined.


Lemma get_or_create_admits_both_users_witness :
  ∃ conv s1,
    GetOrCreateConversation "alice" "dave" (NewHub directory)
    = Done ((Some conv, None), s1)
    ∧ "alice" ∈ participants_of (db s1) (conv_ID conv)
    ∧ "dave" ∈ participants_of (db s1) (conv_ID conv).
Proof.
  destruct (GetOrCreateConversation "alice" "dave" (NewHub directory))
    as [[[[conv|] [e|]] s1]|reason] eqn:Hrun;
    try (vm_compute in Hrun; discriminate).
  destruct (get_or_create_admits_both_users "alice" "dave"
              (NewHub directory) conv s1 Hrun)
    as (_ & Hboth).
  exists conv, s1. split; [reflexivity|]. split.
  - apply (Hboth "alice"). by left.
  - apply (Hboth "dave"). by right.
Defined.

(** The commit fails: the conversation and its participants are gone. *)
Lemma failed_get_or_create_leaves_no_trace_witness :
  ∃ s1,
    GetOrCreateConversation "alice" "dave" (NewHub directory_commit_fails)
    = Done ((None, Some ("failed to commit transaction: "
                         +:+ "driver: bad connection")), s1)
    ∧ same_tables directory_commit_fails (db s1).
Proof.
  destruct (GetOrCreateConversation "alice" "dave"
              (NewHub directory_commit_fails))
    as [[[[conv|] [e|]] s1]|reason] eqn:Hrun;
    try (vm_compute in Hrun; discriminate).
  assert (e = "failed to commit transaction: " +:+ "driver: bad connection")
    as -> by (vm_compute in Hrun; vm_compute; congruence).
  exists s1. split; [reflexivity|].
  exact (failed_get_or_create_leaves_no_trace "alice" "dave"
           (NewHub directory_commit_fails) _ s1 Hrun).
Defined.

Lemma bearer_token_is_accepted_witness :
  let r := request "Bearer t-alice" "/api/conversations/d1/messages" ""
             None in
  AuthMiddleware tokens GetMessagesHandler fresh_writer r
  = GetMessagesHandler
      (Header_Set_ContentType "application/json" fresh_writer)
      (WithContext_user r alice).
Proof.
  intros r.
  apply (bearer_token_is_accepted tokens GetMessagesHandler fresh_writer r
           "t-alice" alice).
  - reflexivity.
  - compute_done.
  - reflexivity.
Defined.

(** alice reads the conversation she has with bob. *)
Lemma messages_are_served_to_participants_only_witness :
  let r := request "" "/api/conversations/d1/messages" "" (Some alice) in
  ∃ w' s' history,
    GetMessagesHandler fresh_writer r (NewHub directory) = Done (w', s')
    ∧ StatusCode w' = Some 200
    ∧ Written w' = [MessagesJSON history]
    ∧ length history ≤ 100.
Proof.
  intros r.
  destruct (GetMessagesHandler fresh_writer r (NewHub directory))
    as [[w' s']|reason] eqn:Hrun; [|vm_compute in Hrun; discriminate].
  assert (StatusCode w' = Some 200) as Hok.
  { vm_compute in Hrun. injection Hrun as <- _. reflexivity. }
  destruct (messages_are_served_to_participants_only fresh_writer r
              (NewHub directory) w' s' eq_refl Hrun)
    as (_ & Hserved).
  destruct (Hserved Hok)
    as (user & cid & history & _ & _ & _ & Hwritten & _ & Hlen).
  by exists w', s', history.
Defined.

(** alice asks for her conversation with carol. *)
Lemma conversation_handler_is_all_or_nothing_witness :
  let r := request "" "/api/conversations" "carol" (Some alice) in
  ∃ w' s' conv,
    CreateConversationHandler body_decoder fresh_writer r (NewHub directory)
    = Done (w', s')
    ∧ StatusCode w' = Some 200
    ∧ Written w' = [ConversationJSON (Some conv)]
    ∧ "carol" ∈ participants_of (db s') (conv_ID conv).
Proof.
  intros r.
  destruct (CreateConversationHandler body_decoder fresh_writer r
              (NewHub directory))
    as [[w' s']|reason] eqn:Hrun; [|vm_compute in Hrun; discriminate].
  assert (StatusCode w' = Some 200) as Hok.
  { vm_compute in Hrun. injection Hrun as <- _. reflexivity. }
  destruct (conversation_handler_is_all_or_nothing body_decoder fresh_writer
              r (NewHub directory) w' s' eq_refl Hrun)
    as (Hcreated & _).
  destruct (Hcreated Hok)
    as (user & req & conv & _ & Hreq & _ & Hwritten & _ & Hother).
  injection Hreq as <-.
  by exists w', s', conv.
Defined.

Lemma conversations_listed_are_the_users_own_witness :
  let r := request "" "/api/conversations" "" (Some alice) in
  ∃ w' s' rows,
    GetConversationsHandler fresh_writer r (NewHub directory)
    = Done (w', s')
    ∧ StatusCode w' = Some 200
    ∧ Written w' = [ConversationsJSON rows]
    ∧ Forall (λ row, "alice" ∈ participants_of directory (ID row)) rows.
Proof.
  intros r.
  destruct (GetConversationsHandler fresh_writer r (NewHub directory))
    as [[w' s']|reason] eqn:Hrun; [|vm_compute in Hrun; discriminate].
  assert (StatusCode w' = Some 200) as Hok.
  { vm_compute in Hrun. injection Hrun as <- _. reflexivity. }
  destruct (conversations_listed_are_the_users_own fresh_writer r
              (NewHub directory) w' s' eq_refl Hrun)
    as (_ & Hlisted).
  destruct (Hlisted Hok) as (user & rows & Huser & Hwritten & Hrows).
  injection Huser as <-.
  exists w', s', rows. split; [reflexivity|]. split; [exact Hok|].
  split; [exact Hwritten|].
  eapply Forall_impl; [exact Hrows|]. by intros row (_ & Hin & _).
Defined.
